(** * Attendance, roster and grade derivations of the academic portal

    A shallow embedding of the data-shaping code of the portal
    (src/lib/attendanceUtils.ts, src/lib/rosterUtils.ts, src/lib/store.ts,
    src/lib/api.ts and the loaders of the teacher and admin pages),
    followed by the properties proved about it.

    Conventions of the embedding.
    - A JavaScript string is a [string]: a sequence of 8-bit code units,
      read as the code units U+0000..U+00FF.  Whitespace and case mapping
      are those of ECMAScript on that range.
    - A JavaScript number is a rational [Q]; the result of a division is a
      [Js.JsNumber], which adds the two infinities and NaN.  Sums,
      products and quotients of [Q] are exact.  Two derivations round a
      quotient to an integer, the attendance rate and the cumulative
      percentage of the grade table, and there the rounding error of
      binary64 arithmetic can decide the result.  They are given a second
      time over binary64 numbers ([Binary64], [Machine]), operation by
      operation as the code performs them, and the statements that fix
      the value of a rate or of a cumulative percentage in general are
      made about that rendition.  The exact rendition serves the
      statements about counts, bounds and the cases in which the quotient
      is exact; the statements about payments are made for amounts in
      whole units, on which the arithmetic of binary64 is exact.
    - An object used as a dictionary, and a [Map], is the association list
      of its own entries in insertion order ([Js.Dict]); a [Set] is a
      duplicate-free list in insertion order.  [STATUS_MAP] and the
      object that groups attendance by course name are read with
      arbitrary text, and their reads go through [Js.read], which accounts
      for the members that an object literal inherits.  The other objects
      are keyed by record ids, which are taken to differ from the member
      names of [Object.prototype]; they are read with [Js.get], and the
      statements about them are about lookups and membership, not about
      the order in which JavaScript enumerates the keys of an object.
    - A computation that may throw returns a [Js.Completion].
    - The record store is a pair of tables ([Api.Tables]) for the batched
      reads, and the rows already fetched are arguments of the loaders. *)

From Stdlib Require Import ZArith QArith Qround Qminmax Lia Lqa.
From Stdlib Require Import SpecFloat.
From Stdlib Require Import Ascii String.
From stdpp Require Import base decidable option list strings.

Set Warnings "-clear-no-such-hyp".

Local Open Scope string_scope.
Local Open Scope list_scope.

(** ** JavaScript primitives used by the code *)

Module Js.

(** *** Numbers *)

Inductive JsNumber : Type :=
  | Finite (q : Q)
  | Infinity
  | NegInfinity
  | NaN.

Definition Qzero (q : Q) : bool := Qeq_bool q 0.
Definition Qpos (q : Q) : bool := Qle_bool 0 q && negb (Qzero q).

(** [a / b] on finite operands. *)
Definition div (a b : Q) : JsNumber :=
  if Qzero b then
    if Qzero a then NaN else if Qpos a then Infinity else NegInfinity
  else Finite (a / b).

(** [x * k] for a finite [k]. *)
Definition mulq (x : JsNumber) (k : Q) : JsNumber :=
  match x with
  | Finite q => Finite (q * k)
  | Infinity =>
      if Qzero k then NaN else if Qpos k then Infinity else NegInfinity
  | NegInfinity =>
      if Qzero k then NaN else if Qpos k then NegInfinity else Infinity
  | NaN => NaN
  end.

Definition add (x y : JsNumber) : JsNumber :=
  match x, y with
  | NaN, _ | _, NaN => NaN
  | Finite a, Finite b => Finite (a + b)
  | Infinity, NegInfinity | NegInfinity, Infinity => NaN
  | Infinity, _ | _, Infinity => Infinity
  | NegInfinity, _ | _, NegInfinity => NegInfinity
  end.

(** [x / k] for a finite divisor [k]. *)
Definition divq (x : JsNumber) (k : Q) : JsNumber :=
  match x with
  | Finite q => div q k
  | Infinity => if Qle_bool 0 k then Infinity else NegInfinity
  | NegInfinity => if Qle_bool 0 k then NegInfinity else Infinity
  | NaN => NaN
  end.

(** [Math.round]: the integer nearest to [x], ties towards +Infinity. *)
Definition Math_round (x : Q) : Z := Qfloor (x + (1 # 2)).

Definition round (x : JsNumber) : JsNumber :=
  match x with
  | Finite q => Finite (inject_Z (Math_round q))
  | other => other
  end.

Definition isFinite (x : JsNumber) : bool :=
  match x with Finite _ => true | _ => false end.

(** *** Strings *)

Definition code (c : ascii) : N := N_of_ascii c.

(** WhiteSpace and LineTerminator code units below U+0100:
    TAB, LF, VT, FF, CR, SP and NBSP. *)
Definition isWhitespace (c : ascii) : bool :=
  let n := code c in
  ((9 <=? n) && (n <=? 13) || (n =? 32) || (n =? 160))%N.

Definition isLineTerminator (c : ascii) : bool :=
  let n := code c in ((n =? 10) || (n =? 13))%N.

Fixpoint trimStart (s : string) : string :=
  match s with
  | String c s' => if isWhitespace c then trimStart s' else s
  | EmptyString => EmptyString
  end.

Fixpoint trimEnd (s : string) : string :=
  match s with
  | String c s' =>
      match trimEnd s' with
      | EmptyString => if isWhitespace c then EmptyString else String c EmptyString
      | t => String c t
      end
  | EmptyString => EmptyString
  end.

Definition trim (s : string) : string := trimEnd (trimStart s).

Definition isUpperAZ (c : ascii) : bool :=
  let n := code c in ((65 <=? n) && (n <=? 90))%N.
Definition isLowerAZ (c : ascii) : bool :=
  let n := code c in ((97 <=? n) && (n <=? 122))%N.
Definition isLetterAZ (c : ascii) : bool := isUpperAZ c || isLowerAZ c.

(** Lower case of one code unit: A-Z, and the Latin-1 capitals
    U+00C0..U+00DE without the multiplication sign U+00D7. *)
Definition lowerChar (c : ascii) : ascii :=
  let n := code c in
  if isUpperAZ c then ascii_of_N (n + 32)
  else if ((192 <=? n) && (n <=? 222) && negb (n =? 215))%N
       then ascii_of_N (n + 32)
  else c.

Fixpoint toLowerCase (s : string) : string :=
  match s with
  | String c s' => String (lowerChar c) (toLowerCase s')
  | EmptyString => EmptyString
  end.

(** Upper case of one code unit, as a string: the sharp s U+00DF becomes
    two letters.  The capitals of U+00B5 and U+00FF lie above U+00FF and
    those two code units are left as they are. *)
Definition upperChar (c : ascii) : string :=
  let n := code c in
  if isLowerAZ c then String (ascii_of_N (n - 32)) EmptyString
  else if ((224 <=? n) && (n <=? 254) && negb (n =? 247))%N
       then String (ascii_of_N (n - 32)) EmptyString
  else if (n =? 223)%N then "SS"
  else String c EmptyString.

Fixpoint toUpperCase (s : string) : string :=
  match s with
  | String c s' => upperChar c +:+ toUpperCase s'
  | EmptyString => EmptyString
  end.

(** [s.split(sep)] for a one-character separator. *)
Fixpoint split (sep : ascii) (s : string) : list string :=
  match s with
  | EmptyString => [EmptyString]
  | String c s' =>
      if Ascii.eqb c sep then EmptyString :: split sep s'
      else match split sep s' with
           | p :: ps => String c p :: ps
           | [] => [String c EmptyString]
           end
  end.

(** [s.replace(/[set]/g, '')]: drop every character of a class. *)
Fixpoint removeAll (inClass : ascii -> bool) (s : string) : string :=
  match s with
  | String c s' =>
      if inClass c then removeAll inClass s' else String c (removeAll inClass s')
  | EmptyString => EmptyString
  end.

(** [s.slice(0, n)] for a non-negative [n]. *)
Fixpoint slice0 (n : nat) (s : string) : string :=
  match n, s with
  | S n', String c s' => String c (slice0 n' s')
  | _, _ => EmptyString
  end.

(** A string is truthy when it is not empty. *)
Definition truthy (s : string) : bool :=
  match s with EmptyString => false | _ => true end.

(** *** Objects, maps and sets *)

(** Own properties of an object used as a dictionary, or the entries of a
    [Map], in insertion order. *)
Definition Dict (V : Type) : Type := list (string * V).

Fixpoint get {V} (d : Dict V) (k : string) : option V :=
  match d with
  | [] => None
  | (k', v) :: d' => if String.eqb k' k then Some v else get d' k
  end.

Definition has {V} (d : Dict V) (k : string) : bool :=
  match get d k with Some _ => true | None => false end.

(** [d[k] = v] and [m.set(k, v)]: an existing key keeps its place. *)
Fixpoint set {V} (d : Dict V) (k : string) (v : V) : Dict V :=
  match d with
  | [] => [(k, v)]
  | (k', v') :: d' =>
      if String.eqb k' k then (k', v) :: d' else (k', v') :: set d' k v
  end.

Definition keys {V} (d : Dict V) : list string := map fst d.
Definition values {V} (d : Dict V) : list V := map snd d.

(** The loop over [Object.entries(d)] that stores [f value] under the same
    key of a fresh object. *)
Definition mapEntries {V W} (f : V -> W) (d : Dict V) : Dict W :=
  fold_left (fun acc kv => set acc (fst kv) (f (snd kv))) d [].

(** [new Map(entries)]. *)
Definition MapOf {V} (entries : list (string * V)) : Dict V :=
  fold_left (fun m kv => set m (fst kv) (snd kv)) entries [].

Definition includes (l : list string) (x : string) : bool :=
  existsb (String.eqb x) l.

(** [set.add(x)] and [Array.from(new Set(l))]. *)
Definition SetAdd (s : list string) (x : string) : list string :=
  if includes s x then s else s ++ [x].

Definition SetOf (l : list string) : list string := fold_left SetAdd l [].

(** The names every object literal inherits from [Object.prototype]. *)
Definition Object_prototype : list string :=
  [ "constructor"; "__defineGetter__"; "__defineSetter__"; "hasOwnProperty";
    "__lookupGetter__"; "__lookupSetter__"; "isPrototypeOf";
    "propertyIsEnumerable"; "toString"; "valueOf"; "__proto__";
    "toLocaleString" ].

(** The outcome of the property read [obj[k]] on an object literal. *)
Inductive Property (V : Type) : Type :=
  | Own (v : V)
  | Inherited (name : string)
  | Undefined.
Arguments Own {V} v.
Arguments Inherited {V} name.
Arguments Undefined {V}.

Definition read {V} (obj : Dict V) (k : string) : Property V :=
  match get obj k with
  | Some v => Own v
  | None => if includes Object_prototype k then Inherited k else Undefined
  end.

(** *** Exceptions *)

(** The completion of a computation that may throw. *)
Inductive Completion (A : Type) : Type :=
  | Normal (a : A)
  | Throw.
Arguments Normal {A} a.
Arguments Throw {A}.

Definition bind {A B} (c : Completion A) (f : A -> Completion B) : Completion B :=
  match c with
  | Normal a => f a
  | Throw => Throw
  end.

Fixpoint mapM {A B} (f : A -> Completion B) (l : list A) : Completion (list B) :=
  match l with
  | [] => Normal []
  | x :: l' => bind (f x) (fun y => bind (mapM f l') (fun ys => Normal (y :: ys)))
  end.

End Js.

(** ** Binary64 numbers

    The numbers of JavaScript are the binary64 floating-point numbers of
    IEEE 754, and its arithmetic rounds every result to the nearest of
    them, ties to even.  [spec_float] with a precision of 53 bits and a
    maximal exponent of 1024 is that format. *)

Module Binary64.

Definition prec : Z := 53.
Definition emax : Z := 1024.

Definition double : Type := spec_float.

(** The number that an integer literal or a counter denotes. *)
Definition ofZ (z : Z) : double := binary_normalize prec emax z 0 false.

Definition ofNat (n : nat) : double := ofZ (Z.of_nat n).

(** The binary64 number nearest to a rational: the number that a decimal
    literal denotes, and the rational itself when it is a binary64
    number. *)
Definition ofQ (q : Q) : double :=
  match Qnum q with
  | Z0 => S754_zero false
  | Zpos n => SFdiv prec emax (S754_finite false n 0) (S754_finite false (Qden q) 0)
  | Zneg n => SFdiv prec emax (S754_finite true n 0) (S754_finite false (Qden q) 0)
  end.

Definition add : double -> double -> double := SFadd prec emax.
Definition sub : double -> double -> double := SFsub prec emax.
Definition mul : double -> double -> double := SFmul prec emax.
Definition div : double -> double -> double := SFdiv prec emax.

(** [Math.round]: the integer nearest to [x], a tie going to the larger
    one.  A number with a non-negative exponent is an integer already, and
    so are the zeros, the infinities and NaN their own results; otherwise
    [x] is [m / 2^p] up to its sign, and the result is the floor of
    [x + 1/2], computed exactly, with the sign of [x] when it is zero. *)
Definition Math_round (x : double) : double :=
  match x with
  | S754_finite s m (Zneg p) =>
      binary_normalize prec emax
        ((2 * cond_Zopp s (Zpos m) + 2 ^ Zpos p) / 2 ^ (Zpos p + 1)) 0 s
  | _ => x
  end.

(** [ToBoolean] of a number: false for the zeros and NaN. *)
Definition truthy (x : double) : bool :=
  match x with
  | S754_zero _ | S754_nan => false
  | _ => true
  end.


End Binary64.

(** ** src/types/index.ts *)

Module Types.

(** The union ['present' | 'absent' | 'late']. *)
Inductive Status : Type := present | late | absent.

(** The status column as it arrives ([RawStatus] of attendanceUtils.ts):
    a string, [null] or [undefined]. *)
Inductive RawStatus : Type :=
  | Text (s : string)
  | null
  | undefined.

Record Student : Type := mkStudent {
  student_id : string;
  student_name : string;
  student_email : string;
  student_gradeLevel : string;
  student_gpa : Q;
  student_attendance : Q
}.

(** The [studentIds] field of a course row: the array of strings that the
    [Course] type declares, a string (the column can hold JSON text or a
    delimited list), or anything else ([undefined], [null], a number,
    ...). *)
Inductive RosterField : Type :=
  | IdArray (ids : list string)
  | IdText (s : string)
  | IdOther.

(** A course; [R] is the type of its [studentIds] field, which differs
    before and after normalization. *)
Record Course (R : Type) : Type := mkCourse {
  course_id : string;
  course_name : string;
  course_code : string;
  course_teacherId : string;
  course_teacherName : string;
  course_studentIds : R
}.
Arguments mkCourse {R}.
Arguments course_id {R}.
Arguments course_name {R}.
Arguments course_code {R}.
Arguments course_teacherId {R}.
Arguments course_teacherName {R}.
Arguments course_studentIds {R}.

Record Grade : Type := mkGrade {
  grade_id : string;
  grade_studentId : string;
  grade_courseId : string;
  grade_courseName : string;
  grade_examType : string;
  grade_score : Q;
  grade_maxScore : Q
}.

Record AttendanceRecord : Type := mkAttendance {
  att_id : string;
  att_studentId : string;
  att_courseId : option string;
  att_courseName : string;
  att_date : string;
  att_status : RawStatus
}.

Record Finance : Type := mkFinance {
  fin_id : string;
  fin_studentId : string;
  totalFee : Q;
  scholarship : Q;
  paid : Q;
  due : Q;
  semester : string
}.

End Types.

Import Types.

(** ** src/lib/attendanceUtils.ts *)

Module AttendanceUtils.

Definition STATUS_MAP : Js.Dict Status :=
  [ ("present", present); ("attended", present); ("on-time", present);
    ("ontime", present); ("p", present); ("1", present); ("true", present);
    ("late", late); ("tardy", late); ("l", late);
    ("absent", absent); ("missed", absent); ("excused", absent);
    ("a", absent); ("0", absent); ("false", absent) ].

(** What [normalizeAttendanceStatus] hands back: a canonical status, the
    value of a member that [STATUS_MAP] inherits, or [null]. *)
Inductive Normalized : Type :=
  | Canonical (s : Status)
  | Member (name : string)
  | Null.

Definition normalizeAttendanceStatus (status : RawStatus) : Normalized :=
  match status with
  | null | undefined => Null
  | Text s =>
      let normalized := Js.toLowerCase (Js.trim s) in
      if negb (Js.truthy normalized) then Null
      else match Js.read STATUS_MAP normalized with
           | Js.Own v => Canonical v
           | Js.Inherited name => Member name
           | Js.Undefined => Null
           end
  end.

(** The local [stats] object of [calculateAttendanceStats]. *)
Record Counts : Type := mkCounts {
  c_total : nat;
  c_present : nat;
  c_late : nat;
  c_absent : nat
}.

Record Stats : Type := mkStats {
  total : nat;
  presentCount : nat;
  lateCount : nat;
  absentCount : nat;
  percentage : Js.JsNumber;
  rate : Js.JsNumber
}.

(** The body of the [for] loop. *)
Definition count (stats : Counts) (record : AttendanceRecord) : Counts :=
  match normalizeAttendanceStatus (att_status record) with
  | Null => stats
  | Canonical present =>
      mkCounts (S (c_total stats)) (S (c_present stats)) (c_late stats) (c_absent stats)
  | Canonical late =>
      mkCounts (S (c_total stats)) (c_present stats) (S (c_late stats)) (c_absent stats)
  | Canonical absent =>
      mkCounts (S (c_total stats)) (c_present stats) (c_late stats) (S (c_absent stats))
  | Member _ =>
      mkCounts (S (c_total stats)) (c_present stats) (c_late stats) (c_absent stats)
  end.

Definition ofNat (n : nat) : Q := inject_Z (Z.of_nat n).

(** The weighted score and the percentage with exact arithmetic; the
    counts are those of the code, the percentage is the one the code
    returns wherever the rounding of the machine does not decide
    ([Machine.calculateAttendanceStats] has the percentage of the
    machine). *)
Definition weightedScore (stats : Counts) : Q :=
  ofNat (c_present stats) * 1 + ofNat (c_late stats) * (75 # 100)
  + ofNat (c_absent stats) * 0.

Definition calculateAttendanceStats (records : list AttendanceRecord) : Stats :=
  match records with
  | [] => mkStats 0 0 0 0 (Js.Finite 0) (Js.Finite 0)
  | _ =>
      let stats := fold_left count records (mkCounts 0 0 0 0) in
      match c_total stats with
      | O =>
          mkStats (c_total stats) (c_present stats) (c_late stats)
            (c_absent stats) (Js.Finite 0) (Js.Finite 0)
      | S _ =>
          let percentage :=
            Js.round
              (Js.mulq (Js.div (weightedScore stats) (ofNat (c_total stats))) 100) in
          mkStats (c_total stats) (c_present stats) (c_late stats)
            (c_absent stats) percentage percentage
      end
  end.

End AttendanceUtils.

(** ** JSON values, as [JSON.parse] builds them *)

Module Json.

#[warnings="-register-all"]
Inductive Value : Type :=
  | Null
  | Bool (b : bool)
  | Number (q : Q)
  | Str (s : string)
  | Array (items : list Value)
  | Object (members : list (string * Value)).

(** The two services of the JavaScript engine that the roster parser
    calls: [JSON.parse] (which throws a SyntaxError on malformed text) and
    the decimal rendering of a number. *)
Record Engine : Type := mkEngine {
  parse : string -> Js.Completion Value;
  numberToString : Q -> string
}.

(** The template literal [`${value}`] on a parsed value.  An array joins
    its items with commas, [null] items giving the empty string.  A parsed
    object has no callable member of its own: with a member named
    [toString] the conversion finds nothing to call and throws a
    TypeError, otherwise [Object.prototype.toString] answers. *)
Fixpoint toString (e : Engine) (v : Value) : Js.Completion string :=
  match v with
  | Null => Js.Normal "null"
  | Bool true => Js.Normal "true"
  | Bool false => Js.Normal "false"
  | Number q => Js.Normal (numberToString e q)
  | Str s => Js.Normal s
  | Array items =>
      (fix join (l : list Value) : Js.Completion string :=
         match l with
         | [] => Js.Normal ""
         | x :: rest =>
             let item := match x with
                         | Null => Js.Normal ""
                         | _ => toString e x
                         end in
             match rest with
             | [] => item
             | _ => Js.bind item (fun a =>
                    Js.bind (join rest) (fun b => Js.Normal (a +:+ "," +:+ b)))
             end
         end) items
  | Object members =>
      if Js.has members "toString" then Js.Throw
      else Js.Normal "[object Object]"
  end.

End Json.

(** ** src/lib/rosterUtils.ts *)

Module RosterUtils.

(** The [map] and [filter] applied to an array of strings: trim each value
    and keep the non-empty ones. *)
Definition clean (values : list string) : list string :=
  filter (fun value => Js.truthy value = true) (map Js.trim values).

(** The character class of the [replace]: square brackets, braces and the
    double quote. *)
Definition noise (c : ascii) : bool :=
  let n := Js.code c in
  ((n =? 91) || (n =? 93) || (n =? 123) || (n =? 125) || (n =? 34))%N.

(** Delimiter parsing, the last statement of the string branch. *)
Definition splitIds (trimmed : string) : list string :=
  filter (fun value => Js.truthy value = true)
    (map (fun value => Js.trim (Js.removeAll noise value)) (Js.split "," trimmed)).

(** The body of the [try] block: [Some ids] when it reaches its [return],
    [None] when it runs to its end. *)
Definition tryParse (e : Json.Engine) (trimmed : string)
  : Js.Completion (option (list string)) :=
  Js.bind (Json.parse e trimmed) (fun parsed =>
    match parsed with
    | Json.Array items =>
        Js.bind (Js.mapM (Json.toString e) items) (fun strings =>
          Js.Normal (Some (clean strings)))
    | _ => Js.Normal None
    end).

(** The argument of [normalizeStudentIds] as the function meets it: an
    array, whose elements are values of any kind (the values that a row
    of the database can hold, which are those of JSON), a string, or
    anything else. *)
Inductive Input : Type :=
  | ArrayOf (values : list Json.Value)
  | TextOf (s : string)
  | Other.

(** The [studentIds] field of a course row of the type that [Course]
    declares, as an argument. *)
Definition ofField (field : RosterField) : Input :=
  match field with
  | IdArray ids => ArrayOf (map Json.Str ids)
  | IdText s => TextOf s
  | IdOther => Other
  end.

(** The array branch stands before the [try]: what the template literal
    throws on an element leaves the function.  In the string branch the
    [catch] takes what the parse and the conversion of the parsed items
    throw. *)
Definition normalizeStudentIds (e : Json.Engine) (input : Input)
  : Js.Completion (list string) :=
  match input with
  | ArrayOf values =>
      Js.bind (Js.mapM (Json.toString e) values) (fun strings =>
        Js.Normal (clean strings))
  | TextOf s =>
      let trimmed := Js.trim s in
      if negb (Js.truthy trimmed) then Js.Normal []
      else match tryParse e trimmed with
           | Js.Normal (Some ids) => Js.Normal ids
           | Js.Normal None | Js.Throw => Js.Normal (splitIds trimmed)
           end
  | Other => Js.Normal []
  end.

End RosterUtils.

(** ** src/lib/api.ts *)

Module Api.

(** The tables of the record store read by the batched lookups. *)
Record Tables : Type := mkTables {
  Students : list Student;
  Grades : list Grade
}.

(** [select('*').in('id', ids)]: the rows whose id is one of [ids]. *)
Definition getStudentsByIds (t : Tables) (ids : list string) : list Student :=
  match ids with
  | [] => []
  | _ => filter (fun s => Js.includes ids (student_id s) = true) (Students t)
  end.


End Api.

(** ** src/lib/store.ts *)

Module Store.

(** The three assignments of [payFee] on the record it found, with exact
    arithmetic: the arithmetic of the machine on amounts in whole units,
    whose sums and differences binary64 holds exactly. *)
Definition pay (fin : Finance) (amount : Q) : Finance :=
  let applied := Qmin amount (due fin) in
  let paid' := (paid fin + applied)%Q in
  mkFinance (fin_id fin) (fin_studentId fin) (totalFee fin) (scholarship fin)
    paid' (Qmax 0 (totalFee fin - scholarship fin - paid')%Q) (semester fin).

(** [store.finances.find(...)] followed by the update in place: the
    updated record and the updated list, or [None] when no record has
    that student id. *)
Fixpoint update (finances : list Finance) (studentId : string) (amount : Q)
  : option (Finance * list Finance) :=
  match finances with
  | [] => None
  | f :: rest =>
      if String.eqb (fin_studentId f) studentId
      then Some (pay f amount, pay f amount :: rest)
      else match update rest studentId amount with
           | Some (fin, rest') => Some (fin, f :: rest')
           | None => None
           end
  end.

(** [payFee]: the returned copy of the record together with
    [store.finances] after the call; throws when no record is found. *)
Definition payFee (finances : list Finance) (studentId : string) (amount : Q)
  : Js.Completion (Finance * list Finance) :=
  match update finances studentId amount with
  | Some result => Js.Normal result
  | None => Js.Throw
  end.

End Store.

(** ** AdminClasses: the grade table of the admin pages *)

Module AdminClasses.

Record Bucket : Type := mkBucket {
  b_total : Q;
  b_max : Q;
  b_courseName : string
}.

(** A [GradeRow]; of the [student] and [course] objects the row keeps the
    two ids that [key.split] yields and by which they are looked up. *)
Record GradeRow : Type := mkRow {
  row_id : string;
  row_studentId : string;
  row_courseId : string;
  cumulative : Js.JsNumber
}.

Definition key (grade : Grade) : string :=
  grade_studentId grade +:+ "|" +:+ grade_courseId grade.

(** The body of [normalizedGrades.forEach]. *)
Definition addGrade (aggregate : Js.Dict Bucket) (grade : Grade) : Js.Dict Bucket :=
  let key := key grade in
  let aggregate :=
    if Js.has aggregate key then aggregate
    else Js.set aggregate key (mkBucket 0 0 (grade_courseName grade)) in
  match Js.get aggregate key with
  | Some bucket =>
      Js.set aggregate key
        (mkBucket (b_total bucket + grade_score grade)%Q
                  (b_max bucket + grade_maxScore grade)%Q
                  (if negb (Js.truthy (b_courseName bucket))
                      && Js.truthy (grade_courseName grade)
                   then grade_courseName grade else b_courseName bucket))
  | None => aggregate
  end.

Definition aggregate (grades : list Grade) : Js.Dict Bucket :=
  fold_left addGrade grades [].

(** The cumulative percentage with exact sums and an exact quotient
    ([Machine.cumulativeOf] has the one of the machine). *)
Definition cumulativeOf (bucket : Bucket) : Js.JsNumber :=
  if Js.Qzero (b_max bucket) then Js.Finite 0
  else Js.round (Js.mulq (Js.div (b_total bucket) (b_max bucket)) 100).

(** The body of the [reduce] over [aggregate.entries()]. *)
Definition compile (entry : string * Bucket) : GradeRow :=
  let parts := Js.split "|" (fst entry) in
  mkRow (fst entry) (nth 0 parts "") (nth 1 parts "") (cumulativeOf (snd entry)).

Definition rows (grades : list Grade) : list GradeRow :=
  map compile (aggregate grades).

End AdminClasses.

(** ** The rate and the cumulative percentage in binary64

    [calculateAttendanceStats] and the grade table of AdminClasses once
    more, with the numbers and the operations of the machine.  The
    counters of the attendance loop are integers far below 2^53 and stay
    naturals.  A score is given by the rational it denotes, and enters
    the sums as the binary64 number nearest to it. *)

Module Machine.

Import Binary64.

Record Stats : Type := mkStats {
  total : nat;
  presentCount : nat;
  lateCount : nat;
  absentCount : nat;
  percentage : double;
  rate : double
}.

(** [stats.present * 1 + stats.late * 0.75 + stats.absent * 0]. *)
Definition weightedScore (stats : AttendanceUtils.Counts) : double :=
  add (add (mul (ofNat (AttendanceUtils.c_present stats)) (ofZ 1))
           (mul (ofNat (AttendanceUtils.c_late stats)) (ofQ (75 # 100))))
      (mul (ofNat (AttendanceUtils.c_absent stats)) (ofZ 0)).

(** [Math.round((weightedScore / stats.total) * 100)]. *)
Definition percentageOf (stats : AttendanceUtils.Counts) : double :=
  Math_round
    (mul (div (weightedScore stats) (ofNat (AttendanceUtils.c_total stats)))
         (ofZ 100)).

Definition calculateAttendanceStats (records : list AttendanceRecord) : Stats :=
  match records with
  | [] => mkStats 0 0 0 0 (ofZ 0) (ofZ 0)
  | _ =>
      let stats := fold_left AttendanceUtils.count records
                     (AttendanceUtils.mkCounts 0 0 0 0) in
      match AttendanceUtils.c_total stats with
      | O =>
          mkStats (AttendanceUtils.c_total stats) (AttendanceUtils.c_present stats)
            (AttendanceUtils.c_late stats) (AttendanceUtils.c_absent stats)
            (ofZ 0) (ofZ 0)
      | S _ =>
          let percentage := percentageOf stats in
          mkStats (AttendanceUtils.c_total stats) (AttendanceUtils.c_present stats)
            (AttendanceUtils.c_late stats) (AttendanceUtils.c_absent stats)
            percentage percentage
      end
  end.

Record Bucket : Type := mkBucket {
  b_total : double;
  b_max : double;
  b_courseName : string
}.

Record GradeRow : Type := mkRow {
  row_id : string;
  row_studentId : string;
  row_courseId : string;
  cumulative : double
}.

(** The body of [normalizedGrades.forEach]. *)
Definition addGrade (aggregate : Js.Dict Bucket) (grade : Grade) : Js.Dict Bucket :=
  let key := AdminClasses.key grade in
  let aggregate :=
    if Js.has aggregate key then aggregate
    else Js.set aggregate key (mkBucket (ofZ 0) (ofZ 0) (grade_courseName grade)) in
  match Js.get aggregate key with
  | Some bucket =>
      Js.set aggregate key
        (mkBucket (add (b_total bucket) (ofQ (grade_score grade)))
                  (add (b_max bucket) (ofQ (grade_maxScore grade)))
                  (if negb (Js.truthy (b_courseName bucket))
                      && Js.truthy (grade_courseName grade)
                   then grade_courseName grade else b_courseName bucket))
  | None => aggregate
  end.

Definition aggregate (grades : list Grade) : Js.Dict Bucket :=
  fold_left addGrade grades [].

(** [bucket.max ? Math.round((bucket.total / bucket.max) * 100) : 0]. *)
Definition cumulativeOf (bucket : Bucket) : double :=
  if truthy (b_max bucket)
  then Math_round (mul (div (b_total bucket) (b_max bucket)) (ofZ 100))
  else ofZ 0.

(** The body of the [reduce] over [aggregate.entries()], a [Map] whose
    entries come in the order in which their keys were first set. *)
Definition compile (entry : string * Bucket) : GradeRow :=
  let parts := Js.split "|" (fst entry) in
  mkRow (fst entry) (nth 0 parts "") (nth 1 parts "") (cumulativeOf (snd entry)).

Definition rows (grades : list Grade) : list GradeRow :=
  map compile (aggregate grades).

End Machine.

(** ** pages/StudentResults.tsx *)

Module StudentResults.

Definition averageScore (grades : list Grade) : Js.JsNumber :=
  match grades with
  | [] => Js.Finite 0
  | _ =>
      let total :=
        fold_left
          (fun sum grade =>
             Js.add sum (Js.mulq (Js.div (grade_score grade) (grade_maxScore grade)) 100))
          grades (Js.Finite 0) in
      Js.divq total (inject_Z (Z.of_nat (length grades)))
  end.

End StudentResults.

(** ** Steps shared by the teacher pages *)

Module Roster.

Definition byId (students : list Student) : list (string * Student) :=
  map (fun student => (student_id student, student)) students.

(** [ids.map((id) => lookup.get(id)).filter(Boolean)]. *)
Definition resolve (lookup : Js.Dict Student) (ids : list string) : list Student :=
  omap (Js.get lookup) ids.

(** [Array.from(new Map(rosters.flat().map((s) => [s.id, s])).values())]. *)
Definition flatten (rosterMap : Js.Dict (list Student)) : list Student :=
  Js.values (Js.MapOf (byId (concat (Js.values rosterMap)))).

Definition known (students : list Student) (id : string) : bool :=
  existsb (fun student => String.eqb (student_id student) id) students.

(** The ids without a profile among [students], and their batched fetch. *)
Definition fetchMissing (t : Api.Tables) (students : list Student)
    (ids : list string) : list Student :=
  let missing := filter (fun id => known students id = false) ids in
  match missing with
  | [] => []
  | _ => Api.getStudentsByIds t missing
  end.

(** [{ ...course, studentIds: normalizeStudentIds(course.studentIds) }]. *)
Definition normalizeCourse (e : Json.Engine) (course : Course RosterField)
  : Js.Completion (Course (list string)) :=
  Js.bind (RosterUtils.normalizeStudentIds e
             (RosterUtils.ofField (course_studentIds course)))
    (fun ids =>
       Js.Normal (mkCourse (course_id course) (course_name course)
                    (course_code course) (course_teacherId course)
                    (course_teacherName course) ids)).

End Roster.

(** ** pages/TeacherAttendance.tsx *)

Module TeacherAttendance.

Record State : Type := mkState {
  courses : list (Course (list string));
  courseRosters : Js.Dict (list Student);
  students : list Student;
  records : list AttendanceRecord
}.

(** The state before the first load, and after a load that finds no user,
    no course of the teacher, or fails. *)
Definition cleared : State := mkState [] [] [] [].

Definition hasCourseId (record : AttendanceRecord) : option string :=
  match att_courseId record with
  | Some id => if Js.truthy id then Some id else None
  | None => None
  end.

(** The predicate of the [relevantRecords] filter. *)
Definition relevant (teacherCourses : list (Course (list string)))
    (record : AttendanceRecord) : bool :=
  match hasCourseId record with
  | Some id => existsb (fun course => String.eqb (course_id course) id) teacherCourses
  | None => Js.includes (Js.SetOf (map course_name teacherCourses)) (att_courseName record)
  end.

Definition seed (teacherCourses : list (Course (list string))) : Js.Dict (list string) :=
  fold_left (fun entries course => Js.set entries (course_id course) (course_studentIds course))
    teacherCourses [].

Definition courseIdFromRecord (teacherCourses : list (Course (list string)))
    (rosterEntries : Js.Dict (list string)) (record : AttendanceRecord) : option string :=
  let byName :=
    option_map course_id
      (find (fun course => String.eqb (course_name course) (att_courseName record))
         teacherCourses) in
  match hasCourseId record with
  | Some id => if Js.has rosterEntries id then Some id else byName
  | None => byName
  end.

(** The body of [relevantRecords.forEach]. *)
Definition addRecord (teacherCourses : list (Course (list string)))
    (rosterEntries : Js.Dict (list string)) (record : AttendanceRecord)
  : Js.Dict (list string) :=
  match courseIdFromRecord teacherCourses rosterEntries record with
  | None => rosterEntries
  | Some id =>
      if negb (Js.truthy id) then rosterEntries
      else
        let rosterEntries :=
          if Js.has rosterEntries id then rosterEntries
          else Js.set rosterEntries id [] in
        match Js.get rosterEntries id with
        | Some ids =>
            if Js.includes ids (att_studentId record) then rosterEntries
            else Js.set rosterEntries id (ids ++ [att_studentId record])
        | None => rosterEntries
        end
  end.

Definition rosterEntries (teacherCourses : list (Course (list string)))
    (relevantRecords : list AttendanceRecord) : Js.Dict (list string) :=
  fold_left (addRecord teacherCourses) relevantRecords (seed teacherCourses).

Definition nonEmpty (ids : list string) : list string :=
  filter (fun id => Js.truthy id = true) ids.

Definition lookupOf (t : Api.Tables) (initialStudents : list Student)
    (entries : Js.Dict (list string)) : Js.Dict Student :=
  let rosterStudentIds := Js.SetOf (nonEmpty (concat (Js.values entries))) in
  let fetchedStudents := Roster.fetchMissing t initialStudents rosterStudentIds in
  let combinedStudents :=
    Js.values (Js.MapOf (Roster.byId (initialStudents ++ fetchedStudents))) in
  Js.MapOf (Roster.byId combinedStudents).

Definition rosterOf (lookup : Js.Dict Student) (ids : list string) : list Student :=
  Roster.resolve lookup (Js.SetOf (nonEmpty ids)).

(** The part of [loadAttendanceData] inside [try], after the fetches. *)
Definition load (e : Json.Engine) (t : Api.Tables) (userId : string)
    (allCourses : list (Course RosterField)) (initialStudents : list Student)
    (attendanceRecords : list AttendanceRecord) : Js.Completion State :=
  Js.bind (Js.mapM (Roster.normalizeCourse e) allCourses) (fun normalizedCourses =>
    let teacherCourses :=
      filter (fun course => course_teacherId course = userId) normalizedCourses in
    match teacherCourses with
    | [] => Js.Normal cleared
    | _ =>
        let relevantRecords :=
          filter (fun record => relevant teacherCourses record = true) attendanceRecords in
        let entries := rosterEntries teacherCourses relevantRecords in
        let lookup := lookupOf t initialStudents entries in
        let rosterMap := Js.mapEntries (rosterOf lookup) entries in
        Js.Normal (mkState teacherCourses rosterMap (Roster.flatten rosterMap)
                     relevantRecords)
    end).

Definition loadAttendanceData (e : Json.Engine) (t : Api.Tables)
    (userId : option string) (allCourses : list (Course RosterField))
    (initialStudents : list Student) (attendanceRecords : list AttendanceRecord)
  : State :=
  match userId with
  | None => cleared
  | Some id =>
      if negb (Js.truthy id) then cleared
      else match load e t id allCourses initialStudents attendanceRecords with
           | Js.Normal state => state
           | Js.Throw => cleared
           end
  end.

End TeacherAttendance.

(** ** TeacherStudents: the student list of the teacher pages *)

Module TeacherStudents.

Record Totals : Type := mkTotals {
  sum : Js.JsNumber;
  count : nat
}.

(** The state set by [loadData].  [courses] is left out: [setCourses]
    receives the course objects whose [studentIds] arrays the roster loop
    goes on to extend. *)
Record State : Type := mkState {
  courseRosters : Js.Dict (list Student);
  students : list Student;
  courseAverages : Js.Dict (Js.Dict Js.JsNumber)
}.

Definition cleared : State := mkState [] [] [].



Definition seed (courses : list (Course (list string))) : Js.Dict (list string) :=
  fold_left (fun entries course => Js.set entries (course_id course) (course_studentIds course))
    courses [].

Definition percent (grade : Grade) : Js.JsNumber :=
  if Js.Qzero (grade_maxScore grade) then Js.Finite (grade_score grade)
  else Js.mulq (Js.div (grade_score grade) (grade_maxScore grade)) 100.

Definition addRoster (rosterEntries : Js.Dict (list string)) (grade : Grade)
  : Js.Dict (list string) :=
  let id := grade_courseId grade in
  let rosterEntries :=
    if Js.has rosterEntries id then rosterEntries else Js.set rosterEntries id [] in
  match Js.get rosterEntries id with
  | Some ids =>
      if Js.includes ids (grade_studentId grade) then rosterEntries
      else Js.set rosterEntries id (ids ++ [grade_studentId grade])
  | None => rosterEntries
  end.

Definition addTotals (gradeTotals : Js.Dict (Js.Dict Totals)) (grade : Grade)
  : Js.Dict (Js.Dict Totals) :=
  let sid := grade_studentId grade in
  let cid := grade_courseId grade in
  let gradeTotals :=
    if Js.has gradeTotals sid then gradeTotals else Js.set gradeTotals sid [] in
  match Js.get gradeTotals sid with
  | Some courseStats =>
      let courseStats :=
        if Js.has courseStats cid then courseStats
        else Js.set courseStats cid (mkTotals (Js.Finite 0) 0) in
      match Js.get courseStats cid with
      | Some stats =>
          Js.set gradeTotals sid
            (Js.set courseStats cid
               (mkTotals (Js.add (sum stats) (percent grade)) (count stats + 1)))
      | None => gradeTotals
      end
  | None => gradeTotals
  end.

(** The body of [teacherGrades.forEach]. *)
Definition addGrade (acc : Js.Dict (list string) * Js.Dict (Js.Dict Totals))
    (grade : Grade) : Js.Dict (list string) * Js.Dict (Js.Dict Totals) :=
  if negb (Js.truthy (grade_courseId grade)) || negb (Js.truthy (grade_studentId grade))
  then acc
  else (addRoster (fst acc) grade, addTotals (snd acc) grade).





End TeacherStudents.

(** ** pages/AdminDashboard.tsx *)

Module AdminDashboard.

Record Department : Type := mkDepartment {
  dep_students : list string;
  dep_teachers : list string;
  dep_courses : nat
}.

Definition dept (course : Course (option (list string))) : string :=
  Js.slice0 2 (course_code course).

(** The body of the [reduce] that builds [departments]. *)
Definition addCourse (acc : Js.Dict Department) (course : Course (option (list string)))
  : Js.Dict Department :=
  let dept := dept course in
  let acc :=
    if Js.has acc dept then acc else Js.set acc dept (mkDepartment [] [] 0) in
  match Js.get acc dept with
  | Some data =>
      let ids := match course_studentIds course with
                 | Some ids => ids
                 | None => []
                 end in
      Js.set acc dept
        (mkDepartment (fold_left Js.SetAdd ids (dep_students data))
           (Js.SetAdd (dep_teachers data) (course_teacherId course))
           (dep_courses data + 1))
  | None => acc
  end.

Definition departments (courses : list (Course (option (list string))))
  : Js.Dict Department :=
  fold_left addCourse courses [].

End AdminDashboard.

(** ** pages/AdminReports.tsx *)

Module AdminReports.

(** The match of [.*] : the characters up to the next line terminator are
    consumed, the rest of the string stays. *)
Fixpoint afterLine (s : string) : string :=
  match s with
  | String c s' => if Js.isLineTerminator c then s else afterLine s'
  | EmptyString => EmptyString
  end.

(** [code.replace(/[^A-Za-z].*/, '')]: the first character that is not a
    letter is removed together with the rest of its line. *)
Fixpoint stripFromNonLetter (s : string) : string :=
  match s with
  | String c s' =>
      if Js.isLetterAZ c then String c (stripFromNonLetter s') else afterLine s'
  | EmptyString => EmptyString
  end.

Definition dept (course : Course (list string)) : string :=
  let letters := stripFromNonLetter (course_code course) in
  Js.toUpperCase (if Js.truthy letters then letters else "GEN").

Record Entry : Type := mkEntry {
  entry_studentIds : list string;
  entry_attendanceRecords : list AttendanceRecord
}.

(** The body of [courses.forEach] that fills [deptMap]. *)
Definition addCourse (attendance : list AttendanceRecord) (deptMap : Js.Dict Entry)
    (course : Course (list string)) : Js.Dict Entry :=
  let dept := dept course in
  let deptMap :=
    if Js.has deptMap dept then deptMap else Js.set deptMap dept (mkEntry [] []) in
  match Js.get deptMap dept with
  | Some entry =>
      Js.set deptMap dept
        (mkEntry (fold_left Js.SetAdd (course_studentIds course) (entry_studentIds entry))
           (entry_attendanceRecords entry ++
            filter (fun record => att_courseName record = course_name course) attendance))
  | None => deptMap
  end.

Definition deptMap (courses : list (Course (list string)))
    (attendance : list AttendanceRecord) : Js.Dict Entry :=
  fold_left (addCourse attendance) courses [].

End AdminReports.

(** ** Vocabulary of the statements *)

Module Attendance.

Import AttendanceUtils.

(** The loop counts a record when [normalizeAttendanceStatus] hands back
    anything but [null]: a canonical status, or the value of a member that
    [STATUS_MAP] inherits. *)
Definition counted (record : AttendanceRecord) : bool :=
  match normalizeAttendanceStatus (att_status record) with
  | Null => false
  | _ => true
  end.

(** The status of a record normalizes successfully when it normalizes to
    one of the three canonical statuses. *)
Definition recognized (record : AttendanceRecord) : bool :=
  match normalizeAttendanceStatus (att_status record) with
  | Canonical _ => true
  | _ => false
  end.

(** The status of a record reads a member that [STATUS_MAP] inherits. *)
Definition inherited (record : AttendanceRecord) : bool :=
  match normalizeAttendanceStatus (att_status record) with
  | Member _ => true
  | _ => false
  end.

Definition normalizesTo (s : Status) (record : AttendanceRecord) : bool :=
  match normalizeAttendanceStatus (att_status record) with
  | Canonical s' =>
      match s, s' with
      | present, present | late, late | absent, absent => true
      | _, _ => false
      end
  | _ => false
  end.




(** The number of records that satisfy [P]. *)
Definition tally (P : AttendanceRecord -> bool) (records : list AttendanceRecord) : nat :=
  length (List.filter P records).

(** An attendance record that carries nothing but a status. *)
Definition marked (status : string) : AttendanceRecord :=
  mkAttendance "" "" None "" "" (Text status).

(** Whether a string holds one of the capitals A-Z. *)
Definition hasUpper (s : string) : bool :=
  existsb Js.isUpperAZ (list_ascii_of_string s).

End Attendance.

Module GradeSums.













End GradeSums.

Module Departments.

(** The bucket key in the words of the specification: the first two
    characters of the course code, upper-cased. *)
Definition claimedKey (code : string) : string :=
  Js.toUpperCase (Js.slice0 2 code).

(** Two codes differ only in letter case when their lower-case forms
    coincide. *)
Definition sameUpToCase (code1 code2 : string) : Prop :=
  Js.toLowerCase code1 = Js.toLowerCase code2.

(** The letters with which a code begins: its characters up to the first
    one that is not a letter A-Z or a-z. *)
Fixpoint leadingLetters (s : string) : string :=
  match s with
  | String c s' => if Js.isLetterAZ c then String c (leadingLetters s') else EmptyString
  | EmptyString => EmptyString
  end.

(** Whether a string consists of letters, and whether it holds a line
    terminator. *)
Definition allLetters (s : string) : bool :=
  forallb Js.isLetterAZ (list_ascii_of_string s).

Definition multiline (s : string) : bool :=
  existsb Js.isLineTerminator (list_ascii_of_string s).

(** The end of a line: the end of the string, or a line terminator. *)
Definition atLineEnd (s : string) : bool :=
  match s with
  | String c _ => Js.isLineTerminator c
  | EmptyString => true
  end.

(** A code of two lines: CS1, line feed, ab. *)
Definition twoLines : string :=
  String "C" (String "S" (String "1" (String (ascii_of_nat 10) (String "a" (String "b" EmptyString))))).

(** A course that carries nothing but a code and a roster. *)
Definition coded {R} (code : string) (roster : R) : Course R :=
  mkCourse "" "" code "" "" roster.

End Departments.

Module Reconciliation.

Import TeacherAttendance.

Definition named (name : string) (course : Course (list string)) : bool :=
  String.eqb (course_name course) name.

(** The course to which the attendance page assigns a record: a record
    that carries a course id goes to the course with that id and to no
    other; a record without one goes to the first course that has its
    course name. *)
Definition assigned (teacherCourses : list (Course (list string)))
    (record : AttendanceRecord) : option string :=
  match hasCourseId record with
  | Some id =>
      if Js.includes (map course_id teacherCourses) id then Some id else None
  | None =>
      match find (named (att_courseName record)) teacherCourses with
      | Some course =>
          if Js.truthy (course_id course) then Some (course_id course) else None
      | None => None
      end
  end.

(** The ids gathered for the course [k] from the records assigned to it. *)
Definition collect (teacherCourses : list (Course (list string))) (k : string)
    (records : list AttendanceRecord) (ids : list string) : list string :=
  fold_left
    (fun ids record =>
       if decide (assigned teacherCourses record = Some k)
       then Js.SetAdd ids (att_studentId record) else ids)
    records ids.

(** The course a record refers to in the words of the specification: the
    course with the id of the record and, when there is none, the first
    course with the course name of the record. *)
Definition resolved (courses : list (Course (list string)))
    (record : AttendanceRecord) : option string :=
  let direct :=
    match att_courseId record with
    | Some id => find (fun course => String.eqb (course_id course) id) courses
    | None => None
    end in
  match direct with
  | Some course => Some (course_id course)
  | None => option_map course_id (find (named (att_courseName record)) courses)
  end.

(** The claim that the rosters follow that resolution: a student with a
    known profile whose record resolves to a course is in the roster of
    that course. *)
Definition rostersFollowResolution (state : State) (students : list Student)
    (attendance : list AttendanceRecord) : Prop :=
  forall course record student,
    course ∈ courses state -> record ∈ attendance ->
    resolved (courses state) record = Some (course_id course) ->
    student ∈ students -> student_id student = att_studentId record ->
    exists roster,
      Js.get (courseRosters state) (course_id course) = Some roster /\
      student ∈ roster.

(** The keys of the roster object are the ids of the teacher's courses. *)
Definition covers (teacherCourses : list (Course (list string)))
    (entries : Js.Dict (list string)) : Prop :=
  forall k, Js.has entries k = true <-> k ∈ map course_id teacherCourses.

End Reconciliation.

Module TeacherRosters.



End TeacherRosters.

Module Averages.


End Averages.

Module Examples.

(** A grade that carries nothing but a score and a maximum. *)
Definition graded (score maxScore : Q) : Grade :=
  mkGrade "" "" "" "" "" score maxScore.



(** An engine whose parser answers every text with one fixed array, and
    one whose parser rejects every text. *)
Definition fixedEngine : Json.Engine :=
  Json.mkEngine
    (fun _ => Js.Normal (Json.Array [Json.Str " s1 "; Json.Str ""; Json.Bool true; Json.Str "s1"]))
    (fun _ => "0").

Definition rejectingEngine : Json.Engine :=
  Json.mkEngine (fun _ => Js.Throw) (fun _ => "0").

Definition pupil (id name : string) : Student := mkStudent id name "" "" 0 0.

Definition courseC1 : Course RosterField :=
  mkCourse "C1" "Algebra" "MA101" "t1" "Noether" (IdArray ["s1"]).

Definition noTables : Api.Tables := Api.mkTables [] [].

(** A record that names the course C1 by its id, and one that carries the
    id of no course but the name of C1. *)
Definition recordById : AttendanceRecord :=
  mkAttendance "a1" "s2" (Some "C1") "" "2024-01-10" (Text "present").

Definition recordByName : AttendanceRecord :=
  mkAttendance "a2" "s2" (Some "C9") "Algebra" "2024-01-10" (Text "present").

(** The attendance page of teacher t1 after a load with each of the two
    records. *)
Definition stateById : TeacherAttendance.State :=
  TeacherAttendance.loadAttendanceData rejectingEngine noTables (Some "t1") [courseC1]
    [pupil "s1" "Ada"; pupil "s2" "Emmy"] [recordById].

Definition stateByName : TeacherAttendance.State :=
  TeacherAttendance.loadAttendanceData rejectingEngine noTables (Some "t1") [courseC1]
    [pupil "s1" "Ada"; pupil "s2" "Emmy"] [recordByName].

End Examples.

(** ** src/lib/attendanceUtils.ts, continued *)

Module AttendanceGrouping.

(** The body of [records.forEach] in [groupAttendanceByCourse]: a record
    without a course name is passed over; a new name gets an empty array
    first; the record is pushed on the array under its name.  Under a name
    that the object inherits, the value found is not an array and the
    call of [push] throws a TypeError. *)
Definition push (grouped : Js.Dict (list AttendanceRecord)) (rec : AttendanceRecord)
  : Js.Completion (Js.Dict (list AttendanceRecord)) :=
  let name := att_courseName rec in
  if negb (Js.truthy name) then Js.Normal grouped
  else match Js.read grouped name with
       | Js.Own records => Js.Normal (Js.set grouped name (records ++ [rec]))
       | Js.Undefined => Js.Normal (Js.set grouped name ([] ++ [rec]))
       | Js.Inherited _ => Js.Throw
       end.

Definition groupAttendanceByCourse (records : list AttendanceRecord)
  : Js.Completion (Js.Dict (list AttendanceRecord)) :=
  fold_left (fun grouped rec => Js.bind grouped (fun g => push g rec))
    records (Js.Normal []).

Definition calculateStudentAttendance (records : list AttendanceRecord) : Js.JsNumber :=
  AttendanceUtils.percentage (AttendanceUtils.calculateAttendanceStats records).

(** The records filed under the course name [k]. *)
Definition named (k : string) (records : list AttendanceRecord) : list AttendanceRecord :=
  filter (fun rec => att_courseName rec = k) records.

(** Whether a course name is the name of a member of [Object.prototype]. *)
Definition inherited (rec : AttendanceRecord) : bool :=
  Js.includes Js.Object_prototype (att_courseName rec).

End AttendanceGrouping.

(** ** String search *)

Module Text.

(** [s.includes(term)]: [term] occurs in [s] at some position. *)
Fixpoint includes (s term : string) : bool :=
  String.prefix term s
  || match s with
     | EmptyString => false
     | String _ s' => includes s' term
     end.

(** Whether some character of [s] satisfies [P]. *)
Fixpoint any (P : ascii -> bool) (s : string) : bool :=
  match s with
  | EmptyString => false
  | String c s' => P c || any P s'
  end.

(** A string that does not begin with white space. *)
Definition startsClean (s : string) : bool :=
  match s with
  | EmptyString => true
  | String c _ => negb (Js.isWhitespace c)
  end.

(** The comma, and the characters that delimiter parsing removes. *)
Definition separator (c : ascii) : bool :=
  Ascii.eqb c "," || RosterUtils.noise c.

End Text.

(** ** src/pages/StudentFinance.tsx *)

Module StudentFinance.

Inductive Mode : Type := custom | full.

(** [Math.max(0, Math.min(x, maxPayable))] for the number [x] read from
    the prompt: [None] stands for NaN; an infinite [x] is cut to
    [maxPayable] or raised to 0. *)
Definition clamp (x : Js.JsNumber) (maxPayable : Q) : option Q :=
  match x with
  | Js.Finite a => Some (Qmax 0 (Qmin a maxPayable))
  | Js.Infinity => Some (Qmax 0 maxPayable)
  | Js.NegInfinity => Some 0%Q
  | Js.NaN => None
  end.

(** The amount of [handlePayment]; [input] is the value of
    [Number(input || 0)]. *)
Definition amountOf (mode : Mode) (finance : Finance) (input : Js.JsNumber) : option Q :=
  match mode with
  | full => Some (totalFee finance - scholarship finance - paid finance)%Q
  | custom =>
      let maxPayable := (totalFee finance - scholarship finance - paid finance)%Q in
      clamp input maxPayable
  end.

Inductive Outcome : Type :=
  | NoRecord                (* 'No finance record found' *)
  | Busy                    (* a payment is under way *)
  | Invalid                 (* 'Please enter a valid amount' *)
  | Failed                  (* [payFee] threw *)
  | Paid (fin : Finance) (finances : list Finance).

(** [handlePayment] over the page's record, the [paying] flag and the
    finance records of the store. *)
Definition handlePayment (finance : option Finance) (paying : bool) (mode : Mode)
    (input : Js.JsNumber) (finances : list Finance) : Outcome :=
  match finance with
  | None => NoRecord
  | Some finance =>
      if paying then Busy
      else match amountOf mode finance input with
           | None => Invalid
           | Some amount =>
               if Js.Qzero amount then Invalid
               else match Store.payFee finances (fin_studentId finance) amount with
                    | Js.Normal (fin, finances') => Paid fin finances'
                    | Js.Throw => Failed
                    end
           end
  end.

(** The record of the store that [payFee] finds for a student. *)
Definition stored (finances : list Finance) (studentId : string) : option Finance :=
  List.find (fun f => String.eqb (fin_studentId f) studentId) finances.

(** The invariant between the balance and the other amounts. *)
Definition settled (fin : Finance) : Prop :=
  (due fin == Qmax 0 (totalFee fin - scholarship fin - paid fin))%Q.

(** An amount in whole currency units, below 2^50 in magnitude.  The
    sums and differences that a payment forms of such amounts are
    integers below 2^53 in magnitude, which binary64 holds exactly: on
    them the arithmetic of the machine is the exact one. *)
Definition whole (q : Q) : Prop :=
  exists z : Z, (q == inject_Z z)%Q /\ (Z.abs z <= 2 ^ 50)%Z.

Definition wholeRecord (fin : Finance) : Prop :=
  whole (totalFee fin) /\ whole (scholarship fin) /\ whole (paid fin) /\ whole (due fin).

(** The number read from the prompt is whole when it is finite. *)
Definition wholeInput (input : Js.JsNumber) : Prop :=
  match input with
  | Js.Finite a => whole a
  | _ => True
  end.

End StudentFinance.

(** ** src/pages/Attendance.tsx, AdminFinance *)

Module AdminFinance.

Record FinanceRow : Type := mkRow {
  row_id : string;
  row_name : string;
  row_email : string;
  row_total : Q;
  row_paid : Q;
  row_scholarship : Q;
  balance : Q
}.

(** The row of one finance record.  Without a profile the source shows a
    dash (U+2014) for the e-mail address; the 8-bit strings of this model
    do not hold it and a hyphen stands for it. *)
Definition toRow (studentMap : Js.Dict Student) (fin : Finance) : FinanceRow :=
  let student := Js.get studentMap (fin_studentId fin) in
  let netDue := Qmax 0 (totalFee fin - scholarship fin - paid fin)%Q in
  mkRow (fin_id fin)
    (match student with Some s => student_name s | None => "Unknown Student" end)
    (match student with Some s => student_email s | None => "-" end)
    (totalFee fin) (paid fin) (scholarship fin) netDue.

(** [loadFinances] over the finance rows and the student table. *)
Definition loadFinances (t : Api.Tables) (finances : list Finance) : list FinanceRow :=
  let studentIds := List.filter Js.truthy (map fin_studentId finances) in
  let students := Api.getStudentsByIds t studentIds in
  let studentMap := Js.MapOf (Roster.byId students) in
  map (toRow studentMap) finances.

Inductive BalanceFilter : Type := all | owing | cleared.

(** [row.balance >= minBalanceValue]. *)
Definition atLeast (x : Q) (bound : Js.JsNumber) : bool :=
  match bound with
  | Js.Finite v => Qle_bool v x
  | Js.NegInfinity => true
  | Js.Infinity | Js.NaN => false
  end.

(** The callback of [rows.filter]; [minBalance] is [None] for the empty
    text and the value of [Number(minBalance)] otherwise.  The filter
    values 'due' and 'settled' are [owing] and [cleared]. *)
Definition matches (searchTerm : string) (balanceFilter : BalanceFilter)
    (minBalance : option Js.JsNumber) (row : FinanceRow) : bool :=
  let matchesSearch :=
    negb (Js.truthy searchTerm)
    || Text.includes (Js.toLowerCase (row_name row)) (Js.toLowerCase searchTerm)
    || Text.includes (Js.toLowerCase (row_email row)) (Js.toLowerCase searchTerm) in
  let matchesBalanceFilter :=
    match balanceFilter with
    | all => true
    | owing => Js.Qpos (balance row)
    | cleared => Js.Qzero (balance row)
    end in
  let matchesMinBalance :=
    match minBalance with
    | None | Some Js.NaN => true
    | Some bound => atLeast (balance row) bound
    end in
  matchesSearch && matchesBalanceFilter && matchesMinBalance.

Definition filteredRows (rows : list FinanceRow) (searchTerm : string)
    (balanceFilter : BalanceFilter) (minBalance : option Js.JsNumber) : list FinanceRow :=
  List.filter (matches searchTerm balanceFilter minBalance) rows.

Record Totals : Type := mkTotals {
  t_totalFee : Q;
  t_scholarship : Q;
  t_paid : Q;
  t_balance : Q
}.

Definition totals (filtered : list FinanceRow) : Totals :=
  fold_left
    (fun acc row =>
       mkTotals (t_totalFee acc + row_total row) (t_scholarship acc + row_scholarship row)
         (t_paid acc + row_paid row) (t_balance acc + balance row))%Q
    filtered (mkTotals 0 0 0 0).

End AdminFinance.

(** ** Pages of a table

    The tables of AdminClasses (unnamed/part_004), AdminCourses
    (src/pages/AdminReports.tsx) and AdminFinance (src/pages/Attendance.tsx)
    are cut into pages by the same three lines, with a [pageSize] of 20, 9
    and 12. *)

Module Pagination.

(** [l.slice(from, to)] for indices that are not negative. *)
Definition slice {A} (from to : nat) (l : list A) : list A :=
  take (to - from) (drop from l).

(** [Math.max(1, Math.ceil(n / pageSize))] for the length [n]. *)
Definition totalPages (pageSize n : nat) : nat :=
  Z.to_nat (Z.max 1 (Qceiling (inject_Z (Z.of_nat n) / inject_Z (Z.of_nat pageSize)))).

(** [Math.min(page, totalPages - 1)]. *)
Definition currentPage (pageSize n page : nat) : nat :=
  Nat.min page (totalPages pageSize n - 1).

Definition pageRows {A} (pageSize : nat) (rows : list A) (page : nat) : list A :=
  let currentPage := currentPage pageSize (length rows) page in
  slice (currentPage * pageSize) (currentPage * pageSize + pageSize) rows.

(** The two numbers of the caption Showing first-last of n. *)
Definition firstShown (pageSize n page : nat) : nat :=
  if Nat.eqb n 0 then 0 else currentPage pageSize n page * pageSize + 1.

Definition lastShown (pageSize n page : nat) : nat :=
  Nat.min ((currentPage pageSize n page + 1) * pageSize) n.

(** The handlers of the Previous and Next buttons. *)
Definition previous (prev : nat) : nat := Nat.max 0 (prev - 1).

Definition next (pageSize n prev : nat) : nat :=
  Nat.min (totalPages pageSize n - 1) (prev + 1).

End Pagination.

(** ** Comparisons of numbers *)

Module Num.

(** [x >= k] and [x < k] for a finite [k]; both are false on NaN. *)
Definition ge (x : Js.JsNumber) (k : Q) : bool :=
  match x with
  | Js.Finite q => Qle_bool k q
  | Js.Infinity => true
  | Js.NegInfinity | Js.NaN => false
  end.

Definition lt (x : Js.JsNumber) (k : Q) : bool :=
  match x with
  | Js.Finite q => negb (Qle_bool k q)
  | Js.NegInfinity => true
  | Js.Infinity | Js.NaN => false
  end.

End Num.

(** ** unnamed/part_004, AdminClasses: the filter by grade and the cards *)

Module AdminClassesView.

Import AdminClasses.

(** The values 'all', '90', '80', '70' and 'below' of [gradeFilter]. *)
Inductive GradeFilter : Type := all | from90 | from80 | from70 | below.

Definition matchesGrade (gradeFilter : GradeFilter) (cumulative : Js.JsNumber) : bool :=
  match gradeFilter with
  | all => true
  | from90 => Num.ge cumulative 90
  | from80 => Num.ge cumulative 80 && Num.lt cumulative 90
  | from70 => Num.ge cumulative 70 && Num.lt cumulative 80
  | below => Num.lt cumulative 70
  end.

(** The label of [getTheme]. *)
Inductive Label : Type := Excellent | Strong | Watchlist | AtRisk.

Definition getTheme (score : Js.JsNumber) : Label :=
  if Num.ge score 90 then Excellent
  else if Num.ge score 80 then Strong
  else if Num.ge score 70 then Watchlist
  else AtRisk.


(** The filter value that selects the cards of a label. *)
Definition bandOf (label : Label) : GradeFilter :=
  match label with
  | Excellent => from90
  | Strong => from80
  | Watchlist => from70
  | AtRisk => below
  end.


(** A number that is a whole number from 0 to 100. *)
Definition percentage (x : Js.JsNumber) : Prop :=
  exists n : Z, x = Js.Finite (inject_Z n) /\ (0 <= n <= 100)%Z.

End AdminClassesView.

(** ** Departments: what the two reductions gather *)

Module DepartmentGroups.


Definition reportsGroup (courses : list (Course (list string))) (k : string)
  : list (Course (list string)) :=
  filter (fun course => AdminReports.dept course = k) courses.


(** The sum of the course counts of all departments. *)
Definition courseCount (departments : Js.Dict AdminDashboard.Department) : nat :=
  fold_right (fun department n => (AdminDashboard.dep_courses department + n)%nat) 0%nat
    (Js.values departments).

(** The attendance records that bear the name of a course. *)
Definition recordsOf (attendance : list AttendanceRecord) (course : Course (list string))
  : list AttendanceRecord :=
  filter (fun record => att_courseName record = course_name course) attendance.

End DepartmentGroups.

(** ** src/pages/TeacherAttendance.tsx: the form *)

Module AttendancePage.

Import TeacherAttendance.

(** [AttendanceForm]; the empty status of the form is [None]. *)
Record AttendanceForm : Type := mkForm {
  form_courseId : string;
  form_studentId : string;
  form_status : option Status;
  form_date : string;
  form_notes : string
}.

(** [new Map(courses.map((c) => [c.id, c]))]. *)
Definition courseMap (courses : list (Course (list string)))
  : Js.Dict (Course (list string)) :=
  Js.MapOf (map (fun c => (course_id c, c)) courses).

(** [students.forEach((s) => map.set(s.id, s))]. *)
Definition studentMap (students : list Student) : Js.Dict Student :=
  fold_left (fun m s => Js.set m (student_id s) s) students [].

(** The [roster] memo: the students offered for the selected course,
    with the selected student put in front when the list lacks them. *)
Definition roster (state : State) (form : AttendanceForm) : list Student :=
  if negb (Js.truthy (form_courseId form)) then []
  else
    let list := default [] (Js.get (courseRosters state) (form_courseId form)) in
    if Js.truthy (form_studentId form)
       && negb (existsb (fun student => String.eqb (student_id student) (form_studentId form))
                  list)
    then match Js.get (studentMap (students state)) (form_studentId form) with
         | Some extra => extra :: list
         | None => list
         end
    else list.

(** The predicate of the filter of [recentRecords]. *)
Definition shown (courses : list (Course (list string))) (record : AttendanceRecord) : bool :=
  existsb
    (fun course =>
       match att_courseId record with
       | Some id => String.eqb (course_id course) id
       | None => false
       end
       || String.eqb (course_name course) (att_courseName record))
    courses.

Definition statusText (status : Status) : string :=
  match status with
  | present => "present"
  | late => "late"
  | absent => "absent"
  end.

Inductive Submission : Type :=
  | Incomplete              (* 'Please complete the form.' *)
  | CourseNotFound          (* 'Course not found' *)
  | Saved (record : AttendanceRecord).

(** [handleSubmit] up to the call that stores the record; [id] is the id
    under which it is stored, that of the record being edited or a new
    one.  The [lessonId] of the record, the course id and the date joined
    by a hyphen, is not among the fields of [AttendanceRecord] here. *)
Definition handleSubmit (state : State) (form : AttendanceForm) (id : string) : Submission :=
  match form_status form with
  | None => Incomplete
  | Some status =>
      if negb (Js.truthy (form_courseId form)) || negb (Js.truthy (form_studentId form))
      then Incomplete
      else match Js.get (courseMap (courses state)) (form_courseId form) with
           | None => CourseNotFound
           | Some course =>
               Saved (mkAttendance id (form_studentId form) (Some (course_id course))
                        (course_name course) (form_date form) (Text (statusText status)))
           end
  end.

(** The state that a load builds from the courses of the teacher. *)
Definition stateOf (t : Api.Tables) (initialStudents : list Student)
    (teacherCourses : list (Course (list string)))
    (attendanceRecords : list AttendanceRecord) : State :=
  let relevantRecords :=
    filter (fun record => relevant teacherCourses record = true) attendanceRecords in
  let entries := rosterEntries teacherCourses relevantRecords in
  let lookup := lookupOf t initialStudents entries in
  let rosterMap := Js.mapEntries (rosterOf lookup) entries in
  mkState teacherCourses rosterMap (Roster.flatten rosterMap) relevantRecords.

End AttendancePage.

(** ** src/pages/Login.tsx, TeacherStudents: the list shown *)

Module StudentsPage.

Import TeacherStudents.


(** The values 'all', '90', '80', '70' and 'below70' of [gradeFilter]. *)
Inductive GradeFilter : Type := all | from90 | from80 | from70 | below70.

(** The callback of the filter by grade. *)
Definition matchesGrade (gradeFilter : GradeFilter) (grade : option Js.JsNumber) : bool :=
  match grade with
  | None => false
  | Some grade =>
      match gradeFilter with
      | from90 => Num.ge grade 90
      | from80 => Num.ge grade 80 && Num.lt grade 90
      | from70 => Num.ge grade 70 && Num.lt grade 80
      | _ => Num.lt grade 70
      end
  end.

Definition matchesSearch (term : string) (student : Student) : bool :=
  Text.includes (Js.toLowerCase (student_name student)) term
  || Text.includes (Js.toLowerCase (student_email student)) term
  || Text.includes (Js.toLowerCase (student_gradeLevel student)) term.


(** The label of [getPerformanceBadge]. *)
Inductive Badge : Type := NoGradesYet | Excellent | Strong | Watchlist | AtRisk.


(** The filter value that goes with a badge. *)
Definition bandOf (badge : Badge) : option GradeFilter :=
  match badge with
  | NoGradesYet => None
  | Excellent => Some from90
  | Strong => Some from80
  | Watchlist => Some from70
  | AtRisk => Some below70
  end.

End StudentsPage.

(** ** src/pages/Attendance.tsx, Attendance: the filters *)

Module AttendanceView.

(** [new Date(a) < new Date(b)] over the time values of the two dates;
    [None] is the time value NaN of an invalid date. *)
Definition before (a b : option Q) : bool :=
  match a, b with
  | Some x, Some y => negb (Qle_bool y x)
  | _, _ => false
  end.

(** The callback of [records.filter]; [timeOf] gives the time value of a
    date text, and [statusFilter] is [None] for 'all'. *)
Definition keeps (timeOf : string -> option Q) (courseFilter : string)
    (statusFilter : option Status) (startDate endDate : string)
    (record : AttendanceRecord) : bool :=
  if negb (String.eqb courseFilter "all")
     && negb (String.eqb (att_courseName record) courseFilter)
  then false
  else if match statusFilter with
          | Some status => negb (Attendance.normalizesTo status record)
          | None => false
          end
  then false
  else if Js.truthy startDate && before (timeOf (att_date record)) (timeOf startDate)
  then false
  else if Js.truthy endDate && before (timeOf endDate) (timeOf (att_date record))
  then false
  else true.

Definition filteredRecords (timeOf : string -> option Q) (records : list AttendanceRecord)
    (courseFilter : string) (statusFilter : option Status) (startDate endDate : string)
  : list AttendanceRecord :=
  List.filter (keeps timeOf courseFilter statusFilter startDate endDate) records.

(** The summary above the list. *)
Definition stats (timeOf : string -> option Q) (records : list AttendanceRecord)
    (courseFilter : string) (statusFilter : option Status) (startDate endDate : string)
  : AttendanceUtils.Stats :=
  AttendanceUtils.calculateAttendanceStats
    (filteredRecords timeOf records courseFilter statusFilter startDate endDate).

(** The weight of a status in the rate, in per cent. *)
Definition weight (status : Status) : Q :=
  match status with
  | present => 100
  | late => 75
  | absent => 0
  end.

End AttendanceView.

(** ** src/pages/Children.tsx: the attendance figure of a child *)

Module ChildrenPage.

(** [stats.rate || child.attendance] over the records found for the
    child. *)
Definition attendanceRate (records : list AttendanceRecord) (child : Student)
  : Js.JsNumber :=
  let stats := AttendanceUtils.calculateAttendanceStats records in
  match AttendanceUtils.rate stats with
  | Js.Finite q =>
      if Js.Qzero q then Js.Finite (student_attendance child)
      else AttendanceUtils.rate stats
  | Js.NaN => Js.Finite (student_attendance child)
  | other => other
  end.

End ChildrenPage.

(** ** src/pages/StudentResults.tsx: letter grades *)

Module ResultsView.

Inductive Letter : Type := A | B | C | D | F.

(** The chain of comparisons that both the overall grade and the rows of
    the table go through. *)
Definition letterGrade (x : Js.JsNumber) : Letter :=
  if Num.ge x 90 then A
  else if Num.ge x 80 then B
  else if Num.ge x 70 then C
  else if Num.ge x 60 then D
  else F.

(** [(grade.score / grade.maxScore) * 100] of a row. *)
Definition percentage (grade : Grade) : Js.JsNumber :=
  Js.mulq (Js.div (grade_score grade) (grade_maxScore grade)) 100.

Definition rowLetter (grade : Grade) : Letter := letterGrade (percentage grade).

Definition overallLetter (grades : list Grade) : Letter :=
  letterGrade (StudentResults.averageScore grades).

End ResultsView.

Module Samples.

(** An attendance record of a course given by its name. *)
Definition attended (id courseName : string) : AttendanceRecord :=
  mkAttendance id "s1" None courseName "2024-01-10" (Text "present").

(** The finance record of student s1 with a fee of 1000, a scholarship of
    200 and a consistent balance. *)
Definition account (paid : Q) : Finance :=
  mkFinance "f1" "s1" 1000 200 paid (Qmax 0 (1000 - 200 - paid)) "Fall".

(** The form filled in for student s2 in course C1, and the record that
    it saves under the id a9. *)
Definition filled : AttendancePage.AttendanceForm :=
  AttendancePage.mkForm "C1" "s2" (Some present) "2024-01-10" "".

Definition submitted : AttendanceRecord :=
  mkAttendance "a9" "s2" (Some "C1") "Algebra" "2024-01-10" (Text "present").



End Samples.

(** * Properties *)

(** ** Dictionaries, sets and strings *)

Section JsFacts.

Context {V : Type}.
Implicit Types (d : Js.Dict V) (k : string) (v : V).

Lemma get_set_eq d k v : Js.get (Js.set d k v) k = Some v.
Proof.
  induction d as [|[k' v'] d IH]; simpl.
  - by rewrite String.eqb_refl.
  - destruct (String.eqb k' k) eqn:E; simpl; rewrite E; [done | apply IH].
Qed.

Lemma get_set_ne d k k' v : k ≠ k' → Js.get (Js.set d k v) k' = Js.get d k'.
Proof.
  intros Hne. induction d as [|[k0 v0] d IH]; simpl.
  - destruct (String.eqb_spec k k'); [done | done].
  - destruct (String.eqb_spec k0 k) as [->|Hk]; simpl.
    + destruct (String.eqb_spec k k'); [done | done].
    + destruct (String.eqb_spec k0 k'); [done | apply IH].
Qed.

Lemma get_set d k k' v :
  Js.get (Js.set d k v) k' = if decide (k = k') then Some v else Js.get d k'.
Proof.
  case_decide as Hk; [subst; apply get_set_eq | by apply get_set_ne].
Qed.

Lemma has_keys d k : Js.has d k = true ↔ k ∈ Js.keys d.
Proof.
  unfold Js.has, Js.keys. induction d as [|[k' v'] d IHd]; simpl.
  - split; [done | by intros ?%elem_of_nil].
  - rewrite elem_of_cons. destruct (String.eqb_spec k' k) as [->|Hk].
    + split; [by left | done].
    + rewrite IHd. split; [by right | by intros [?|?]].
Qed.

Lemma has_false_keys d k : Js.has d k = false ↔ k ∉ Js.keys d.
Proof. rewrite <- has_keys. by destruct (Js.has d k). Qed.

Lemma has_get d k : Js.has d k = true ↔ is_Some (Js.get d k).
Proof.
  unfold Js.has. destruct (Js.get d k); split; done.
Qed.

Lemma keys_set d k v :
  Js.keys (Js.set d k v) = if Js.has d k then Js.keys d else Js.keys d ++ [k].
Proof.
  unfold Js.has, Js.keys. induction d as [|[k' v'] d IH]; simpl; [done|].
  destruct (String.eqb_spec k' k) as [->|Hk]; simpl; [done|].
  rewrite IH. by destruct (Js.get d k).
Qed.

Lemma keys_set_has d k v : Js.has d k = true → Js.keys (Js.set d k v) = Js.keys d.
Proof. intros H. by rewrite keys_set, H. Qed.

Lemma NoDup_keys_set d k v : NoDup (Js.keys d) → NoDup (Js.keys (Js.set d k v)).
Proof.
  intros Hd. rewrite keys_set. destruct (Js.has d k) eqn:E; [done|].
  apply has_false_keys in E. apply NoDup_app. split_and!; [done| |].
  - intros x Hx ->%list_elem_of_singleton. done.
  - apply NoDup_singleton.
Qed.

Lemma elem_of_get d k v : NoDup (Js.keys d) → (k, v) ∈ d ↔ Js.get d k = Some v.
Proof.
  unfold Js.keys. induction d as [|[k' v'] d IH]; simpl; intros Hd.
  - split; [by intros ?%elem_of_nil | done].
  - apply NoDup_cons in Hd as [Hk' Hd]. rewrite elem_of_cons.
    destruct (String.eqb_spec k' k) as [->|Hk].
    + split; [|naive_solver].
      intros [?|Hin]; [naive_solver|].
      exfalso. apply Hk'. change k with (fst (k, v)). by apply list_elem_of_fmap_2.
    + rewrite <- IH by done. naive_solver.
Qed.

Lemma get_elem_of d k v : Js.get d k = Some v → (k, v) ∈ d.
Proof.
  induction d as [|[k' v'] d IH]; simpl; [done|].
  destruct (String.eqb_spec k' k) as [->|Hk].
  - intros [= ->]. apply elem_of_cons. by left.
  - intros H. apply elem_of_cons. right. by apply IH.
Qed.

End JsFacts.

Lemma includes_elem_of (l : list string) (x : string) :
  Js.includes l x = true ↔ x ∈ l.
Proof.
  unfold Js.includes. induction l as [|y l IH]; simpl.
  - split; [done | by intros ?%elem_of_nil].
  - rewrite elem_of_cons, orb_true_iff, IH.
    destruct (String.eqb_spec x y); naive_solver.
Qed.

Lemma includes_not_elem_of (l : list string) (x : string) :
  Js.includes l x = false ↔ x ∉ l.
Proof. rewrite <- includes_elem_of. by destruct (Js.includes l x). Qed.

Lemma truthy_nonempty (s : string) : Js.truthy s = true ↔ s ≠ "".
Proof. by destruct s. Qed.

Lemma elem_of_map {A B} (f : A → B) (l : list A) (y : B) :
  y ∈ map f l ↔ ∃ x, y = f x ∧ x ∈ l.
Proof. apply (list_elem_of_fmap f l y). Qed.

Lemma elem_of_concat {A} (x : A) (ls : list (list A)) :
  x ∈ concat ls ↔ ∃ l, x ∈ l ∧ l ∈ ls.
Proof.
  induction ls as [|l ls IH]; simpl.
  - split; [by intros ?%elem_of_nil | by intros (? & _ & ?%elem_of_nil)].
  - rewrite elem_of_app, IH. setoid_rewrite elem_of_cons. naive_solver.
Qed.


(** A loop that stores under the key of each item, creating the key when
    it is new, keeps the keys distinct and ends with the keys it started
    from followed by the new ones. *)
Lemma upsert_fold_keys {A V} (step : Js.Dict V → A → Js.Dict V) (kf : A → string) :
  (∀ d x, Js.keys (step d x) = if Js.has d (kf x) then Js.keys d else Js.keys d ++ [kf x]) →
  ∀ (l : list A) (d : Js.Dict V),
    NoDup (Js.keys d) →
    NoDup (Js.keys (fold_left step l d)) ∧
    ∀ k, k ∈ Js.keys (fold_left step l d) ↔ k ∈ Js.keys d ∨ ∃ x, x ∈ l ∧ kf x = k.
Proof.
  intros Hstep. induction l as [|x l IH]; intros d Hd; simpl.
  - split; [done|]. intros k. split; [by left|].
    intros [?|(y & Hy%elem_of_nil & _)]; done.
  - assert (NoDup (Js.keys (step d x))) as Hd'.
    { rewrite Hstep. destruct (Js.has d (kf x)) eqn:E; [done|].
      apply has_false_keys in E. apply NoDup_app.
      split_and!; [done| |apply NoDup_singleton].
      by intros y Hy ->%list_elem_of_singleton. }
    destruct (IH (step d x) Hd') as [Hnd Hkeys].
    split; [done|]. intros k. rewrite Hkeys, Hstep.
    setoid_rewrite elem_of_cons.
    destruct (Js.has d (kf x)) eqn:E.
    + apply has_keys in E. naive_solver.
    + rewrite elem_of_app, list_elem_of_singleton. naive_solver.
Qed.



Lemma rev_reverse {A} (l : list A) : rev l = reverse l.
Proof. unfold reverse. by rewrite <- rev_alt. Qed.

Lemma elem_of_rev {A} (x : A) (l : list A) : x ∈ rev l ↔ x ∈ l.
Proof. rewrite rev_reverse. apply elem_of_reverse. Qed.

Section MapFacts.

Context {V : Type}.
Implicit Types (d : Js.Dict V) (k : string) (v : V).

Lemma set_fresh d k v : k ∉ Js.keys d → Js.set d k v = d ++ [(k, v)].
Proof.
  unfold Js.keys. induction d as [|[k' v'] d IH]; simpl; intros Hk; [done|].
  apply not_elem_of_cons in Hk as [Hne Hk].
  destruct (String.eqb_spec k' k); [congruence|]. by rewrite IH.
Qed.

Lemma get_app d1 d2 k :
  Js.get (d1 ++ d2) k = match Js.get d1 k with Some v => Some v | None => Js.get d2 k end.
Proof.
  induction d1 as [|[k' v'] d1 IH]; simpl; [done|].
  by destruct (String.eqb k' k).
Qed.

Lemma get_None_keys d k : Js.get d k = None ↔ k ∉ Js.keys d.
Proof.
  rewrite <- has_false_keys. unfold Js.has. by destruct (Js.get d k).
Qed.

(** A [Map] built from entries has distinct keys and holds, for each key,
    the value of the last entry with that key. *)
Lemma set_fold_get (entries : list (string * V)) : ∀ d k,
  Js.get (fold_left (λ m kv, Js.set m (fst kv) (snd kv)) entries d) k
  = match Js.get (rev entries) k with Some v => Some v | None => Js.get d k end.
Proof.
  induction entries as [|[k0 v0] entries IH]; intros d k; simpl; [done|].
  rewrite IH, get_app. destruct (Js.get (rev entries) k); [done|].
  simpl. rewrite get_set. destruct (String.eqb_spec k0 k); by case_decide.
Qed.

Lemma set_fold_NoDup (entries : list (string * V)) : ∀ d,
  NoDup (Js.keys d) →
  NoDup (Js.keys (fold_left (λ m kv, Js.set m (fst kv) (snd kv)) entries d)).
Proof.
  induction entries as [|[k0 v0] entries IH]; intros d Hd; simpl; [done|].
  apply IH. by apply NoDup_keys_set.
Qed.

Lemma MapOf_get (entries : list (string * V)) k :
  Js.get (Js.MapOf entries) k = Js.get (rev entries) k.
Proof. unfold Js.MapOf. rewrite set_fold_get. by destruct (Js.get (rev entries) k). Qed.

Lemma MapOf_NoDup (entries : list (string * V)) : NoDup (Js.keys (Js.MapOf entries)).
Proof. apply set_fold_NoDup. apply NoDup_nil_2. Qed.

Lemma MapOf_get_elem_of (entries : list (string * V)) k v :
  Js.get (Js.MapOf entries) k = Some v → (k, v) ∈ entries.
Proof.
  rewrite MapOf_get. intros H%get_elem_of. by apply elem_of_rev.
Qed.

Lemma MapOf_has (entries : list (string * V)) k :
  Js.has (Js.MapOf entries) k = true ↔ k ∈ map fst entries.
Proof.
  rewrite has_get, MapOf_get, <- has_get, has_keys. unfold Js.keys.
  rewrite !elem_of_map. by setoid_rewrite elem_of_rev.
Qed.

Lemma MapOf_get_unique (entries : list (string * V)) k v :
  NoDup (map fst entries) → (k, v) ∈ entries → Js.get (Js.MapOf entries) k = Some v.
Proof.
  intros Hnd Hin. rewrite MapOf_get. apply elem_of_get.
  - unfold Js.keys. by rewrite map_rev, rev_reverse, reverse_Permutation.
  - by apply elem_of_rev.
Qed.

Lemma values_elem_of d v : v ∈ Js.values d ↔ ∃ k, (k, v) ∈ d.
Proof.
  unfold Js.values. rewrite elem_of_map. split.
  - intros ([k v'] & -> & Hin). by exists k.
  - intros (k & Hin). by exists (k, v).
Qed.

End MapFacts.

Section MapEntries.

Context {V W : Type} (f : V → W).

Lemma mapEntries_fold (d : Js.Dict V) : ∀ acc : Js.Dict W,
  NoDup (Js.keys d) → (∀ k, k ∈ Js.keys d → k ∉ Js.keys acc) →
  fold_left (λ acc kv, Js.set acc (fst kv) (f (snd kv))) d acc
  = acc ++ map (λ kv, (fst kv, f (snd kv))) d.
Proof.
  unfold Js.keys. induction d as [|[k v] d IH]; intros acc Hd Hacc; simpl.
  - by rewrite app_nil_r.
  - apply NoDup_cons in Hd as [Hk Hd].
    rewrite set_fresh by (apply Hacc, elem_of_cons; by left).
    rewrite IH; [by rewrite <- app_assoc | done |].
    intros k' Hk'. unfold Js.keys. rewrite map_app, elem_of_app. simpl.
    intros [Hin|Hin%list_elem_of_singleton].
    + by apply (Hacc k'); [apply elem_of_cons; right|].
    + by subst k'.
Qed.

Lemma mapEntries_map (d : Js.Dict V) :
  NoDup (Js.keys d) → Js.mapEntries f d = map (λ kv, (fst kv, f (snd kv))) d.
Proof.
  intros Hd. unfold Js.mapEntries. rewrite mapEntries_fold; [done | done |].
  intros k _ Hk. by apply elem_of_nil in Hk.
Qed.

Lemma mapEntries_keys (d : Js.Dict V) :
  NoDup (Js.keys d) → Js.keys (Js.mapEntries f d) = Js.keys d.
Proof.
  intros Hd. rewrite mapEntries_map by done. unfold Js.keys.
  rewrite map_map. done.
Qed.

Lemma mapEntries_get (d : Js.Dict V) k :
  NoDup (Js.keys d) → Js.get (Js.mapEntries f d) k = f <$> Js.get d k.
Proof.
  intros Hd. rewrite mapEntries_map by done. clear Hd.
  induction d as [|[k' v'] d IH]; simpl; [done|].
  by destruct (String.eqb k' k).
Qed.

End MapEntries.

(** [Set] keeps the first occurrence of each element, in order. *)
Lemma SetAdd_fold (l : list string) : ∀ acc,
  NoDup acc →
  NoDup (fold_left Js.SetAdd l acc) ∧
  (∀ x, x ∈ fold_left Js.SetAdd l acc ↔ x ∈ acc ∨ x ∈ l) ∧
  ∃ extra, fold_left Js.SetAdd l acc = acc ++ extra.
Proof.
  induction l as [|y l IH]; intros acc Hacc; simpl.
  - split_and!; [done | | exists []; by rewrite app_nil_r].
    intros x. split; [by left | by intros [?|?%elem_of_nil]].
  - assert (NoDup (Js.SetAdd acc y)) as Hacc'.
    { unfold Js.SetAdd. destruct (Js.includes acc y) eqn:E; [done|].
      apply includes_not_elem_of in E. apply NoDup_app.
      split_and!; [done| |apply NoDup_singleton].
      by intros x Hx ->%list_elem_of_singleton. }
    destruct (IH _ Hacc') as (Hnd & Hmem & extra & Hext).
    split_and!; [done | |].
    + intros x. rewrite Hmem, elem_of_cons. unfold Js.SetAdd.
      destruct (Js.includes acc y) eqn:E.
      * apply includes_elem_of in E. naive_solver.
      * rewrite elem_of_app, list_elem_of_singleton. naive_solver.
    + rewrite Hext. unfold Js.SetAdd. destruct (Js.includes acc y).
      * by exists extra.
      * exists (y :: extra). by rewrite <- app_assoc.
Qed.

Lemma SetOf_NoDup (l : list string) : NoDup (Js.SetOf l).
Proof. apply SetAdd_fold. apply NoDup_nil_2. Qed.

Lemma SetOf_elem_of (l : list string) x : x ∈ Js.SetOf l ↔ x ∈ l.
Proof.
  unfold Js.SetOf. destruct (SetAdd_fold l [] (NoDup_nil_2)) as (_ & Hmem & _).
  rewrite Hmem. split; [by intros [?%elem_of_nil|?] | by right].
Qed.


(** ** Attendance statistics *)

Section AttendanceFacts.

Import AttendanceUtils Attendance.

Lemma count_fold records : ∀ stats,
  fold_left count records stats =
  mkCounts (c_total stats + tally counted records)
           (c_present stats + tally (normalizesTo present) records)
           (c_late stats + tally (normalizesTo late) records)
           (c_absent stats + tally (normalizesTo absent) records).
Proof.
  unfold tally. induction records as [|r records IH]; intros [t p l a]; simpl.
  - f_equal; lia.
  - rewrite IH. unfold count, counted, normalizesTo.
    destruct (normalizeAttendanceStatus (att_status r)) as [[]| |]; simpl;
      f_equal; lia.
Qed.

Lemma count_skips records : ∀ stats,
  fold_left count (List.filter counted records) stats = fold_left count records stats.
Proof.
  induction records as [|r records IH]; intros stats; simpl; [done|].
  destruct (counted r) eqn:E; simpl; [apply IH|].
  rewrite IH. f_equal. unfold count. unfold counted in E.
  by destruct (normalizeAttendanceStatus (att_status r)).
Qed.

Lemma tally_filter_counted P records :
  (∀ r, P r = true → counted r = true) →
  tally P (List.filter counted records) = tally P records.
Proof.
  intros HP. unfold tally. induction records as [|r records IH]; simpl; [done|].
  destruct (counted r) eqn:E; simpl.
  - destruct (P r); simpl; by rewrite IH.
  - destruct (P r) eqn:EP; [|done]. apply HP in EP. congruence.
Qed.

Lemma tally_zero P records :
  (∀ r, r ∈ records → P r = false) → tally P records = 0.
Proof.
  unfold tally. induction records as [|r records IH]; simpl; intros H; [done|].
  rewrite (H r) by (apply elem_of_cons; by left).
  apply IH. intros r' Hr'. apply H. apply elem_of_cons. by right.
Qed.

Lemma tally_pos P records r :
  r ∈ records → P r = true → 0 < tally P records.
Proof.
  unfold tally. induction records as [|r' records IH]; simpl.
  - by intros ?%elem_of_nil.
  - intros [->|Hin]%elem_of_cons HP.
    + rewrite HP. simpl. lia.
    + destruct (P r'); simpl; [lia | by apply IH].
Qed.

Lemma Qzero_ofNat n : Js.Qzero (ofNat (S n)) = false.
Proof.
  unfold Js.Qzero, ofNat. destruct (Qeq_bool _ _) eqn:E; [|done].
  apply Qeq_bool_eq in E. unfold Qeq in E. simpl in E. lia.
Qed.

Lemma Math_round_nearest (x : Q) :
  (x - (1 # 2) < inject_Z (Js.Math_round x))%Q ∧
  (inject_Z (Js.Math_round x) <= x + (1 # 2))%Q.
Proof.
  unfold Js.Math_round. split.
  - pose proof (Qlt_floor (x + (1 # 2))) as H.
    rewrite inject_Z_plus in H. change (inject_Z 1) with 1%Q in H. lra.
  - apply Qfloor_le.
Qed.

(** The statistics in closed form. *)
Lemma calculateAttendanceStats_closed records :
  let stats := mkCounts (tally counted records)
                 (tally (normalizesTo present) records)
                 (tally (normalizesTo late) records)
                 (tally (normalizesTo absent) records) in
  calculateAttendanceStats records =
  match tally counted records with
  | O => mkStats 0 (c_present stats) (c_late stats) (c_absent stats)
           (Js.Finite 0) (Js.Finite 0)
  | S _ =>
      let percentage :=
        Js.Finite (inject_Z (Js.Math_round
          (weightedScore stats / ofNat (c_total stats) * 100)%Q)) in
      mkStats (c_total stats) (c_present stats) (c_late stats) (c_absent stats)
        percentage percentage
  end.
Proof.
  destruct records as [|r records]; [done|].
  unfold calculateAttendanceStats. rewrite count_fold. simpl c_total.
  simpl c_present. simpl c_late. simpl c_absent.
  destruct (tally counted (r :: records)) as [|n] eqn:E; [done|].
  unfold Js.div. by rewrite Qzero_ofNat.
Qed.

Lemma normalizesTo_counted s r : normalizesTo s r = true → counted r = true.
Proof.
  unfold normalizesTo, counted.
  by destruct (normalizeAttendanceStatus (att_status r)).
Qed.

(** The statistics of the machine in closed form. *)
Lemma machine_stats_closed records :
  let stats := mkCounts (tally counted records)
                 (tally (normalizesTo present) records)
                 (tally (normalizesTo late) records)
                 (tally (normalizesTo absent) records) in
  Machine.calculateAttendanceStats records =
  match tally counted records with
  | O => Machine.mkStats 0 (c_present stats) (c_late stats) (c_absent stats)
           (Binary64.ofZ 0) (Binary64.ofZ 0)
  | S _ =>
      Machine.mkStats (c_total stats) (c_present stats) (c_late stats)
        (c_absent stats) (Machine.percentageOf stats) (Machine.percentageOf stats)
  end.
Proof.
  destruct records as [|r records]; [done|].
  unfold Machine.calculateAttendanceStats. rewrite count_fold. simpl c_total.
  simpl c_present. simpl c_late. simpl c_absent.
  by destruct (tally counted (r :: records)) as [|n] eqn:E.
Qed.

(** The machine and the exact rendition return the same counts. *)
Lemma machine_counts records :
  Machine.total (Machine.calculateAttendanceStats records)
  = total (calculateAttendanceStats records) ∧
  Machine.presentCount (Machine.calculateAttendanceStats records)
  = presentCount (calculateAttendanceStats records) ∧
  Machine.lateCount (Machine.calculateAttendanceStats records)
  = lateCount (calculateAttendanceStats records) ∧
  Machine.absentCount (Machine.calculateAttendanceStats records)
  = absentCount (calculateAttendanceStats records).
Proof.
  rewrite machine_stats_closed, calculateAttendanceStats_closed.
  by destruct (tally counted records).
Qed.

Lemma filter_ext_in (P Q : AttendanceRecord → bool) records :
  (∀ r, r ∈ records → P r = Q r) → List.filter P records = List.filter Q records.
Proof.
  induction records as [|r records IH]; simpl; intros H; [done|].
  rewrite (H r) by (apply elem_of_cons; by left).
  rewrite (IH (λ r' Hr', H r' (proj2 (elem_of_cons _ _ _) (or_intror Hr')))).
  done.
Qed.

(** A counted record is a recognized one or one that reads an inherited
    member. *)
Lemma counted_cases r : counted r = recognized r || inherited r.
Proof.
  unfold counted, recognized, inherited.
  by destruct (normalizeAttendanceStatus (att_status r)).
Qed.

Lemma recognized_inherited r : recognized r = true → inherited r = false.
Proof.
  unfold recognized, inherited.
  by destruct (normalizeAttendanceStatus (att_status r)).
Qed.

Lemma tally_counted records :
  tally counted records = tally recognized records + tally inherited records.
Proof.
  unfold tally. induction records as [|r records IH]; simpl; [done|].
  rewrite counted_cases.
  destruct (recognized r) eqn:Hr; simpl.
  - rewrite (recognized_inherited r Hr). simpl. by rewrite IH.
  - destruct (inherited r); simpl; rewrite IH; lia.
Qed.

Lemma tally_recognized records :
  tally recognized records
  = tally (normalizesTo present) records + tally (normalizesTo late) records
    + tally (normalizesTo absent) records.
Proof.
  unfold tally. induction records as [|r records IH]; simpl; [done|].
  destruct (recognized r) eqn:H0, (normalizesTo present r) eqn:H1,
    (normalizesTo late r) eqn:H2, (normalizesTo absent r) eqn:H3;
    simpl; rewrite ?IH; try lia; exfalso;
    unfold recognized, normalizesTo in H0, H1, H2, H3;
    destruct (normalizeAttendanceStatus (att_status r)) as [[]| |]; congruence.
Qed.

End AttendanceFacts.

Section RateRounding.

Import AttendanceUtils Attendance.










End RateRounding.

Section AttendanceClaims.

Import AttendanceUtils Attendance Examples.




(** C8: a record whose status normalizes to [null] is left out of every
    count, the empty list gives total 0, present 0, late 0, absent 0,
    rate 0, and so does a list of statuses none of which normalizes, as
    long as none of them reads an inherited member of the synonym table.
    A status that does ([constructor], [__proto__]) fails normalization
    and is counted in [total] all the same: the list of the one record
    with the status [constructor] gives total 1, not the zero record. *)
Theorem attendance_skips_unrecognized records :
  let stats := Machine.calculateAttendanceStats records in
  let zero := Machine.mkStats 0 0 0 0 (Binary64.ofZ 0) (Binary64.ofZ 0) in
  Machine.calculateAttendanceStats (List.filter counted records) = stats ∧
  Machine.total stats = (tally recognized records + tally inherited records)%nat ∧
  Machine.presentCount stats = tally (normalizesTo present) records ∧
  Machine.lateCount stats = tally (normalizesTo late) records ∧
  Machine.absentCount stats = tally (normalizesTo absent) records ∧
  (Machine.total stats = 0%nat → stats = zero) ∧
  Machine.calculateAttendanceStats [] = zero ∧
  ((∀ r, r ∈ records → inherited r = false) →
   Machine.calculateAttendanceStats (List.filter recognized records) = stats ∧
   Machine.total stats = tally recognized records ∧
   ((∀ r, r ∈ records → recognized r = false) → stats = zero)) ∧
  ((∃ r, r ∈ records ∧ inherited r = true) → stats ≠ zero) ∧
  recognized (marked "constructor") = false ∧
  (∀ r, r ∈ [marked "constructor"] → recognized r = false) ∧
  Machine.calculateAttendanceStats [marked "constructor"]
  = Machine.mkStats 1 0 0 0 (Binary64.ofZ 0) (Binary64.ofZ 0).
Proof.
  intros stats zero. subst stats zero.
  pose proof (tally_counted records) as Hsplit.
  pose proof (tally_recognized records) as Hsum.
  assert (Machine.calculateAttendanceStats (List.filter counted records)
          = Machine.calculateAttendanceStats records) as Hskip.
  { rewrite !machine_stats_closed.
    rewrite !tally_filter_counted; eauto using normalizesTo_counted. }
  split_and!.
  - done.
  - rewrite machine_stats_closed, <- Hsplit. by destruct (tally counted records).
  - rewrite machine_stats_closed. by destruct (tally counted records).
  - rewrite machine_stats_closed. by destruct (tally counted records).
  - rewrite machine_stats_closed. by destruct (tally counted records).
  - rewrite machine_stats_closed.
    destruct (tally counted records) as [|n] eqn:E; [|done]. intros _.
    cbn [c_present c_late c_absent].
    assert (tally (normalizesTo present) records = 0
            ∧ tally (normalizesTo late) records = 0
            ∧ tally (normalizesTo absent) records = 0)%nat as (-> & -> & ->) by lia.
    done.
  - done.
  - intros Hall.
    assert (List.filter recognized records = List.filter counted records) as Hsame.
    { apply filter_ext_in. intros r Hr. rewrite counted_cases, (Hall r Hr).
      by destruct (recognized r). }
    assert (tally inherited records = 0)%nat as Hnone by (by apply tally_zero).
    split_and!.
    + by rewrite Hsame.
    + rewrite Hnone, Nat.add_0_r in Hsplit.
      rewrite machine_stats_closed, <- Hsplit. by destruct (tally counted records).
    + intros Hnot. rewrite machine_stats_closed.
      assert (tally recognized records = 0)%nat as Hzero by (by apply tally_zero).
      rewrite Hsplit, Hzero, Hnone. cbn [Nat.add c_present c_late c_absent].
      assert (tally (normalizesTo present) records = 0
              ∧ tally (normalizesTo late) records = 0
              ∧ tally (normalizesTo absent) records = 0)%nat as (-> & -> & ->) by lia.
      done.
  - intros (r & Hr & Hin). rewrite machine_stats_closed.
    pose proof (tally_pos inherited records r Hr Hin) as Hpos.
    destruct (tally counted records) as [|n] eqn:E; [lia|]. discriminate.
  - reflexivity.
  - intros r ->%list_elem_of_singleton. reflexivity.
  - vm_compute. reflexivity.
Qed.

Lemma attendance_skips_unrecognized_witness :
  Machine.calculateAttendanceStats [marked "unknown"; marked "  "]
  = Machine.mkStats 0 0 0 0 (Binary64.ofZ 0) (Binary64.ofZ 0)
  ∧ Machine.calculateAttendanceStats [marked "present"; marked "Constructor"]
    ≠ Machine.mkStats 0 0 0 0 (Binary64.ofZ 0) (Binary64.ofZ 0).
Proof.
  split.
  - pose proof (attendance_skips_unrecognized [marked "unknown"; marked "  "]) as H.
    destruct H as (_ & _ & _ & _ & _ & _ & _ & Hclean & _).
    destruct Hclean as (_ & _ & Hzero).
    + intros r Hr.
      apply elem_of_cons in Hr as [->|Hr]; [reflexivity|].
      apply elem_of_cons in Hr as [->|Hr]; [reflexivity|].
      by apply elem_of_nil in Hr.
    + apply Hzero. intros r Hr.
      apply elem_of_cons in Hr as [->|Hr]; [reflexivity|].
      apply elem_of_cons in Hr as [->|Hr]; [reflexivity|].
      by apply elem_of_nil in Hr.
  - pose proof (attendance_skips_unrecognized
                  [marked "present"; marked "Constructor"]) as H.
    destruct H as (_ & _ & _ & _ & _ & _ & _ & _ & Hbug & _).
    apply Hbug. exists (marked "Constructor").
    split; [apply elem_of_cons; right; apply elem_of_cons; by left | reflexivity].
Defined.

(** Every key of the synonym table, in any letter case and with
    surrounding blanks, normalizes to the status the table gives. *)
Lemma normalize_table :
  Forall (λ kv, normalizeAttendanceStatus (Text (fst kv)) = Canonical (snd kv)
              ∧ normalizeAttendanceStatus
                  (Text (" " +:+ Js.toUpperCase (fst kv) +:+ " ")) = Canonical (snd kv))
    STATUS_MAP.
Proof. repeat constructor. Qed.

Lemma normalize_absent_input :
  normalizeAttendanceStatus null = Null ∧
  normalizeAttendanceStatus undefined = Null ∧
  ∀ s, Js.trim s = "" → normalizeAttendanceStatus (Text s) = Null.
Proof. split_and!; try done. intros s Hs. unfold normalizeAttendanceStatus. by rewrite Hs. Qed.

Lemma lowerChar_not_upper c : Js.isUpperAZ (Js.lowerChar c) = false.
Proof. destruct c as [[] [] [] [] [] [] [] []]; reflexivity. Qed.

Lemma toLowerCase_no_upper s : hasUpper (Js.toLowerCase s) = false.
Proof.
  unfold hasUpper. induction s as [|c s IH]; simpl; [done|].
  by rewrite lowerChar_not_upper, IH.
Qed.

(** The text of an unrecognized status normalizes to [null] unless, once
    trimmed and lower-cased, it is [constructor] or [__proto__]. *)
Lemma normalize_unrecognized s :
  let normalized := Js.toLowerCase (Js.trim s) in
  Js.get STATUS_MAP normalized = None →
  normalized ≠ "constructor" → normalized ≠ "__proto__" →
  normalizeAttendanceStatus (Text s) = Null.
Proof.
  intros normalized Hget Hc Hp. unfold normalizeAttendanceStatus.
  fold normalized. destruct (Js.truthy normalized); [|done]. simpl.
  unfold Js.read. rewrite Hget.
  destruct (Js.includes Js.Object_prototype normalized) eqn:E; [|done].
  exfalso. apply includes_elem_of in E.
  pose proof (toLowerCase_no_upper (Js.trim s)) as Hup. fold normalized in Hup.
  unfold Js.Object_prototype in E.
  repeat (apply elem_of_cons in E as [E|E];
          [first [ done | rewrite E in Hup; discriminate Hup ] |]).
  by apply elem_of_nil in E.
Qed.

(** C7: on the status text [constructor] (and on [__proto__]), which the
    synonym table does not list, [normalizeAttendanceStatus] does not
    return [null]: the read of [STATUS_MAP] finds the member of that name
    that every object inherits, and [calculateAttendanceStats] then counts
    the record in [total]. *)
Theorem normalize_inherited_member :
  Js.get STATUS_MAP "constructor" = None ∧
  normalizeAttendanceStatus (Text "constructor") = Member "constructor" ∧
  normalizeAttendanceStatus (Text " Constructor ") = Member "constructor" ∧
  normalizeAttendanceStatus (Text "__proto__") = Member "__proto__" ∧
  normalizeAttendanceStatus (Text "constructor") ≠ Null ∧
  calculateAttendanceStats [marked "constructor"]
  = mkStats 1 0 0 0 (Js.Finite 0) (Js.Finite 0).
Proof. split_and!; done. Qed.

End AttendanceClaims.

(** ** Fee payment *)

Section Finance.

Import Store.

Lemma update_shape finances studentId amount fin finances' :
  update finances studentId amount = Some (fin, finances') →
  ∃ before old after,
    finances = before ++ old :: after ∧
    finances' = before ++ fin :: after ∧
    fin = pay old amount ∧
    fin_studentId old = studentId ∧
    Forall (λ f, fin_studentId f ≠ studentId) before.
Proof.
  revert fin finances'.
  induction finances as [|f rest IH]; intros fin finances'; simpl; [done|].
  destruct (String.eqb_spec (fin_studentId f) studentId) as [Heq|Hne].
  - intros [= <- <-]. exists [], f, rest. by split_and!.
  - destruct (update rest studentId amount) as [[fin0 rest']|] eqn:E; [|done].
    intros [= <- <-].
    destruct (IH fin0 rest' eq_refl) as (before & old & after & -> & -> & -> & Hid & Hb).
    exists (f :: before), old, after. split_and!; try done. by constructor.
Qed.

(** C9: whenever [payFee] completes, for any finance records and any
    amount, the record it returns and has stored satisfies
    [due = max(0, totalFee - scholarship - paid)]; the record is the first
    one of that student, and every other record of the store is left as it
    was. *)
Theorem payFee_restores_due finances studentId amount fin finances' :
  payFee finances studentId amount = Js.Normal (fin, finances') →
  due fin = Qmax 0 (totalFee fin - scholarship fin - paid fin)%Q ∧
  ∃ before old after,
    finances = before ++ old :: after ∧
    finances' = before ++ fin :: after ∧
    fin_studentId old = studentId ∧
    Forall (λ f, fin_studentId f ≠ studentId) before ∧
    paid fin = (paid old + Qmin amount (due old))%Q ∧
    totalFee fin = totalFee old ∧ scholarship fin = scholarship old.
Proof.
  unfold payFee. destruct (update finances studentId amount) as [[f l]|] eqn:E; [|done].
  intros [= -> ->].
  destruct (update_shape _ _ _ _ _ E) as (before & old & after & -> & -> & -> & Hid & Hb).
  split; [done|]. exists before, old, after. by split_and!.
Qed.

Lemma payFee_restores_due_witness :
  let old := mkFinance "f1" "s1" 1000 200 300 999 "Fall" in
  let fin := mkFinance "f1" "s1" 1000 200 (300 + Qmin 150 999) (Qmax 0 (1000 - 200 - (300 + Qmin 150 999))) "Fall" in
  due fin = Qmax 0 (totalFee fin - scholarship fin - paid fin)%Q.
Proof.
  intros old fin.
  exact (proj1 (payFee_restores_due [old] "s1" 150 fin [fin] eq_refl)).
Defined.

(** Without a record for the student, [payFee] throws. *)
Lemma payFee_not_found finances studentId amount :
  Forall (λ f, fin_studentId f ≠ studentId) finances →
  payFee finances studentId amount = Js.Throw.
Proof.
  unfold payFee. induction 1 as [|f rest Hf _ IH]; simpl; [done|].
  destruct (String.eqb_spec (fin_studentId f) studentId); [done|].
  by destruct (update rest studentId amount) as [[? ?]|].
Qed.

End Finance.

(** ** The roster field parser *)

Section RosterParser.

Import RosterUtils Examples.

Lemma splitIds_empty : splitIds "" = [].
Proof. reflexivity. Qed.

(** The template literal leaves a string as it is. *)
Lemma stringify_strings (e : Json.Engine) ids :
  Js.mapM (Json.toString e) (map Json.Str ids) = Js.Normal ids.
Proof. induction ids as [|id ids IH]; simpl; [done|]. by rewrite IH. Qed.

Lemma normalizeStudentIds_strings (e : Json.Engine) ids :
  normalizeStudentIds e (ArrayOf (map Json.Str ids)) = Js.Normal (clean ids).
Proof. simpl. by rewrite stringify_strings. Qed.

Lemma normalizeStudentIds_text (e : Json.Engine) s :
  ∃ ids, normalizeStudentIds e (TextOf s) = Js.Normal ids.
Proof.
  simpl. destruct (Js.truthy (Js.trim s)); simpl; eauto.
  destruct (tryParse e (Js.trim s)) as [[ids|]|]; eauto.
Qed.

(** On the [studentIds] field of a course row the parser completes. *)
Lemma normalizeStudentIds_total (e : Json.Engine) field :
  ∃ ids, normalizeStudentIds e (ofField field) = Js.Normal ids.
Proof.
  destruct field as [values|s|].
  - eexists. apply normalizeStudentIds_strings.
  - apply normalizeStudentIds_text.
  - by eexists.
Qed.

(** An item that cannot be stringified sends the text to delimiter
    parsing: the [catch] takes the TypeError as it takes a SyntaxError. *)
Lemma normalizeStudentIds_caught (e : Json.Engine) s items :
  Json.parse e (Js.trim s) = Js.Normal (Json.Array items) →
  Js.mapM (Json.toString e) items = Js.Throw →
  normalizeStudentIds e (TextOf s) = Js.Normal (splitIds (Js.trim s)).
Proof.
  intros Hparse Hstr. simpl.
  destruct (Js.truthy (Js.trim s)) eqn:Hs; simpl.
  - unfold tryParse. rewrite Hparse. simpl. by rewrite Hstr.
  - destruct (Js.trim s); [done | discriminate Hs].
Qed.

(** The function throws on an array one of whose elements cannot be
    stringified, and on nothing else. *)
Lemma normalizeStudentIds_throws (e : Json.Engine) input :
  normalizeStudentIds e input = Js.Throw
  ↔ ∃ values, input = ArrayOf values ∧ Js.mapM (Json.toString e) values = Js.Throw.
Proof.
  split.
  - destruct input as [values|s|].
    + simpl. destruct (Js.mapM (Json.toString e) values) eqn:E; [done|]. eauto.
    + destruct (normalizeStudentIds_text e s) as [ids ->]. done.
    + done.
  - intros (values & -> & Hthrow). simpl. by rewrite Hthrow.
Qed.

(** C6: [normalizeStudentIds] does raise: the array branch converts each
    element with a template literal outside the [try], and an element
    that cannot be converted, such as an object whose member [toString]
    is not a function, makes the call throw a TypeError.  The function
    throws in no other case.  On an array whose elements convert it trims
    each converted element and drops the empty ones, keeping order and
    duplicates.  On a string it parses the trimmed text as JSON and, when
    that yields an array whose items convert, treats it like an array
    input; when the parse fails or yields something else, and when an item
    of the parsed array cannot be converted, it splits on commas, removes
    the bracket, brace and quote characters from each piece, trims and
    drops the empty pieces.  Any other input gives the empty list. *)
Theorem normalizeStudentIds_staged (e : Json.Engine) :
  normalizeStudentIds e (ArrayOf [Json.Object [("toString", Json.Number 1)]]) = Js.Throw ∧
  (∀ members before after,
     Js.has members "toString" = true →
     normalizeStudentIds e (ArrayOf (map Json.Str before ++ Json.Object members :: after))
     = Js.Throw) ∧
  (∀ input,
     normalizeStudentIds e input = Js.Throw
     ↔ ∃ values, input = ArrayOf values ∧ Js.mapM (Json.toString e) values = Js.Throw) ∧
  (∀ values strings,
     Js.mapM (Json.toString e) values = Js.Normal strings →
     normalizeStudentIds e (ArrayOf values)
     = Js.Normal (filter (λ v, Js.truthy v = true) (map Js.trim strings))) ∧
  (∀ ids,
     normalizeStudentIds e (ArrayOf (map Json.Str ids))
     = Js.Normal (filter (λ v, Js.truthy v = true) (map Js.trim ids))) ∧
  (∀ s items strings,
     Js.trim s ≠ "" →
     Json.parse e (Js.trim s) = Js.Normal (Json.Array items) →
     Js.mapM (Json.toString e) items = Js.Normal strings →
     normalizeStudentIds e (TextOf s) = normalizeStudentIds e (ArrayOf items)) ∧
  (∀ s,
     Json.parse e (Js.trim s) = Js.Throw
     ∨ (∃ v, Json.parse e (Js.trim s) = Js.Normal v ∧ ∀ items, v ≠ Json.Array items) →
     normalizeStudentIds e (TextOf s)
     = Js.Normal
         (filter (λ v, Js.truthy v = true)
            (map (λ piece, Js.trim (Js.removeAll noise piece))
               (Js.split "," (Js.trim s))))) ∧
  (∀ s items,
     Json.parse e (Js.trim s) = Js.Normal (Json.Array items) →
     Js.mapM (Json.toString e) items = Js.Throw →
     normalizeStudentIds e (TextOf s) = Js.Normal (splitIds (Js.trim s))) ∧
  (∀ s, Js.trim s = "" → normalizeStudentIds e (TextOf s) = Js.Normal []) ∧
  normalizeStudentIds e Other = Js.Normal [] ∧
  normalizeStudentIds e
    (ArrayOf [Json.Str " b"; Json.Bool true; Json.Str "  "; Json.Null; Json.Str " b"])
  = Js.Normal ["b"; "true"; "null"; "b"].
Proof.
  split_and!.
  - done.
  - intros members before after Hmember.
    apply normalizeStudentIds_throws. eexists. split; [done|].
    induction before as [|id before IH]; simpl.
    + by rewrite Hmember.
    + by rewrite IH.
  - apply normalizeStudentIds_throws.
  - intros values strings Hstr. simpl. by rewrite Hstr.
  - apply normalizeStudentIds_strings.
  - intros s items strings Hs Hparse Hstr. simpl.
    apply truthy_nonempty in Hs. rewrite Hs. simpl.
    unfold tryParse. rewrite Hparse. simpl. by rewrite Hstr.
  - intros s Hparse. simpl. fold (splitIds (Js.trim s)).
    destruct (Js.truthy (Js.trim s)) eqn:Hs; simpl.
    + unfold tryParse.
      destruct Hparse as [->|(v & -> & Hv)]; simpl; [done|].
      destruct v; try done. by destruct (Hv items).
    + destruct (Js.trim s); [done | discriminate Hs].
  - apply normalizeStudentIds_caught.
  - intros s Hs. simpl. by rewrite Hs.
  - done.
  - done.
Qed.

Lemma normalizeStudentIds_staged_witness :
  normalizeStudentIds fixedEngine
    (ArrayOf [Json.Str "s1"; Json.Object [("id", Json.Str "s2"); ("toString", Json.Null)]])
  = Js.Throw
  ∧ normalizeStudentIds fixedEngine (TextOf " [ignored] ") = Js.Normal ["s1"; "true"; "s1"]
  ∧ normalizeStudentIds rejectingEngine (TextOf "[s1, {s2}],,s3 ")
    = Js.Normal ["s1"; "s2"; "s3"]
  ∧ normalizeStudentIds rejectingEngine (TextOf "   ") = Js.Normal [].
Proof.
  destruct (normalizeStudentIds_staged fixedEngine)
    as (_ & Hthrow & _ & _ & _ & Harray & _).
  destruct (normalizeStudentIds_staged rejectingEngine)
    as (_ & _ & _ & _ & _ & _ & Hsplit & _ & Hempty & _).
  split_and!.
  - apply (Hthrow [("id", Json.Str "s2"); ("toString", Json.Null)] ["s1"] []).
    reflexivity.
  - rewrite (Harray " [ignored] "
               [Json.Str " s1 "; Json.Str ""; Json.Bool true; Json.Str "s1"]
               [" s1 "; ""; "true"; "s1"]); [reflexivity | done | reflexivity | reflexivity].
  - rewrite (Hsplit "[s1, {s2}],,s3 "); [reflexivity | left; reflexivity].
  - apply Hempty. reflexivity.
Defined.

(** An item that is an object with a member named [toString] cannot be
    stringified. *)
Lemma normalizeStudentIds_unprintable_item (e : Json.Engine) s :
  Json.parse e (Js.trim s)
  = Js.Normal (Json.Array [Json.Object [("toString", Json.Number 1)]]) →
  normalizeStudentIds e (TextOf s) = Js.Normal (splitIds (Js.trim s)).
Proof. intros Hparse. by apply (normalizeStudentIds_caught e s _ Hparse). Qed.

End RosterParser.

(** ** Averages of percentages *)

Section AverageFacts.

Import Examples Averages.

(** C4: [averageScore] of StudentResults divides by [maxScore] without a
    guard: a grade of 0 out of 0 makes the average NaN, and a positive
    score out of 0 makes it infinite, while the per-grade percentage of
    TeacherStudents on the same grades is a finite number. *)
Theorem averageScore_unguarded :
  StudentResults.averageScore [graded 0 0] = Js.NaN ∧
  StudentResults.averageScore [graded 80 100; graded 0 0] = Js.NaN ∧
  StudentResults.averageScore [graded 5 0] = Js.Infinity ∧
  TeacherStudents.percent (graded 0 0) = Js.Finite 0 ∧
  TeacherStudents.percent (graded 5 0) = Js.Finite 5.
Proof. split_and!; reflexivity. Qed.

Lemma Qzero_false_div a b : Js.Qzero b = false → Js.div a b = Js.Finite (a / b).
Proof. intros H. unfold Js.div. by rewrite H. Qed.


(** On grades whose maximum is not zero the unguarded average is finite. *)
Lemma averageScore_finite grades :
  Forall (λ g, Js.Qzero (grade_maxScore g) = false) grades →
  Js.isFinite (StudentResults.averageScore grades) = true.
Proof.
  intros Hall. unfold StudentResults.averageScore.
  destruct grades as [|g grades]; [done|].
  assert (∀ acc, ∃ q,
    fold_left (λ sum grade,
      Js.add sum (Js.mulq (Js.div (grade_score grade) (grade_maxScore grade)) 100))
      (g :: grades) (Js.Finite acc) = Js.Finite q) as Hsum.
  { induction Hall as [|g' l Hg' _ IH]; intros acc; simpl; [eauto|].
    rewrite Qzero_false_div by done. simpl. apply IH. }
  destruct (Hsum 0%Q) as [q ->]. simpl Js.divq.
  rewrite Qzero_false_div; [done|].
  unfold Js.Qzero. destruct (Qeq_bool _ _) eqn:E; [|done].
  apply Qeq_bool_eq in E. unfold Qeq in E. simpl in E. lia.
Qed.




End AverageFacts.

(** ** Sum-of-points aggregation *)

Section GradeAggregation.

Import AdminClasses GradeSums Examples.













(** *** The table of the machine *)












End GradeAggregation.

(** ** Department keys *)

Section DepartmentKeys.

Import Departments.

Lemma dashboard_addCourse_keys d course :
  Js.keys (AdminDashboard.addCourse d course)
  = if Js.has d (AdminDashboard.dept course) then Js.keys d
    else Js.keys d ++ [AdminDashboard.dept course].
Proof.
  unfold AdminDashboard.addCourse.
  destruct (Js.has d (AdminDashboard.dept course)) eqn:E.
  - apply has_get in E as Hsome. destruct Hsome as [b Hb]. rewrite Hb.
    by apply keys_set_has.
  - rewrite get_set_eq. rewrite keys_set_has.
    + by rewrite keys_set, E.
    + apply has_get. rewrite get_set_eq. by eexists.
Qed.

Lemma reports_addCourse_keys attendance d course :
  Js.keys (AdminReports.addCourse attendance d course)
  = if Js.has d (AdminReports.dept course) then Js.keys d
    else Js.keys d ++ [AdminReports.dept course].
Proof.
  unfold AdminReports.addCourse.
  destruct (Js.has d (AdminReports.dept course)) eqn:E.
  - apply has_get in E as Hsome. destruct Hsome as [b Hb]. rewrite Hb.
    by apply keys_set_has.
  - rewrite get_set_eq. rewrite keys_set_has.
    + by rewrite keys_set, E.
    + apply has_get. rewrite get_set_eq. by eexists.
Qed.

Lemma lowerChar_letter c : Js.isLetterAZ (Js.lowerChar c) = Js.isLetterAZ c.
Proof. destruct c as [[] [] [] [] [] [] [] []]; reflexivity. Qed.

Lemma lowerChar_terminator c : Js.isLineTerminator (Js.lowerChar c) = Js.isLineTerminator c.
Proof. destruct c as [[] [] [] [] [] [] [] []]; reflexivity. Qed.

Lemma upperChar_lowerChar c : Js.upperChar (Js.lowerChar c) = Js.upperChar c.
Proof. destruct c as [[] [] [] [] [] [] [] []]; reflexivity. Qed.

Lemma toUpperCase_toLowerCase s : Js.toUpperCase (Js.toLowerCase s) = Js.toUpperCase s.
Proof. induction s as [|c s IH]; simpl; [done|]. by rewrite upperChar_lowerChar, IH. Qed.

Lemma afterLine_toLowerCase s :
  AdminReports.afterLine (Js.toLowerCase s) = Js.toLowerCase (AdminReports.afterLine s).
Proof.
  induction s as [|c s IH]; simpl; [done|].
  rewrite lowerChar_terminator. by destruct (Js.isLineTerminator c).
Qed.

Lemma strip_toLowerCase s :
  AdminReports.stripFromNonLetter (Js.toLowerCase s)
  = Js.toLowerCase (AdminReports.stripFromNonLetter s).
Proof.
  induction s as [|c s IH]; simpl; [done|].
  rewrite lowerChar_letter. destruct (Js.isLetterAZ c); simpl.
  - by rewrite IH.
  - apply afterLine_toLowerCase.
Qed.

Lemma truthy_toLowerCase s : Js.truthy (Js.toLowerCase s) = Js.truthy s.
Proof. by destruct s. Qed.

(** The report key depends on the lower-case form of the code only. *)
Lemma reports_dept_lower (course : Course (list string)) :
  AdminReports.dept course
  = Js.toUpperCase
      (let letters := AdminReports.stripFromNonLetter (Js.toLowerCase (course_code course)) in
       if Js.truthy letters then letters else "GEN").
Proof.
  unfold AdminReports.dept. cbv zeta.
  rewrite strip_toLowerCase, truthy_toLowerCase.
  destruct (Js.truthy _); [|done]. by rewrite toUpperCase_toLowerCase.
Qed.

Lemma slice0_prefix n s :
  ∃ rest, s = Js.slice0 n s +:+ rest
          ∧ String.length (Js.slice0 n s) = Nat.min n (String.length s).
Proof.
  revert s. induction n as [|n IH]; intros s.
  - exists s. by destruct s.
  - destruct s as [|c s]; [by exists ""|].
    destruct (IH s) as (rest & Hrest & Hlen). exists rest.
    split.
    + change (String c s = String c (Js.slice0 n s +:+ rest)). by f_equal.
    + simpl. by rewrite Hlen.
Qed.

Lemma afterLine_single s : multiline s = false → AdminReports.afterLine s = "".
Proof.
  unfold multiline. induction s as [|c s IH]; simpl; [done|].
  intros [Hc Hs]%orb_false_iff. rewrite Hc. by apply IH.
Qed.

Lemma afterLine_line line rest :
  multiline line = false → atLineEnd rest = true →
  AdminReports.afterLine (line +:+ rest) = rest.
Proof.
  unfold multiline. induction line as [|c line IH]; simpl.
  - intros _ Hend. destruct rest as [|t rest]; [done|]. simpl in Hend |- *.
    by rewrite Hend.
  - intros [Hc Hs]%orb_false_iff Hend. rewrite Hc. by apply IH.
Qed.

Lemma strip_letters letters s :
  allLetters letters = true →
  AdminReports.stripFromNonLetter (letters +:+ s)
  = letters +:+ AdminReports.stripFromNonLetter s.
Proof.
  unfold allLetters. induction letters as [|c letters IH]; simpl; [done|].
  intros [Hc Hl]%andb_true_iff. rewrite Hc. by rewrite IH.
Qed.

Lemma strip_all_letters s :
  allLetters s = true → AdminReports.stripFromNonLetter s = s.
Proof.
  unfold allLetters. induction s as [|c s IH]; simpl; [done|].
  intros [Hc Hl]%andb_true_iff. rewrite Hc. by rewrite IH.
Qed.

(** On a code of one line the replacement leaves the leading letters. *)
Lemma strip_single_line s :
  multiline s = false → AdminReports.stripFromNonLetter s = leadingLetters s.
Proof.
  unfold multiline. induction s as [|c s IH]; simpl; [done|].
  intros [Hc Hs]%orb_false_iff. destruct (Js.isLetterAZ c).
  - by rewrite IH.
  - by apply afterLine_single.
Qed.

(** C5 (amended): the admin dashboard buckets a course under the first
    two characters of its code as they are, without folding the letter
    case (under the whole code when it is shorter).  The reports page
    removes from the code its first character that is not a letter
    together with the rest of that line, upper-cases what is left, and
    uses GEN when nothing is left: for a code of one line the key is the
    upper-cased letters with which the code begins.  Both bucket the code
    CS101 under CS, and on the reports page two codes that differ only in
    letter case share a bucket. *)
Theorem department_keys :
  (∀ course : Course (option (list string)),
     ∃ rest, course_code course = AdminDashboard.dept course +:+ rest
             ∧ String.length (AdminDashboard.dept course)
               = Nat.min 2 (String.length (course_code course))) ∧
  (∀ courses course, course ∈ courses →
     Js.has (AdminDashboard.departments courses) (AdminDashboard.dept course) = true) ∧
  (∀ course : Course (list string),
     multiline (course_code course) = false →
     AdminReports.dept course
     = Js.toUpperCase
         (if Js.truthy (leadingLetters (course_code course))
          then leadingLetters (course_code course) else "GEN")) ∧
  (∀ (course : Course (list string)) letters c line rest,
     course_code course = letters +:+ String c line +:+ rest →
     allLetters letters = true → Js.isLetterAZ c = false →
     multiline line = false → atLineEnd rest = true →
     AdminReports.dept course
     = Js.toUpperCase (if Js.truthy (letters +:+ rest) then letters +:+ rest else "GEN")) ∧
  (∀ course : Course (list string),
     allLetters (course_code course) = true →
     AdminReports.dept course
     = Js.toUpperCase (if Js.truthy (course_code course) then course_code course else "GEN")) ∧
  (∀ courses attendance course, course ∈ courses →
     Js.has (AdminReports.deptMap courses attendance) (AdminReports.dept course) = true) ∧
  (∀ roster, AdminDashboard.dept (coded "CS101" roster) = "CS") ∧
  (∀ roster, AdminReports.dept (coded "CS101" roster) = "CS") ∧
  (∀ roster, AdminReports.dept (coded twoLines roster)
             = String "C" (String "S" (String (ascii_of_nat 10) "AB"))) ∧
  (∀ course1 course2 : Course (list string),
     sameUpToCase (course_code course1) (course_code course2) →
     AdminReports.dept course1 = AdminReports.dept course2).
Proof.
  split_and!.
  - intros course. apply slice0_prefix.
  - intros courses course Hin. apply has_keys.
    apply (upsert_fold_keys AdminDashboard.addCourse AdminDashboard.dept
             dashboard_addCourse_keys courses [] (NoDup_nil_2)).
    right. eauto.
  - intros course Hline. unfold AdminReports.dept. cbv zeta.
    by rewrite strip_single_line.
  - intros course letters c line rest Hcode Hletters Hc Hline Hend.
    unfold AdminReports.dept. cbv zeta. rewrite Hcode.
    rewrite strip_letters by done. simpl. rewrite Hc.
    by rewrite afterLine_line.
  - intros course Hletters. unfold AdminReports.dept. cbv zeta.
    by rewrite strip_all_letters.
  - intros courses attendance course Hin. apply has_keys.
    apply (upsert_fold_keys (AdminReports.addCourse attendance) AdminReports.dept
             (reports_addCourse_keys attendance) courses [] (NoDup_nil_2)).
    right. eauto.
  - done.
  - done.
  - done.
  - intros course1 course2 Hsame. rewrite !reports_dept_lower. by rewrite Hsame.
Qed.

Lemma department_keys_witness :
  AdminReports.dept (coded "cs101" ["s1"]) = AdminReports.dept (coded "CS101" [])
  ∧ Js.has (AdminDashboard.departments [coded "EE10" None; coded "cs101" (Some ["s1"])]) "cs"
    = true
  ∧ Js.has (AdminReports.deptMap [coded "EE10" []; coded "cs101" ["s1"]] []) "CS" = true
  ∧ AdminReports.dept (coded "ma-th 7" []) = "MA"
  ∧ AdminReports.dept (coded "42" []) = "GEN".
Proof.
  destruct department_keys
    as (_ & Hdash & Hline & Hsplit & _ & Hreports & _ & _ & _ & Hcase).
  split_and!.
  - apply Hcase. reflexivity.
  - apply (Hdash [coded "EE10" None; coded "cs101" (Some ["s1"])]
             (coded "cs101" (Some ["s1"]))).
    apply elem_of_cons. right. apply elem_of_cons. by left.
  - apply (Hreports [coded "EE10" []; coded "cs101" ["s1"]] [] (coded "cs101" ["s1"])).
    apply elem_of_cons. right. apply elem_of_cons. by left.
  - apply (Hsplit (coded "ma-th 7" []) "ma" "-"%char "th 7" ""); reflexivity.
  - apply (Hline (coded "42" [])). reflexivity.
Defined.

(** C5 as stated fails on both pages: the dashboard keeps the letter case
    (the codes cs101 and CS101 land in the buckets cs and CS), and the
    reports page keeps all leading letters (MATH101 lands in MATH, not
    MA). *)
Lemma department_keys_differ :
  AdminDashboard.dept (coded "cs101" None) = "cs" ∧
  AdminDashboard.dept (coded "cs101" None) ≠ claimedKey "cs101" ∧
  sameUpToCase "cs101" "CS101" ∧
  AdminDashboard.dept (coded "cs101" None) ≠ AdminDashboard.dept (coded "CS101" None) ∧
  AdminReports.dept (coded "MATH101" []) = "MATH" ∧
  AdminReports.dept (coded "MATH101" []) ≠ claimedKey "MATH101".
Proof. split_and!; done. Qed.

End DepartmentKeys.

(** ** Profiles and rosters *)

Section Profiles.

Lemma byId_fst students : map fst (Roster.byId students) = map student_id students.
Proof. unfold Roster.byId. by rewrite map_map. Qed.

Lemma byId_elem_of students id s :
  (id, s) ∈ Roster.byId students ↔ (student_id s = id ∧ s ∈ students).
Proof.
  unfold Roster.byId. rewrite elem_of_map. split.
  - intros (s' & [= -> ->] & Hin). done.
  - intros [<- Hin]. by exists s.
Qed.

Lemma byId_lookup students id s :
  Js.get (Js.MapOf (Roster.byId students)) id = Some s →
  student_id s = id ∧ s ∈ students.
Proof. intros H%MapOf_get_elem_of. by apply byId_elem_of. Qed.

Lemma byId_known students s :
  s ∈ students → is_Some (Js.get (Js.MapOf (Roster.byId students)) (student_id s)).
Proof.
  intros Hin. apply has_get, MapOf_has. rewrite byId_fst.
  apply elem_of_map. by exists s.
Qed.

Lemma byId_values students s :
  s ∈ Js.values (Js.MapOf (Roster.byId students)) → s ∈ students.
Proof.
  intros (k & Hin)%values_elem_of.
  apply elem_of_get in Hin; [|apply MapOf_NoDup]. by apply byId_lookup in Hin as [_ ?].
Qed.

Lemma byId_values_ids students :
  map student_id (Js.values (Js.MapOf (Roster.byId students)))
  = Js.keys (Js.MapOf (Roster.byId students)).
Proof.
  assert (∀ entry, entry ∈ Js.MapOf (Roster.byId students) →
                   student_id (snd entry) = fst entry) as H.
  { intros [k s] Hin. apply elem_of_get in Hin; [|apply MapOf_NoDup].
    by apply byId_lookup in Hin as [? _]. }
  unfold Js.values, Js.keys. rewrite map_map.
  induction (Js.MapOf (Roster.byId students)) as [|entry m IH]; simpl; [done|].
  rewrite H by (apply elem_of_cons; by left).
  rewrite IH; [done|]. intros e He. apply H, elem_of_cons. by right.
Qed.

Lemma resolve_elem_of lookup ids s :
  s ∈ Roster.resolve lookup ids ↔ ∃ id, id ∈ ids ∧ Js.get lookup id = Some s.
Proof. unfold Roster.resolve. apply list_elem_of_omap. Qed.

(** The flattened list of students: every member of a roster, once. *)
Lemma flatten_spec (lookup : Js.Dict Student) (rosterMap : Js.Dict (list Student)) :
  (∀ roster s, roster ∈ Js.values rosterMap → s ∈ roster →
     Js.get lookup (student_id s) = Some s) →
  NoDup (map student_id (Roster.flatten rosterMap)) ∧
  ∀ s, s ∈ Roster.flatten rosterMap ↔ ∃ roster, s ∈ roster ∧ roster ∈ Js.values rosterMap.
Proof.
  intros Hlookup. unfold Roster.flatten. split.
  - rewrite byId_values_ids. apply MapOf_NoDup.
  - intros s. rewrite <- elem_of_concat. split; [apply byId_values|].
    intros Hin. pose proof (byId_known _ _ Hin) as [s' Hs'].
    apply values_elem_of. exists (student_id s).
    apply elem_of_get; [apply MapOf_NoDup|]. rewrite Hs'. f_equal.
    apply byId_lookup in Hs' as [Hid Hin'].
    apply elem_of_concat in Hin as (r & Hr & Hrin), Hin' as (r' & Hr' & Hrin').
    pose proof (Hlookup _ _ Hrin Hr) as H1. pose proof (Hlookup _ _ Hrin' Hr') as H2.
    rewrite Hid in H2. congruence.
Qed.

Lemma fetchMissing_elem_of t students ids s :
  s ∈ Roster.fetchMissing t students ids → s ∈ Api.Students t.
Proof.
  unfold Roster.fetchMissing, Api.getStudentsByIds.
  destruct (filter _ ids); [by intros ?%elem_of_nil|].
  by intros [_ ?]%list_elem_of_filter.
Qed.

Lemma known_elem_of students id :
  Roster.known students id = true ↔ ∃ s, s ∈ students ∧ student_id s = id.
Proof.
  unfold Roster.known. induction students as [|s0 students IH]; simpl.
  - split; [done | by intros (s & ?%elem_of_nil & _)].
  - rewrite orb_true_iff, IH. setoid_rewrite elem_of_cons. split.
    + intros [Heq%String.eqb_eq|(s & Hs & Hid)]; [by exists s0; auto | by exists s; auto].
    + intros (s & [->|Hs] & Hid); [left; by apply String.eqb_eq | right; by exists s].
Qed.

(** The batched fetch brings every stored profile whose id is asked for
    and not yet known. *)
Lemma fetchMissing_complete t students ids s :
  s ∈ Api.Students t → student_id s ∈ ids →
  Roster.known students (student_id s) = false →
  s ∈ Roster.fetchMissing t students ids.
Proof.
  intros Hs Hid Hknown. unfold Roster.fetchMissing.
  assert (student_id s ∈ filter (λ id, Roster.known students id = false) ids) as Hin
    by (by apply list_elem_of_filter).
  destruct (filter _ ids) as [|id missing] eqn:E; [by apply elem_of_nil in Hin|].
  unfold Api.getStudentsByIds. apply list_elem_of_filter.
  split; [by apply includes_elem_of | done].
Qed.

(** A profile that is known, or stored under an id that is asked for, is
    found by the lookup built from the known and the fetched profiles. *)
Lemma combined_resolves t students ids s :
  s ∈ students ∨ s ∈ Api.Students t → student_id s ∈ ids →
  ∃ s', s' ∈ students ++ Roster.fetchMissing t students ids ∧
        student_id s' = student_id s.
Proof.
  intros Hs Hid. destruct (Roster.known students (student_id s)) eqn:Hknown.
  - apply known_elem_of in Hknown as (s' & Hs' & Heq).
    exists s'. split; [apply elem_of_app; by left | done].
  - destruct Hs as [Hs|Hs].
    + assert (Roster.known students (student_id s) = true) as Hk
        by (apply known_elem_of; by exists s).
      congruence.
    + exists s. split; [|done]. apply elem_of_app. right.
      by apply fetchMissing_complete.
Qed.

(** Normalizing the courses never fails, and changes nothing but the
    roster field. *)
Lemma normalizeCourses_normal (e : Json.Engine) (courseList : list (Course RosterField)) :
  ∃ normalizedCourses,
    Js.mapM (Roster.normalizeCourse e) courseList = Js.Normal normalizedCourses ∧
    Forall2 (λ raw course,
               course_id course = course_id raw ∧
               course_name course = course_name raw ∧
               course_teacherId course = course_teacherId raw ∧
               RosterUtils.normalizeStudentIds e
                 (RosterUtils.ofField (course_studentIds raw))
               = Js.Normal (course_studentIds course))
      courseList normalizedCourses.
Proof.
  induction courseList as [|raw l (l' & Hl & Hall)]; simpl.
  - exists []. by split.
  - destruct (normalizeStudentIds_total e (course_studentIds raw)) as [ids Hids].
    unfold Roster.normalizeCourse at 1. rewrite Hids. simpl. rewrite Hl. simpl.
    eexists. split; [done|]. by constructor.
Qed.

End Profiles.

(** ** Roster reconciliation on the attendance page *)

Section Reconcile.

Import TeacherAttendance Reconciliation Examples.

Implicit Types (tc : list (Course (list string))) (d : Js.Dict (list string)).

Lemma seed_MapOf tc :
  seed tc = Js.MapOf (map (λ c, (course_id c, course_studentIds c)) tc).
Proof.
  unfold seed, Js.MapOf. generalize ([] : Js.Dict (list string)).
  induction tc as [|c tc IH]; intros acc; simpl; [done | apply IH].
Qed.

Lemma seed_covers tc : covers tc (seed tc).
Proof. intros k. by rewrite seed_MapOf, MapOf_has, map_map. Qed.

Lemma seed_NoDup tc : NoDup (Js.keys (seed tc)).
Proof. rewrite seed_MapOf. apply MapOf_NoDup. Qed.

Lemma seed_get tc course :
  NoDup (map course_id tc) → course ∈ tc →
  Js.get (seed tc) (course_id course) = Some (course_studentIds course).
Proof.
  intros Hnd Hin. rewrite seed_MapOf. apply MapOf_get_unique.
  - by rewrite map_map.
  - apply elem_of_map. by exists course.
Qed.

Lemma hasCourseId_truthy r id : hasCourseId r = Some id → Js.truthy id = true.
Proof.
  unfold hasCourseId. destruct (att_courseId r) as [id'|]; [|done].
  destruct (Js.truthy id') eqn:E; [|done]. by intros [= <-].
Qed.

Lemma existsb_course_id tc id :
  existsb (λ course, String.eqb (course_id course) id) tc
  = Js.includes (map course_id tc) id.
Proof.
  unfold Js.includes. induction tc as [|c tc IH]; simpl; [done|].
  by rewrite IH, (String.eqb_sym id).
Qed.

Lemma find_named_elem_of tc name course :
  find (named name) tc = Some course → course ∈ tc ∧ course_name course = name.
Proof.
  intros H. apply find_some in H as [Hin Hname].
  split; [by apply list_elem_of_In | by apply String.eqb_eq].
Qed.

Lemma assigned_elem_of tc r k :
  assigned tc r = Some k →
  relevant tc r = true ∧ k ∈ map course_id tc ∧ Js.truthy k = true.
Proof.
  unfold assigned, relevant.
  destruct (hasCourseId r) as [id|] eqn:Eid.
  - rewrite existsb_course_id.
    destruct (Js.includes (map course_id tc) id) eqn:E; [|done].
    intros [= <-]. split_and!; [done | by apply includes_elem_of |].
    by apply hasCourseId_truthy in Eid.
  - destruct (find (named (att_courseName r)) tc) as [course|] eqn:Ef; [|done].
    destruct (Js.truthy (course_id course)) eqn:Et; [|done].
    intros [= <-]. apply find_named_elem_of in Ef as [Hin Hname].
    split_and!; [| apply elem_of_map; by exists course | done].
    apply includes_elem_of, SetOf_elem_of, elem_of_map. by exists course.
Qed.

(** On a relevant record the loop picks the course that [assigned] names. *)
Lemma courseId_assigned tc d r :
  covers tc d → relevant tc r = true →
  match courseIdFromRecord tc d r with
  | Some id => if Js.truthy id then Some id else None
  | None => None
  end = assigned tc r.
Proof.
  intros Hcov. unfold relevant, courseIdFromRecord, assigned.
  destruct (hasCourseId r) as [id|] eqn:Eid.
  - rewrite existsb_course_id. intros Hrel. rewrite Hrel.
    apply includes_elem_of, Hcov in Hrel. rewrite Hrel.
    by rewrite (hasCourseId_truthy r id).
  - intros _. fold (named (att_courseName r)).
    by destruct (find (named (att_courseName r)) tc).
Qed.

Lemma addRecord_get tc d r :
  covers tc d → relevant tc r = true →
  Js.keys (addRecord tc d r) = Js.keys d ∧
  ∀ k, Js.get (addRecord tc d r) k
       = (λ ids, if decide (assigned tc r = Some k)
                 then Js.SetAdd ids (att_studentId r) else ids) <$> Js.get d k.
Proof.
  intros Hcov Hrel. pose proof (courseId_assigned tc d r Hcov Hrel) as Hassign.
  unfold addRecord.
  destruct (courseIdFromRecord tc d r) as [id|]; simpl in *.
  - destruct (Js.truthy id) eqn:Et; simpl.
    + symmetry in Hassign. destruct (assigned_elem_of _ _ _ Hassign) as (_ & Hin & _).
      apply Hcov in Hin. rewrite Hin. apply has_get in Hin as Hsome.
      destruct Hsome as [ids Hids]. rewrite Hids. rewrite Hassign.
      unfold Js.SetAdd. destruct (Js.includes ids (att_studentId r)) eqn:Einc.
      * split; [done|]. intros k. destruct (Js.get d k) eqn:Ek; simpl; [|done].
        case_decide as Hk; [|done]. injection Hk as ->.
        rewrite Hids in Ek. injection Ek as <-. by rewrite Einc.
      * split; [by apply keys_set_has|]. intros k. rewrite get_set.
        case_decide as Hk.
        -- subst k. rewrite Hids. simpl. case_decide; [|done].
           by rewrite Einc.
        -- destruct (Js.get d k); simpl; [|done].
           case_decide; [congruence | done].
    + split; [done|]. intros k.
      destruct (Js.get d k); simpl; [|done]. case_decide; [congruence | done].
  - split; [done|]. intros k.
    destruct (Js.get d k); simpl; [|done]. case_decide; [congruence | done].
Qed.

Lemma covers_keys tc d d' : Js.keys d' = Js.keys d → covers tc d → covers tc d'.
Proof. intros Hk Hcov k. rewrite has_keys, Hk, <- has_keys. apply Hcov. Qed.

Lemma entries_fold tc rs : ∀ d,
  covers tc d → Forall (λ r, relevant tc r = true) rs →
  Js.keys (fold_left (addRecord tc) rs d) = Js.keys d ∧
  ∀ k, Js.get (fold_left (addRecord tc) rs d) k = collect tc k rs <$> Js.get d k.
Proof.
  induction rs as [|r rs IH]; intros d Hcov Hall; simpl.
  - split; [done|]. intros k. by destruct (Js.get d k).
  - apply Forall_cons in Hall as [Hr Hall].
    destruct (addRecord_get tc d r Hcov Hr) as [Hkeys Hget].
    destruct (IH (addRecord tc d r) (covers_keys _ _ _ Hkeys Hcov) Hall) as [Hkeys' Hget'].
    split; [congruence|]. intros k. rewrite Hget', Hget.
    by destruct (Js.get d k).
Qed.

Lemma collect_relevant tc k attendance : ∀ ids,
  collect tc k (filter (λ r, relevant tc r = true) attendance) ids
  = collect tc k attendance ids.
Proof.
  unfold collect. induction attendance as [|r rs IH]; intros ids; [done|].
  rewrite filter_cons. simpl. case_decide as Hrel; simpl; [apply IH|].
  rewrite IH. case_decide as Hk; [|done].
  apply assigned_elem_of in Hk as [? _]. congruence.
Qed.

Lemma collect_spec tc k rs : ∀ ids,
  ∃ extra, collect tc k rs ids = ids ++ extra ∧ NoDup extra ∧
    ∀ x, x ∈ extra ↔
      ((x ∉ ids) ∧ ∃ r, r ∈ rs ∧ assigned tc r = Some k ∧ att_studentId r = x).
Proof.
  unfold collect. induction rs as [|r rs IH]; intros ids; simpl.
  - exists []. split_and!; [by rewrite app_nil_r | apply NoDup_nil_2 |].
    intros x. split; [by intros ?%elem_of_nil|].
    by intros (_ & r & ?%elem_of_nil & _).
  - case_decide as Hk.
    + destruct (Js.includes ids (att_studentId r)) eqn:Einc.
      * assert (Js.SetAdd ids (att_studentId r) = ids) as ->
          by (unfold Js.SetAdd; by rewrite Einc).
        apply includes_elem_of in Einc.
        destruct (IH ids) as (extra & Heq & Hnd & Hmem).
        exists extra. split_and!; [done | done |]. intros x. rewrite Hmem.
        setoid_rewrite elem_of_cons. split; [naive_solver|].
        intros (Hx & r' & [->|Hr'] & Ha & Hs); [congruence | eauto].
      * assert (Js.SetAdd ids (att_studentId r) = ids ++ [att_studentId r]) as ->
          by (unfold Js.SetAdd; by rewrite Einc).
        apply includes_not_elem_of in Einc.
        destruct (IH (ids ++ [att_studentId r])) as (extra & Heq & Hnd & Hmem).
        exists (att_studentId r :: extra).
        split_and!; [by rewrite Heq, <- app_assoc | |].
        -- apply NoDup_cons. split; [|done]. rewrite Hmem.
           intros [Hx _]. apply Hx, elem_of_app. right. by apply list_elem_of_singleton.
        -- intros x. rewrite elem_of_cons, Hmem, elem_of_app, list_elem_of_singleton.
           setoid_rewrite elem_of_cons. split.
           ++ intros [->|(Hx & r' & Hr' & Ha & Hs)]; [eauto 10|].
              split; [tauto | eauto 10].
           ++ intros (Hx & r' & [->|Hr'] & Ha & Hs); [by left|].
              destruct (decide (x = att_studentId r)) as [->|Hne]; [by left|].
              right. split; [tauto | eauto].
    + destruct (IH ids) as (extra & Heq & Hnd & Hmem).
      exists extra. split_and!; [done | done |]. intros x. rewrite Hmem.
      setoid_rewrite elem_of_cons. split; [naive_solver|].
      intros (Hx & r' & [->|Hr'] & Ha & Hs); [congruence | eauto].
Qed.

(** The id list gathered for a course: its declared roster followed by
    the new student ids of the records assigned to it. *)
Lemma rosterEntries_spec tc attendance course :
  NoDup (map course_id tc) → course ∈ tc →
  let entries := rosterEntries tc (filter (λ r, relevant tc r = true) attendance) in
  NoDup (Js.keys entries) ∧
  ∃ extra,
    Js.get entries (course_id course) = Some (course_studentIds course ++ extra) ∧
    NoDup extra ∧
    ∀ x, x ∈ extra ↔
      ((x ∉ course_studentIds course) ∧
       ∃ r, r ∈ attendance ∧ assigned tc r = Some (course_id course) ∧ att_studentId r = x).
Proof.
  intros Hnd Hin entries. subst entries. unfold rosterEntries.
  destruct (entries_fold tc (filter (λ r, relevant tc r = true) attendance) (seed tc))
    as [Hkeys Hget]; [apply seed_covers | |].
  { apply Forall_forall. by intros r [Hr _]%list_elem_of_filter. }
  split; [rewrite Hkeys; apply seed_NoDup|].
  rewrite Hget, seed_get by done. simpl. rewrite collect_relevant.
  destruct (collect_spec tc (course_id course) attendance (course_studentIds course))
    as (extra & Heq & Hnd' & Hmem).
  exists extra. by rewrite Heq.
Qed.

Lemma lookupOf_sound t initialStudents d id s :
  Js.get (lookupOf t initialStudents d) id = Some s →
  student_id s = id ∧ (s ∈ initialStudents ∨ s ∈ Api.Students t).
Proof.
  unfold lookupOf. intros [Hid Hin]%byId_lookup. split; [done|].
  apply byId_values in Hin. apply elem_of_app in Hin as [?|Hf]; [by left|].
  right. by apply fetchMissing_elem_of in Hf.
Qed.

Lemma lookupOf_initial t initialStudents d s :
  s ∈ initialStudents → is_Some (Js.get (lookupOf t initialStudents d) (student_id s)).
Proof.
  intros Hin. unfold lookupOf.
  set (everyone := initialStudents ++ _).
  assert (s ∈ everyone) as Hall by (apply elem_of_app; by left).
  destruct (byId_known everyone s Hall) as [s' Hs'].
  pose proof (byId_lookup _ _ _ Hs') as [Hid _]. rewrite <- Hid.
  apply byId_known, values_elem_of. exists (student_id s). by apply get_elem_of.
Qed.

Lemma lookupOf_complete t initialStudents d s :
  s ∈ initialStudents ∨ s ∈ Api.Students t →
  student_id s ∈ Js.SetOf (nonEmpty (concat (Js.values d))) →
  is_Some (Js.get (lookupOf t initialStudents d) (student_id s)).
Proof.
  intros Hs Hid. unfold lookupOf.
  destruct (combined_resolves t initialStudents _ s Hs Hid) as (s1 & Hs1 & Heq1).
  destruct (byId_known _ s1 Hs1) as [s2 Hs2].
  pose proof (byId_lookup _ _ _ Hs2) as [Heq2 _].
  rewrite <- Heq1, <- Heq2.
  apply byId_known, values_elem_of. exists (student_id s1). by apply get_elem_of.
Qed.

Lemma Forall2_elem_of_r {A B} (P : A → B → Prop) l l' y :
  Forall2 P l l' → y ∈ l' → ∃ x, x ∈ l ∧ P x y.
Proof.
  induction 1 as [|x y' l l' Hxy _ IH]; [by intros ?%elem_of_nil|].
  intros [->|Hin]%elem_of_cons.
  - exists x. split; [apply elem_of_cons; by left | done].
  - destruct (IH Hin) as (x' & Hx' & HP). exists x'.
    split; [apply elem_of_cons; by right | done].
Qed.

(** The state after a load is the cleared one, or the one built from the
    courses of the teacher. *)
Lemma loadAttendanceData_cases e t userId allCourses initialStudents attendance :
  let state := loadAttendanceData e t userId allCourses initialStudents attendance in
  state = cleared ∨
  ∃ uid normalizedCourses,
    userId = Some uid ∧
    Js.mapM (Roster.normalizeCourse e) allCourses = Js.Normal normalizedCourses ∧
    let teacherCourses := filter (λ course, course_teacherId course = uid) normalizedCourses in
    let relevantRecords := filter (λ r, relevant teacherCourses r = true) attendance in
    let entries := rosterEntries teacherCourses relevantRecords in
    let rosterMap := Js.mapEntries (rosterOf (lookupOf t initialStudents entries)) entries in
    state = mkState teacherCourses rosterMap (Roster.flatten rosterMap) relevantRecords.
Proof.
  unfold loadAttendanceData. destruct userId as [uid|]; [|by left].
  destruct (Js.truthy uid); simpl; [|by left].
  unfold load.
  destruct (normalizeCourses_normal e allCourses) as (normalized & Hn & _).
  rewrite Hn. simpl.
  destruct (filter _ normalized) as [|c tc] eqn:Etc; [by left|].
  right. exists uid, normalized. rewrite Etc. by split_and!.
Qed.

(** The id lists of the roster object in closed form. *)
Lemma rosterEntries_closed tc attendance :
  let entries := rosterEntries tc (filter (λ r, relevant tc r = true) attendance) in
  Js.keys entries = Js.keys (seed tc) ∧
  ∀ k, Js.get entries k = collect tc k attendance <$> Js.get (seed tc) k.
Proof.
  intros entries. subst entries. unfold rosterEntries.
  destruct (entries_fold tc (filter (λ r, relevant tc r = true) attendance) (seed tc))
    as [Hkeys Hget]; [apply seed_covers | |].
  { apply Forall_forall. by intros r [Hr _]%list_elem_of_filter. }
  split; [done|]. intros k. rewrite Hget.
  destruct (Js.get (seed tc) k); simpl; [|done]. by rewrite collect_relevant.
Qed.

Lemma find_named_some tc course :
  course ∈ tc →
  ∃ target, find (named (course_name course)) tc = Some target
            ∧ target ∈ tc ∧ course_name target = course_name course.
Proof.
  intros Hin.
  destruct (find (named (course_name course)) tc) as [target|] eqn:Ef.
  - exists target. split; [done|]. by apply find_named_elem_of.
  - exfalso. apply list_elem_of_In in Hin.
    pose proof (find_none _ _ Ef course Hin) as Hno.
    unfold named in Hno. by rewrite String.eqb_refl in Hno.
Qed.

Lemma find_id_none tc id :
  id ∉ map course_id tc → find (λ course, String.eqb (course_id course) id) tc = None.
Proof.
  intros Hid. destruct (find _ tc) as [c|] eqn:Ef; [|done].
  apply find_some in Ef as [Hin Heq]. apply String.eqb_eq in Heq.
  exfalso. apply Hid, elem_of_map. exists c. split; [done|]. by apply list_elem_of_In.
Qed.

(** A record that carries the id of no course of the teacher, and the
    name of one: the roster loop and the list of recent records would
    take it by its name, the filter before them rejects it. *)
Lemma name_behind_unknown_id tc record course id :
  course ∈ tc → att_courseName record = course_name course →
  hasCourseId record = Some id → id ∉ map course_id tc →
  (∃ target, target ∈ tc ∧ course_name target = att_courseName record ∧
             resolved tc record = Some (course_id target) ∧
             courseIdFromRecord tc (seed tc) record = Some (course_id target)) ∧
  AttendancePage.shown tc record = true ∧
  relevant tc record = false ∧
  assigned tc record = None.
Proof.
  intros Hin Hname Hid Hnot.
  assert (att_courseId record = Some id) as Hraw.
  { unfold hasCourseId in Hid. destruct (att_courseId record) as [id'|]; [|done].
    destruct (Js.truthy id'); [|done]. by injection Hid as ->. }
  assert (Js.includes (map course_id tc) id = false) as Hinc
    by (by apply includes_not_elem_of).
  split_and!.
  - destruct (find_named_some tc course Hin) as (target & Hfind & Htarget & Htname).
    exists target. split_and!; [done | congruence | |].
    + unfold resolved. rewrite Hraw, (find_id_none tc id Hnot), Hname, Hfind. done.
    + unfold courseIdFromRecord. rewrite Hid.
      assert (Js.has (seed tc) id = false) as ->.
      { apply has_false_keys. intros Hk. apply has_keys, seed_covers in Hk. done. }
      rewrite Hname. fold (named (course_name course)). by rewrite Hfind.
  - unfold AttendancePage.shown. apply existsb_exists. exists course.
    split; [by apply list_elem_of_In|]. rewrite Hname, String.eqb_refl.
    apply orb_true_r.
  - unfold relevant. by rewrite Hid, existsb_course_id.
  - unfold assigned. by rewrite Hid, Hinc.
Qed.

(** The courses of the page do not depend on the attendance records. *)
Lemma loadAttendanceData_courses e t userId allCourses initialStudents attendance attendance' :
  courses (loadAttendanceData e t userId allCourses initialStudents attendance)
  = courses (loadAttendanceData e t userId allCourses initialStudents attendance').
Proof.
  unfold loadAttendanceData. destruct userId as [uid|]; [|done].
  destruct (Js.truthy uid); simpl; [|done]. unfold load.
  destruct (Js.mapM _ allCourses) as [normalized|]; simpl; [|done].
  by destruct (filter _ normalized).
Qed.

Lemma filter_relevant_idem tc (attendance : list AttendanceRecord) :
  filter (λ r, relevant tc r = true) (filter (λ r, relevant tc r = true) attendance)
  = filter (λ r, relevant tc r = true) attendance.
Proof.
  induction attendance as [|r rs IH]; [done|].
  rewrite filter_cons. case_decide as Hr; [|done].
  rewrite filter_cons. case_decide; [|done]. by rewrite IH.
Qed.

(** Only the records that pass the filter take part in a load. *)
Lemma loadAttendanceData_relevant e t userId allCourses initialStudents attendance :
  let state := loadAttendanceData e t userId allCourses initialStudents attendance in
  loadAttendanceData e t userId allCourses initialStudents
    (filter (λ r, relevant (courses state) r = true) attendance)
  = state.
Proof.
  intros state. subst state.
  unfold loadAttendanceData. destruct userId as [uid|]; [|done].
  destruct (Js.truthy uid); simpl; [|done]. unfold load.
  destruct (Js.mapM _ allCourses) as [normalized|]; simpl; [|done].
  destruct (filter _ normalized) as [|c tc] eqn:Etc; [done|].
  cbn [courses]. by rewrite filter_relevant_idem.
Qed.

(** C3: the roster object of the attendance page starts, for each course
    of the teacher, from the declared normalized roster, and each record
    adds its student id, once and after the ids already present, to the
    course it is assigned to; the final roster of a course maps the ids,
    in that order and without empty or repeated ids, to the profiles
    found among the known students or fetched by id from the store, and
    leaves out the ids without a profile.  But a record is assigned by
    its course name only when it carries no course id: a record that
    carries the id of no course of the teacher is rejected by the filter
    that precedes the roster loop, although the loop itself, like the list
    of recent records, would take it by its course name.  Such a record
    changes nothing: with the course C1 of declared roster [s1], a record
    of student s2 with the course id C9 and the course name of C1 leaves
    the roster [s1], where the record of s2 with the course id C1 gives
    [s1, s2]. *)
Theorem roster_reconciliation e t userId allCourses initialStudents attendance :
  let state := loadAttendanceData e t userId allCourses initialStudents attendance in
  (∃ lookup,
     (∀ id s, Js.get lookup id = Some s →
        student_id s = id ∧ (s ∈ initialStudents ∨ s ∈ Api.Students t)) ∧
     (∀ s, s ∈ initialStudents → is_Some (Js.get lookup (student_id s))) ∧
     (∀ k, Js.has (courseRosters state) k = true ↔ k ∈ map course_id (courses state)) ∧
     (∀ k declared, Js.get (seed (courses state)) k = Some declared →
        let ids := collect (courses state) k attendance declared in
        (∀ s, s ∈ initialStudents ∨ s ∈ Api.Students t →
              student_id s ∈ nonEmpty ids →
              is_Some (Js.get lookup (student_id s))) ∧
        Js.get (courseRosters state) k
        = Some (Roster.resolve lookup (Js.SetOf (nonEmpty ids))))) ∧
  (NoDup (map course_id (courses state)) →
   ∀ course, course ∈ courses state →
     Js.get (seed (courses state)) (course_id course) = Some (course_studentIds course)) ∧
  (∀ course, course ∈ courses state →
     userId = Some (course_teacherId course) ∧
     ∃ raw, raw ∈ allCourses ∧ course_id raw = course_id course ∧
            RosterUtils.normalizeStudentIds e (RosterUtils.ofField (course_studentIds raw))
            = Js.Normal (course_studentIds course)) ∧
  (∀ record course id,
     course ∈ courses state → att_courseName record = course_name course →
     hasCourseId record = Some id → id ∉ map course_id (courses state) →
     (∃ target, target ∈ courses state ∧ course_name target = att_courseName record ∧
                resolved (courses state) record = Some (course_id target) ∧
                courseIdFromRecord (courses state) (seed (courses state)) record
                = Some (course_id target)) ∧
     AttendancePage.shown (courses state) record = true ∧
     relevant (courses state) record = false ∧
     assigned (courses state) record = None ∧
     record ∉ records state) ∧
  loadAttendanceData e t userId allCourses initialStudents
    (filter (λ r, relevant (courses state) r = true) attendance) = state ∧
  courseRosters stateById = [("C1", [pupil "s1" "Ada"; pupil "s2" "Emmy"])] ∧
  resolved (courses stateByName) recordByName = Some "C1" ∧
  courseRosters stateByName = [("C1", [pupil "s1" "Ada"])].
Proof.
  intros state.
  assert (∀ record, record ∈ records state → relevant (courses state) record = true)
    as Hrecords.
  { destruct (loadAttendanceData_cases e t userId allCourses initialStudents attendance)
      as [Hc|(uid & normalized & -> & Hn & Hstate)];
      first [fold state in Hc | fold state in Hstate].
    - rewrite Hc. by intros record ?%elem_of_nil.
    - cbv zeta in Hstate. rewrite Hstate. cbn [courses records].
      by intros record [Hr _]%list_elem_of_filter. }
  pose proof (loadAttendanceData_relevant e t userId allCourses initialStudents attendance)
    as Hsame.
  fold state in Hsame.
  split_and!; [| | | | exact Hsame | done | done | done].
  - destruct (loadAttendanceData_cases e t userId allCourses initialStudents attendance)
      as [Hc|(uid & normalized & -> & Hn & Hstate)];
      first [fold state in Hc | fold state in Hstate].
    + rewrite Hc. exists (lookupOf t initialStudents []).
      split_and!; [apply lookupOf_sound | apply lookupOf_initial | |].
      * intros k. cbn. split; [done | by intros ?%elem_of_nil].
      * by intros k declared.
    + cbv zeta in Hstate. rewrite Hstate. cbn [courses courseRosters].
      set (tc := filter (λ course, course_teacherId course = uid) normalized).
      set (rel := filter (λ r, relevant tc r = true) attendance).
      set (lookup := lookupOf t initialStudents (rosterEntries tc rel)).
      destruct (rosterEntries_closed tc attendance) as [Hkeys Hget].
      fold rel in Hkeys, Hget.
      assert (NoDup (Js.keys (rosterEntries tc rel))) as Hnd
        by (rewrite Hkeys; apply seed_NoDup).
      exists lookup. split_and!; [apply lookupOf_sound | apply lookupOf_initial | |].
      * intros k. rewrite has_keys, mapEntries_keys, Hkeys, <- has_keys by done.
        apply seed_covers.
      * intros k declared Hdecl. cbv zeta.
        assert (Js.get (rosterEntries tc rel) k = Some (collect tc k attendance declared))
          as Hids by (by rewrite Hget, Hdecl).
        split.
        -- intros s Hs Hid. apply lookupOf_complete; [done|].
           apply SetOf_elem_of. unfold nonEmpty in *.
           apply list_elem_of_filter in Hid as [Hne Hid].
           apply list_elem_of_filter. split; [done|].
           apply elem_of_concat. exists (collect tc k attendance declared).
           split; [done|]. apply values_elem_of. exists k.
           by apply get_elem_of.
        -- rewrite mapEntries_get by done. by rewrite Hids.
  - intros Hnd course Hin. by apply seed_get.
  - destruct (loadAttendanceData_cases e t userId allCourses initialStudents attendance)
      as [Hc|(uid & normalized & -> & Hn & Hstate)];
      first [fold state in Hc | fold state in Hstate].
    + rewrite Hc. by intros course ?%elem_of_nil.
    + cbv zeta in Hstate. rewrite Hstate. cbn [courses].
      intros course [Ht Hin]%list_elem_of_filter. split; [by rewrite Ht|].
      destruct (normalizeCourses_normal e allCourses) as (normalized' & Hn' & Hall).
      rewrite Hn in Hn'. injection Hn' as <-.
      destruct (Forall2_elem_of_r _ _ _ _ Hall Hin) as (raw & Hraw & Hid & _ & _ & Hids).
      exists raw. by split_and!.
  - intros record course id Hin Hname Hid Hnot.
    destruct (name_behind_unknown_id (courses state) record course id Hin Hname Hid Hnot)
      as (Htarget & Hshown & Hrel & Hassigned).
    split_and!; [done | done | done | done |].
    intros Hrec. apply Hrecords in Hrec. congruence.
Qed.

Lemma roster_reconciliation_witness :
  courseRosters stateByName = courseRosters
    (loadAttendanceData rejectingEngine noTables (Some "t1") [courseC1]
       [pupil "s1" "Ada"; pupil "s2" "Emmy"] [])
  ∧ (recordByName ∉ records stateByName)
  ∧ AttendancePage.shown (courses stateByName) recordByName = true
  ∧ ∃ lookup,
      Js.get (courseRosters stateById) "C1"
      = Some (Roster.resolve lookup (Js.SetOf (nonEmpty ["s1"; "s2"]))).
Proof.
  destruct (roster_reconciliation rejectingEngine noTables (Some "t1") [courseC1]
              [pupil "s1" "Ada"; pupil "s2" "Emmy"] [recordByName])
    as (_ & _ & _ & Hbug & Hsame & _).
  destruct (Hbug recordByName (mkCourse "C1" "Algebra" "MA101" "t1" "Noether" ["s1"]) "C9")
    as (_ & Hshown & Hrel & _ & Hout).
  { apply elem_of_cons. by left. }
  { reflexivity. }
  { reflexivity. }
  { intros Hin. apply list_elem_of_singleton in Hin. discriminate Hin. }
  destruct (roster_reconciliation rejectingEngine noTables (Some "t1") [courseC1]
              [pupil "s1" "Ada"; pupil "s2" "Emmy"] [recordById])
    as ((lookup & _ & _ & _ & Hrosters) & Hseed & _).
  split_and!.
  - unfold stateByName. rewrite <- Hsame at 1. reflexivity.
  - exact Hout.
  - exact Hshown.
  - exists lookup.
    destruct (Hrosters "C1" ["s1"]) as [_ Hget].
    + apply (Hseed (NoDup_singleton "C1")
               (mkCourse "C1" "Algebra" "MA101" "t1" "Noether" ["s1"])).
      apply elem_of_cons. by left.
    + exact Hget.
Defined.

(** The claim fails on that record: the course reference of the record
    resolves to the course C1 by its name, and student s2, whose profile
    is known, is not in the roster of C1. *)
Lemma roster_ignores_name_behind_unknown_id :
  resolved (courses stateByName) recordByName = Some "C1" ∧
  courseRosters stateByName = [("C1", [pupil "s1" "Ada"])] ∧
  ¬ rostersFollowResolution stateByName [pupil "s1" "Ada"; pupil "s2" "Emmy"]
      [recordByName].
Proof.
  split_and!; [done | done |].
  intros H.
  destruct (H (mkCourse "C1" "Algebra" "MA101" "t1" "Noether" ["s1"])
              recordByName (pupil "s2" "Emmy")) as (roster & Hget & Hin).
  - apply elem_of_cons. by left.
  - apply elem_of_cons. by left.
  - done.
  - apply elem_of_cons. right. apply elem_of_cons. by left.
  - done.
  - change (Js.get (courseRosters stateByName) "C1") with (Some [pupil "s1" "Ada"]) in Hget.
    injection Hget as <-. apply list_elem_of_singleton in Hin. discriminate Hin.
Qed.

End Reconcile.

(** ** The student list of a teacher *)

Section TeacherList.

Import TeacherStudents TeacherRosters Examples.

Implicit Types (d : Js.Dict (list string)).















End TeacherList.

(** * Further properties *)

(** ** Attendance statistics: order, bounds, concatenation *)

Section AttendanceMore.

Import AttendanceUtils Attendance AttendanceGrouping.

Lemma tally_Permutation P records records' :
  records ≡ₚ records' → tally P records = tally P records'.
Proof.
  unfold tally. induction 1 as [|r l l' _ IH|r r' l|l l' l'' _ IH1 _ IH2]; simpl.
  - done.
  - destruct (P r); simpl; by rewrite IH.
  - by destruct (P r), (P r').
  - by rewrite IH1.
Qed.

Lemma tally_app P records records' :
  tally P (records ++ records') = (tally P records + tally P records')%nat.
Proof. unfold tally. by rewrite List.filter_app, length_app. Qed.

Lemma tally_canonical records :
  (tally (normalizesTo present) records + tally (normalizesTo late) records
   + tally (normalizesTo absent) records ≤ tally counted records)%nat.
Proof.
  unfold tally, normalizesTo, counted.
  induction records as [|r records IH]; simpl; [done|].
  destruct (normalizeAttendanceStatus (att_status r)) as [[]| |]; simpl; lia.
Qed.

(** The statistics do not depend on the order of the records. *)
Theorem stats_order_independent records records' :
  records ≡ₚ records' →
  calculateAttendanceStats records = calculateAttendanceStats records'.
Proof.
  intros Hp. rewrite !calculateAttendanceStats_closed. cbv zeta.
  by rewrite !(tally_Permutation _ _ _ Hp).
Qed.

Lemma stats_order_independent_witness :
  calculateAttendanceStats [marked "late"; marked "p"; marked "x"]
  = calculateAttendanceStats [marked "x"; marked "late"; marked "p"].
Proof.
  apply stats_order_independent.
  change [marked "x"; marked "late"; marked "p"]
    with ([marked "x"] ++ [marked "late"; marked "p"]).
  change [marked "late"; marked "p"; marked "x"]
    with ([marked "late"; marked "p"] ++ [marked "x"]).
  apply Permutation_app_comm.
Defined.

Lemma ofNat_nonneg n : (0 <= ofNat n)%Q.
Proof. unfold ofNat. change 0%Q with (inject_Z 0). rewrite <- Zle_Qle. lia. Qed.

Lemma ofNat_le n m : (n ≤ m)%nat → (ofNat n <= ofNat m)%Q.
Proof. intros H. unfold ofNat. rewrite <- Zle_Qle. lia. Qed.

Lemma ofNat_plus n m : (ofNat (n + m)%nat == ofNat n + ofNat m)%Q.
Proof. unfold ofNat. by rewrite Nat2Z.inj_add, inject_Z_plus. Qed.

Lemma Math_round_percent (x : Q) :
  (0 <= x)%Q → (x <= 100)%Q → (0 <= Js.Math_round x <= 100)%Z.
Proof.
  intros H0 H100. unfold Js.Math_round. split.
  - change 0%Z with (Qfloor 0). apply Qfloor_resp_le. lra.
  - change 100%Z with (Qfloor (100 + (1 # 2))). apply Qfloor_resp_le. lra.
Qed.

(** The counts of the three statuses never exceed [total], and the rate
    is a whole number from 0 to 100, on every list of records. *)
Theorem stats_bounds records :
  let stats := calculateAttendanceStats records in
  (presentCount stats + lateCount stats + absentCount stats ≤ total stats)%nat ∧
  (total stats ≤ length records)%nat ∧
  percentage stats = rate stats ∧
  ∃ n : Z, rate stats = Js.Finite (inject_Z n) ∧ (0 <= n <= 100)%Z.
Proof.
  cbv zeta. rewrite calculateAttendanceStats_closed. cbv zeta.
  pose proof (tally_canonical records) as Hc.
  assert (tally counted records ≤ length records)%nat as Hlen
    by (unfold tally; apply List.filter_length_le).
  destruct (tally counted records) as [|n] eqn:E;
    cbn [total presentCount lateCount absentCount rate percentage
         c_total c_present c_late c_absent].
  - split_and!; [lia | lia | done |]. exists 0%Z. by split.
  - split_and!; [lia | lia | done |]. eexists. split; [done|].
    set (p := tally (normalizesTo present) records) in *.
    set (l := tally (normalizesTo late) records) in *.
    set (a := tally (normalizesTo absent) records) in *.
    unfold weightedScore. cbn [c_present c_late c_absent].
    pose proof (ofNat_nonneg p). pose proof (ofNat_nonneg l).
    pose proof (ofNat_nonneg a).
    assert (ofNat p + ofNat l <= ofNat (S n))%Q as Hsum.
    { rewrite <- ofNat_plus. apply ofNat_le. lia. }
    assert (0 < ofNat (S n))%Q as Hpos.
    { unfold ofNat. change 0%Q with (inject_Z 0). rewrite <- Zlt_Qlt. lia. }
    apply Math_round_percent.
    + apply Qmult_le_0_compat; [|lra]. apply Qle_shift_div_l; [done|]. lra.
    + apply Qle_trans with (1 * 100)%Q; [|lra].
      apply Qmult_le_compat_r; [|lra]. apply Qle_shift_div_r; [done|]. lra.
Qed.

(** The counts of a concatenation are the sums of the counts of its
    parts. *)
Theorem stats_concatenation records records' :
  let all := calculateAttendanceStats (records ++ records') in
  let s := calculateAttendanceStats records in
  let s' := calculateAttendanceStats records' in
  total all = (total s + total s')%nat ∧
  presentCount all = (presentCount s + presentCount s')%nat ∧
  lateCount all = (lateCount s + lateCount s')%nat ∧
  absentCount all = (absentCount s + absentCount s')%nat.
Proof.
  cbv zeta. rewrite !calculateAttendanceStats_closed. cbv zeta.
  rewrite !tally_app.
  destruct (tally counted records), (tally counted records'); simpl;
    split_and!; lia.
Qed.

End AttendanceMore.

(** ** Grouping attendance by course name *)

Section Grouping.

Import AttendanceGrouping.

Lemma inherited_truthy rec : inherited rec = true → Js.truthy (att_courseName rec) = true.
Proof.
  unfold inherited. destruct (att_courseName rec); [|done].
  by vm_compute.
Qed.

Lemma push_own g rec :
  inherited rec = false →
  push g rec
  = Js.Normal
      (if Js.truthy (att_courseName rec)
       then Js.set g (att_courseName rec)
              (default [] (Js.get g (att_courseName rec)) ++ [rec])
       else g).
Proof.
  unfold inherited, push, Js.read. intros Hi.
  destruct (Js.truthy (att_courseName rec)); cbn [negb]; [|done].
  destruct (Js.get g (att_courseName rec)); cbn [default app]; [done|].
  by rewrite Hi.
Qed.

Lemma push_inherited g rec :
  inherited rec = true →
  (∀ k, k ∈ Js.keys g → Js.includes Js.Object_prototype k = false) →
  push g rec = Js.Throw.
Proof.
  intros Hi Hg. unfold push, Js.read.
  rewrite (inherited_truthy _ Hi). cbn [negb].
  destruct (Js.get g (att_courseName rec)) eqn:E.
  - assert (att_courseName rec ∈ Js.keys g) as Hk
      by (apply has_keys; unfold Js.has; by rewrite E).
    apply Hg in Hk. unfold inherited in Hi. congruence.
  - unfold inherited in Hi. by rewrite Hi.
Qed.

Lemma group_fold_throw records :
  fold_left (fun grouped rec => Js.bind grouped (fun g => push g rec))
    records Js.Throw = Js.Throw.
Proof. induction records; simpl; done. Qed.

Lemma group_fold records : ∀ g,
  (∀ rec, rec ∈ records → inherited rec = false) →
  NoDup (Js.keys g) →
  ∃ g',
    fold_left (fun grouped rec => Js.bind grouped (fun g => push g rec))
      records (Js.Normal g) = Js.Normal g' ∧
    NoDup (Js.keys g') ∧
    ∀ k, Js.get g' k
         = match (if Js.truthy k then named k records else []) with
           | [] => Js.get g k
           | l => Some (default [] (Js.get g k) ++ l)
           end.
Proof.
  induction records as [|r rs IH]; intros g Hin Hnd.
  - exists g. split_and!; [done | done |]. intros k. unfold named.
    by destruct (Js.truthy k).
  - cbn [fold_left Js.bind]. rewrite push_own by (apply Hin; left).
    set (g1 := if Js.truthy (att_courseName r) then _ else g).
    assert (NoDup (Js.keys g1)) as Hnd1.
    { subst g1. destruct (Js.truthy _); [by apply NoDup_keys_set | done]. }
    destruct (IH g1) as (g' & Hfold & Hnd' & Hget); [|done|].
    { intros rec Hrec. apply Hin. by right. }
    exists g'. split_and!; [done | done |]. intros k. rewrite Hget.
    unfold named. rewrite filter_cons.
    destruct (Js.truthy k) eqn:Hk.
    + case_decide as Hname.
      * assert (Js.get g1 k = Some (default [] (Js.get g k) ++ [r])) as ->.
        { subst g1. rewrite Hname, Hk. apply get_set_eq. }
        destruct (filter _ rs); simpl; [done|]. by rewrite <- app_assoc.
      * assert (Js.get g1 k = Js.get g k) as ->; [|done].
        subst g1. destruct (Js.truthy _); [|done]. by apply get_set_ne.
    + assert (Js.get g1 k = Js.get g k) as ->; [|done].
      subst g1. destruct (Js.truthy (att_courseName r)) eqn:Hr; [|done].
      apply get_set_ne. intros <-. congruence.
Qed.

(** When no course name is a member of [Object.prototype], the grouping
    completes; every name that is not empty and occurs in the records is
    a key, once; and the records under a key are exactly the records of
    that name, in their order. *)
Theorem groupAttendanceByCourse_partition records :
  (∀ rec, rec ∈ records → inherited rec = false) →
  ∃ grouped,
    groupAttendanceByCourse records = Js.Normal grouped ∧
    NoDup (Js.keys grouped) ∧
    (∀ k, k ∈ Js.keys grouped ↔
          k ≠ "" ∧ ∃ rec, rec ∈ records ∧ att_courseName rec = k) ∧
    (∀ k group, Js.get grouped k = Some group → group = named k records).
Proof.
  intros Hin. destruct (group_fold records [] Hin) as (g & Hfold & Hnd & Hget).
  { apply NoDup_nil_2. }
  exists g. split_and!; [done | done | |].
  - intros k. rewrite <- has_keys. unfold Js.has. rewrite Hget.
    rewrite <- truthy_nonempty. unfold named. destruct (Js.truthy k); simpl.
    + destruct (filter _ records) as [|x l] eqn:E.
      * split; [done|]. intros [_ (rec & Hrec & Hk)]. exfalso.
        eapply (filter_nil_not_elem_of _ records rec E); done.
      * split; [|done]. intros _. split; [done|]. exists x.
        assert (x ∈ x :: l) as Hx by left. rewrite <- E in Hx.
        apply list_elem_of_filter in Hx as [? ?]. done.
    + split; [done | by intros [? _]].
  - intros k group. rewrite Hget. unfold named.
    destruct (Js.truthy k); simpl; [|done].
    destruct (filter _ records); simpl; [done|]. by intros [= <-].
Qed.

Lemma groupAttendanceByCourse_partition_witness :
  ∃ grouped,
    groupAttendanceByCourse
      [Samples.attended "a1" "Algebra"; Samples.attended "a2" "";
       Samples.attended "a3" "Algebra"] = Js.Normal grouped ∧
    Js.get grouped "Algebra"
    = Some [Samples.attended "a1" "Algebra"; Samples.attended "a3" "Algebra"].
Proof.
  destruct (groupAttendanceByCourse_partition
              [Samples.attended "a1" "Algebra"; Samples.attended "a2" "";
               Samples.attended "a3" "Algebra"])
    as (grouped & Hrun & _ & _ & _).
  - intros rec Hrec. repeat (apply elem_of_cons in Hrec as [->|Hrec]; [done|]).
    by apply elem_of_nil in Hrec.
  - exists grouped. split; [done|]. vm_compute in Hrun.
    injection Hrun as <-. reflexivity.
Defined.

Lemma group_fold_inherited records rec : ∀ g,
  rec ∈ records → inherited rec = true →
  (∀ k, k ∈ Js.keys g → Js.includes Js.Object_prototype k = false) →
  fold_left (fun grouped rec => Js.bind grouped (fun g => push g rec))
    records (Js.Normal g) = Js.Throw.
Proof.
  induction records as [|r rs IH]; intros g Hrec Hi Hg.
  - by apply elem_of_nil in Hrec.
  - cbn [fold_left Js.bind]. destruct (inherited r) eqn:Hr.
    + rewrite push_inherited by done. apply group_fold_throw.
    + rewrite push_own by done.
      apply elem_of_cons in Hrec as [->|Hrec]; [congruence|].
      apply IH; [done | done |]. intros k.
      destruct (Js.truthy (att_courseName r)); [|apply Hg].
      rewrite keys_set. destruct (Js.has g (att_courseName r)); [apply Hg|].
      rewrite elem_of_app, list_elem_of_singleton. intros [Hk| ->]; [by apply Hg|].
      exact Hr.
Qed.

(** One record whose course name is a member of [Object.prototype], such
    as a course called constructor, makes the grouping of the whole list
    throw. *)
Theorem groupAttendanceByCourse_inherited_name records rec :
  rec ∈ records → inherited rec = true →
  groupAttendanceByCourse records = Js.Throw.
Proof.
  intros Hrec Hi. apply (group_fold_inherited records rec); [done | done |].
  by intros k ?%elem_of_nil.
Qed.

Lemma groupAttendanceByCourse_inherited_name_witness :
  groupAttendanceByCourse
    [Samples.attended "a1" "Algebra"; Samples.attended "a2" "constructor"]
  = Js.Throw.
Proof.
  apply (groupAttendanceByCourse_inherited_name _ (Samples.attended "a2" "constructor")).
  - right. left.
  - reflexivity.
Defined.

End Grouping.

(** ** Payments *)

Section Payments.

Import Store StudentFinance.

Lemma update_stored finances studentId amount :
  update finances studentId amount
  = match stored finances studentId with
    | Some old =>
        match update finances studentId amount with
        | Some (fin, finances') => Some (pay old amount, finances')
        | None => None
        end
    | None => None
    end.
Proof.
  unfold stored. induction finances as [|f rest IH]; simpl; [done|].
  destruct (String.eqb (fin_studentId f) studentId); [done|].
  rewrite IH at 1. destruct (List.find _ rest); [|done].
  by destruct (update rest studentId amount) as [[? ?]|].
Qed.

Lemma payFee_stored finances studentId amount old :
  stored finances studentId = Some old →
  ∃ finances', payFee finances studentId amount = Js.Normal (pay old amount, finances').
Proof.
  unfold payFee, stored. induction finances as [|f rest IH]; simpl; [done|].
  destruct (String.eqb (fin_studentId f) studentId).
  - intros [= ->]. by eexists.
  - intros H. destruct (IH H) as [l Hl].
    destruct (update rest studentId amount) as [[fin rest']|]; [|done].
    injection Hl as -> ->. by eexists.
Qed.

Lemma pay_arith (t p d a : Q) :
  (d == Qmax 0 (t - p))%Q → (0 <= a)%Q →
  let p' := (p + Qmin a d)%Q in
  let d' := Qmax 0 (t - p')%Q in
  (d' == d - Qmin a d)%Q ∧ (p' + d' == p + d)%Q ∧ (0 <= d' <= d)%Q ∧
  ((d <= a)%Q → (d' == 0)%Q).
Proof.
  intros Hd Ha p' d'. subst p' d'.
  destruct (Q.max_spec 0 (t - p)) as [[? Hm]|[? Hm]];
    destruct (Q.min_spec a d) as [[? Hn]|[? Hn]];
    destruct (Q.max_spec 0 (t - (p + Qmin a d))) as [[? Hk]|[? Hk]];
    (split_and!; [lra | lra | lra | lra | intros Hle; lra]).
Qed.

Lemma pay_twice_arith (t p d a b : Q) :
  (d == Qmax 0 (t - p))%Q → (0 <= a)%Q → (0 <= b)%Q →
  let p1 := (p + Qmin a d)%Q in
  let d1 := Qmax 0 (t - p1)%Q in
  let p2 := (p1 + Qmin b d1)%Q in
  let d2 := Qmax 0 (t - p2)%Q in
  let p3 := (p + Qmin (a + b) d)%Q in
  let d3 := Qmax 0 (t - p3)%Q in
  (p2 == p3)%Q ∧ (d2 == d3)%Q.
Proof.
  intros Hd Ha Hb p1 d1 p2 d2 p3 d3. subst p1 d1 p2 d2 p3 d3.
  destruct (Q.max_spec 0 (t - p)) as [[? Hm]|[? Hm]];
    destruct (Q.min_spec a d) as [[? Hn]|[? Hn]];
    destruct (Q.max_spec 0 (t - (p + Qmin a d))) as [[? Hk]|[? Hk]];
    destruct (Q.min_spec b (Qmax 0 (t - (p + Qmin a d)))) as [[? Hq]|[? Hq]];
    destruct (Q.min_spec (a + b) d) as [[? Hp]|[? Hp]];
    destruct (Q.max_spec 0 (t - (p + Qmin a d + Qmin b (Qmax 0 (t - (p + Qmin a d))))))
      as [[? Hr]|[? Hr]];
    destruct (Q.max_spec 0 (t - (p + Qmin (a + b) d))) as [[? Hu]|[? Hu]];
    split; lra.
Qed.

Lemma account_whole : wholeRecord (Samples.account 300).
Proof.
  split_and!; [exists 1000%Z | exists 200%Z | exists 300%Z | exists 500%Z];
    (split; [reflexivity | (apply Z.leb_le; reflexivity)]).
Qed.

(** A payment of a non-negative amount of whole units on a record of
    whole amounts whose balance is consistent with its other amounts is
    carried out; it lowers the balance by the amount applied, at most to
    zero, and what is paid plus what is due stays the same; an amount of
    at least the balance clears it. *)
Theorem payFee_conserves finances studentId amount old :
  stored finances studentId = Some old → settled old → wholeRecord old →
  whole amount → (0 <= amount)%Q →
  ∃ fin finances',
    payFee finances studentId amount = Js.Normal (fin, finances') ∧
    (paid fin + due fin == paid old + due old)%Q ∧
    (due fin == due old - Qmin amount (due old))%Q ∧
    (0 <= due fin <= due old)%Q ∧
    ((due old <= amount)%Q → (due fin == 0)%Q).
Proof.
  intros Hs Hinv _ _ Hamount.
  destruct (payFee_stored _ _ amount _ Hs) as [finances' Hrun].
  destruct (pay_arith (totalFee old - scholarship old) (paid old) (due old) amount
              Hinv Hamount) as (Hdue & Hsum & Hnn & Hclear).
  exists (pay old amount), finances'.
  split_and!; [exact Hrun | exact Hsum | exact Hdue | apply Hnn | apply Hnn | exact Hclear].
Qed.

Lemma payFee_conserves_witness :
  ∃ fin finances',
    payFee [Samples.account 300] "s1" 150 = Js.Normal (fin, finances') ∧
    (due fin == 350)%Q.
Proof.
  destruct (payFee_conserves [Samples.account 300] "s1" 150 (Samples.account 300))
    as (fin & finances' & Hrun & _ & Hdue & _).
  - reflexivity.
  - reflexivity.
  - apply account_whole.
  - exists 150%Z. split; [reflexivity | (apply Z.leb_le; reflexivity)].
  - discriminate.
  - exists fin, finances'. split; [done|]. rewrite Hdue. reflexivity.
Defined.

Lemma stored_after finances studentId amount fin finances' :
  payFee finances studentId amount = Js.Normal (fin, finances') →
  stored finances' studentId = Some fin.
Proof.
  unfold payFee.
  destruct (update finances studentId amount) as [[f l]|] eqn:E; [|done].
  intros [= -> ->]. revert fin finances' E. unfold stored.
  induction finances as [|f rest IH]; intros fin finances'; simpl; [done|].
  destruct (String.eqb (fin_studentId f) studentId) eqn:Heq.
  - intros [= <- <-]. simpl. by rewrite Heq.
  - destruct (update rest studentId amount) as [[fin0 rest']|] eqn:E; [|done].
    intros [= <- <-]. simpl. rewrite Heq. by apply IH.
Qed.

(** Two payments of whole units in a row, on a record of whole amounts,
    leave the amounts that one payment of their sum leaves. *)
Theorem payFee_twice finances studentId a b old :
  stored finances studentId = Some old → settled old → wholeRecord old →
  whole a → whole b → (0 <= a)%Q → (0 <= b)%Q →
  ∃ fin1 finances1 fin2 finances2 fin finances',
    payFee finances studentId a = Js.Normal (fin1, finances1) ∧
    payFee finances1 studentId b = Js.Normal (fin2, finances2) ∧
    payFee finances studentId (a + b) = Js.Normal (fin, finances') ∧
    (paid fin2 == paid fin)%Q ∧ (due fin2 == due fin)%Q.
Proof.
  intros Hs Hinv _ _ _ Ha Hb.
  destruct (payFee_stored _ _ a _ Hs) as [finances1 Hrun1].
  pose proof (stored_after _ _ _ _ _ Hrun1) as Hs1.
  destruct (payFee_stored _ _ b _ Hs1) as [finances2 Hrun2].
  destruct (payFee_stored _ _ (a + b)%Q _ Hs) as [finances' Hrun].
  exists (pay old a), finances1, (pay (pay old a) b), finances2,
    (pay old (a + b)), finances'.
  split_and!; try done.
  - exact (proj1 (pay_twice_arith (totalFee old - scholarship old) (paid old)
                    (due old) a b Hinv Ha Hb)).
  - exact (proj2 (pay_twice_arith (totalFee old - scholarship old) (paid old)
                    (due old) a b Hinv Ha Hb)).
Qed.

Lemma payFee_twice_witness :
  ∃ fin1 finances1 fin2 finances2 fin finances',
    payFee [Samples.account 300] "s1" 150 = Js.Normal (fin1, finances1) ∧
    payFee finances1 "s1" 600 = Js.Normal (fin2, finances2) ∧
    payFee [Samples.account 300] "s1" (150 + 600) = Js.Normal (fin, finances') ∧
    (paid fin2 == paid fin)%Q ∧ (due fin2 == due fin)%Q.
Proof.
  apply (payFee_twice [Samples.account 300] "s1" 150 600 (Samples.account 300)).
  - reflexivity.
  - reflexivity.
  - apply account_whole.
  - exists 150%Z. split; [reflexivity | (apply Z.leb_le; reflexivity)].
  - exists 600%Z. split; [reflexivity | (apply Z.leb_le; reflexivity)].
  - discriminate.
  - discriminate.
Defined.

Lemma clamp_range input maxPayable amount :
  clamp input maxPayable = Some amount → Js.Qzero amount = false →
  (0 < amount)%Q ∧ (amount <= maxPayable)%Q.
Proof.
  unfold clamp, Js.Qzero. intros Hc Hz.
  assert (¬ (amount == 0)%Q) as Hne.
  { intros H. apply Qeq_bool_iff in H. congruence. }
  destruct input as [a| | |]; try done; injection Hc as <-.
  - destruct (Q.min_spec a maxPayable) as [[? Hn]|[? Hn]];
      destruct (Q.max_spec 0 (Qmin a maxPayable)) as [[? Hm]|[? Hm]];
      split; lra.
  - destruct (Q.max_spec 0 maxPayable) as [[? Hm]|[? Hm]]; split; lra.
  - by destruct Hne.
Qed.

(** A payment from the page, on the record of whole amounts that the
    store holds for the student, with a whole number read from the
    prompt: in custom mode nothing is paid when nothing is owed, and an
    amount that is paid is positive; a payment that goes through leaves
    the balance equal to the fee less scholarship and payments, so never
    an overpayment; in full mode it leaves no balance. *)
Theorem handlePayment_settles finance mode input finances :
  stored finances (fin_studentId finance) = Some finance → settled finance →
  wholeRecord finance → wholeInput input →
  let outcome := handlePayment (Some finance) false mode input finances in
  (mode = custom →
   (totalFee finance - scholarship finance - paid finance <= 0)%Q →
   outcome = Invalid) ∧
  (outcome = Invalid ∨
   ∃ fin finances',
     outcome = Paid fin finances' ∧
     (due fin == totalFee finance - scholarship finance - paid fin)%Q ∧
     (0 <= due fin)%Q ∧
     (mode = full → (due fin == 0)%Q) ∧
     (mode = custom → (paid finance < paid fin)%Q)).
Proof.
  intros Hs Hinv _ _ outcome. subst outcome. unfold handlePayment. cbn [negb].
  unfold settled in Hinv.
  destruct mode; cbn [amountOf].
  - (* custom *)
    destruct (clamp input _) as [amount|] eqn:Hc; [|by split; [|left]].
    destruct (Js.Qzero amount) eqn:Hz; [by split; [|left]|].
    destruct (clamp_range _ _ _ Hc Hz) as [Hpos Hmax].
    split; [intros _ Hle; lra|]. right.
    destruct (payFee_stored _ _ amount _ Hs) as [finances' ->].
    exists (pay finance amount), finances'. unfold pay.
    cbn [due paid totalFee scholarship].
    destruct (Q.max_spec 0 (totalFee finance - scholarship finance - paid finance))
      as [[? Hm]|[? Hm]];
      destruct (Q.min_spec amount (due finance)) as [[? Hn]|[? Hn]];
      destruct (Q.max_spec 0 (totalFee finance - scholarship finance
                              - (paid finance + Qmin amount (due finance))))
        as [[? Hk]|[? Hk]];
      (split_and!; [done | lra | lra | done | intros _; lra]).
  - (* full *)
    split; [done|].
    destruct (Js.Qzero _) eqn:Hz; [by left|]. right.
    destruct (payFee_stored _ _ (totalFee finance - scholarship finance - paid finance)
                _ Hs) as [finances' ->].
    exists (pay finance (totalFee finance - scholarship finance - paid finance)), finances'.
    unfold pay. cbn [due paid totalFee scholarship].
    destruct (Q.max_spec 0 (totalFee finance - scholarship finance - paid finance))
      as [[? Hm]|[? Hm]];
      destruct (Q.min_spec (totalFee finance - scholarship finance - paid finance)
                  (due finance)) as [[? Hn]|[? Hn]];
      match goal with |- context [Qmax 0 ?x] =>
        destruct (Q.max_spec 0 x) as [[? Hk]|[? Hk]] end;
      (split_and!; [done | lra | lra | intros _; lra | done]).
Qed.

Lemma handlePayment_settles_witness :
  ∃ fin finances',
    handlePayment (Some (Samples.account 300)) false full Js.NaN [Samples.account 300]
    = Paid fin finances' ∧ (due fin == 0)%Q.
Proof.
  destruct (handlePayment_settles (Samples.account 300) full Js.NaN [Samples.account 300])
    as [_ [Hinvalid|(fin & finances' & Hrun & _ & _ & Hfull & _)]].
  - reflexivity.
  - reflexivity.
  - apply account_whole.
  - exact I.
  - discriminate.
  - exists fin, finances'. split; [done | by apply Hfull].
Defined.

End Payments.

(** ** The finance table of the administration *)

Section FinanceRows.

Import AdminFinance.

Lemma filter_split {A} (f g h : A → bool) (l : list A) :
  (∀ x, x ∈ l → f x = g x || h x) →
  (∀ x, x ∈ l → g x && h x = false) →
  List.filter f l ≡ₚ List.filter g l ++ List.filter h l.
Proof.
  induction l as [|x l IH]; intros Hf Hgh; simpl; [done|].
  assert (List.filter f l ≡ₚ List.filter g l ++ List.filter h l) as IH'.
  { apply IH; intros y Hy; [apply Hf | apply Hgh]; by right. }
  pose proof (Hf x ltac:(left)) as Hx. pose proof (Hgh x ltac:(left)) as Hx'.
  destruct (g x), (h x); simpl in *; try done; rewrite Hx.
  - by constructor.
  - rewrite IH'. apply Permutation_middle.
  - done.
Qed.

Lemma totals_balance_zero rows : ∀ acc,
  (∀ row, row ∈ rows → (balance row == 0)%Q) →
  (t_balance
     (fold_left
        (fun acc row =>
           mkTotals (t_totalFee acc + row_total row)
             (t_scholarship acc + row_scholarship row)
             (t_paid acc + row_paid row) (t_balance acc + balance row))%Q
        rows acc) == t_balance acc)%Q.
Proof.
  induction rows as [|row rows IH]; intros acc Hz; simpl; [reflexivity|].
  rewrite IH by (intros r Hr; apply Hz; by right). simpl.
  rewrite (Hz row) by left. ring.
Qed.

Lemma toRow_balance studentMap fin : (0 <= balance (toRow studentMap fin))%Q.
Proof. unfold toRow. simpl. apply Q.le_max_l. Qed.

(** The table has one row per finance record, in the same order; no
    balance is negative, and the balance of a record whose amount due is
    consistent is that amount; a row is named after a student of that
    id, or Unknown Student. *)
Theorem loadFinances_rows t finances :
  Forall2
    (λ fin row,
       row_id row = fin_id fin ∧ (0 <= balance row)%Q ∧
       (StudentFinance.settled fin → (balance row == due fin)%Q) ∧
       (row_name row = "Unknown Student" ∨
        ∃ s, s ∈ Api.Students t ∧ student_id s = fin_studentId fin ∧
             row_name row = student_name s))
    finances (loadFinances t finances).
Proof.
  unfold loadFinances.
  set (studentIds := List.filter Js.truthy (map fin_studentId finances)).
  set (m := Js.MapOf _).
  assert (∀ k s, Js.get m k = Some s → s ∈ Api.Students t ∧ student_id s = k) as Hm.
  { intros k s Hget. subst m. apply byId_lookup in Hget as [Hk Hs].
    split; [|done].
    unfold Api.getStudentsByIds in Hs. destruct studentIds; [by apply elem_of_nil in Hs|].
    by apply list_elem_of_filter in Hs as [_ ?]. }
  clearbody m. clear studentIds.
  induction finances as [|fin finances IH]; simpl; constructor; [|done].
  split_and!.
  - done.
  - apply toRow_balance.
  - unfold StudentFinance.settled, toRow. simpl. by intros ->.
  - unfold toRow. simpl. destruct (Js.get m (fin_studentId fin)) as [s|] eqn:E; [|by left].
    right. exists s. destruct (Hm _ _ E). done.
Qed.

(** The record that [payFee] returns is shown with its amount due as
    balance. *)
Theorem balance_after_payFee finances studentId amount fin finances' studentMap :
  Store.payFee finances studentId amount = Js.Normal (fin, finances') →
  balance (toRow studentMap fin) = due fin.
Proof.
  unfold Store.payFee.
  destruct (Store.update finances studentId amount) as [[f l]|] eqn:E; [|done].
  intros [= -> ->].
  destruct (update_shape _ _ _ _ _ E) as (_ & old & _ & _ & _ & -> & _).
  reflexivity.
Qed.

Lemma balance_after_payFee_witness :
  balance (toRow [] (Store.pay (Samples.account 300) 150))
  = due (Store.pay (Samples.account 300) 150).
Proof.
  apply (balance_after_payFee [Samples.account 300] "s1" 150 _
           [Store.pay (Samples.account 300) 150]).
  reflexivity.
Defined.

(** With the same search and minimum, the rows that owe and the rows
    that are cleared make up all the rows of the table, and the cleared
    rows add up to a balance of zero. *)
Theorem balanceFilter_partition t finances searchTerm minBalance :
  let rows := loadFinances t finances in
  filteredRows rows searchTerm all minBalance
  ≡ₚ filteredRows rows searchTerm owing minBalance
     ++ filteredRows rows searchTerm cleared minBalance ∧
  (t_balance (totals (filteredRows rows searchTerm cleared minBalance)) == 0)%Q.
Proof.
  intros rows. split.
  - unfold filteredRows. apply filter_split.
    + intros row Hrow. unfold matches. cbv zeta.
      assert (0 <= balance row)%Q as Hb.
      { subst rows. unfold loadFinances in Hrow.
        apply elem_of_map in Hrow as (fin & -> & _). apply toRow_balance. }
      unfold Js.Qpos. apply Qle_bool_iff in Hb. rewrite Hb.
      destruct (negb _ || _ || _); simpl; [|done].
      destruct (Js.Qzero (balance row)); simpl; [|by rewrite orb_false_r].
      by destruct (match minBalance with None => _ | _ => _ end).
    + intros row _. unfold matches. cbv zeta. unfold Js.Qpos.
      destruct (Js.Qzero (balance row)); simpl.
      * by rewrite !andb_false_r.
      * by rewrite !andb_false_r.
  - unfold totals. rewrite totals_balance_zero; [reflexivity|].
    intros row Hrow. unfold filteredRows in Hrow.
    apply list_elem_of_In, filter_In in Hrow as [_ Hm]. unfold matches in Hm.
    cbv zeta in Hm.
    apply andb_prop in Hm as [Hm _]. apply andb_prop in Hm as [_ Hz].
    by apply Qeq_bool_iff in Hz.
Qed.

End FinanceRows.

(** ** Pages of a table *)

Section Pages.

Import Pagination.

Lemma totalPages_spec pageSize n :
  (0 < pageSize)%nat →
  (1 ≤ totalPages pageSize n)%nat ∧
  (n ≤ totalPages pageSize n * pageSize)%nat ∧
  (n ≠ 0%nat → ((totalPages pageSize n - 1) * pageSize < n)%nat).
Proof.
  intros Hs. unfold totalPages.
  set (x := (inject_Z (Z.of_nat n) / inject_Z (Z.of_nat pageSize))%Q).
  assert (0 < inject_Z (Z.of_nat pageSize))%Q as Hpos.
  { change 0%Q with (inject_Z 0). rewrite <- Zlt_Qlt. lia. }
  assert (inject_Z (Z.of_nat n) == x * inject_Z (Z.of_nat pageSize))%Q as Hn.
  { subst x. field. lra. }
  pose proof (Qle_ceiling x) as Hle. pose proof (Qceiling_lt x) as Hlt.
  set (k := Qceiling x) in *.
  assert (Z.of_nat n <= k * Z.of_nat pageSize)%Z as Hup.
  { rewrite Zle_Qle, inject_Z_mult, Hn. apply Qmult_le_compat_r; lra. }
  assert ((k - 1) * Z.of_nat pageSize < Z.of_nat n ∨ n = 0%nat)%Z as Hlow.
  { destruct n; [by right|]. left.
    rewrite Zlt_Qlt, inject_Z_mult, Hn. apply Qmult_lt_compat_r; [done|].
    exact Hlt. }
  split_and!.
  - lia.
  - nia.
  - intros Hne. destruct Hlow as [Hlow|]; [|done]. nia.
Qed.

Lemma take_plus {A} (a b : nat) (l : list A) :
  take (a + b) l = take a l ++ take b (drop a l).
Proof.
  revert l. induction a as [|a IH]; intros l; simpl; [done|].
  destruct l as [|x l]; simpl; [by rewrite take_nil|]. by rewrite IH.
Qed.

Lemma pages_concat {A} (pageSize : nat) (l : list A) (k : nat) :
  concat (map (fun p => slice (p * pageSize) (p * pageSize + pageSize) l) (seq 0 k))
  = take (k * pageSize) l.
Proof.
  induction k as [|k IH]; [done|].
  rewrite seq_S, map_app, concat_app, IH. cbn [map concat Nat.add]. rewrite app_nil_r.
  unfold slice. replace (k * pageSize + pageSize - k * pageSize)%nat with pageSize by lia.
  replace (S k * pageSize)%nat with (k * pageSize + pageSize)%nat by lia.
  by rewrite take_plus.
Qed.

(** On a table of any length, with a page size that is not zero: the
    pages, one after the other, give back the rows; the page shown is
    always one of them, whatever page number is stored; no page holds more
    than [pageSize] rows; a page of a table with rows is not empty; and
    the caption counts the rows of the page. *)
Theorem pages_cover {A} (pageSize : nat) (rows : list A) :
  (0 < pageSize)%nat →
  let pages := totalPages pageSize (length rows) in
  concat (map (pageRows pageSize rows) (seq 0 pages)) = rows ∧
  ∀ page,
    (currentPage pageSize (length rows) page < pages)%nat ∧
    (length (pageRows pageSize rows page) ≤ pageSize)%nat ∧
    (rows ≠ [] →
     pageRows pageSize rows page ≠ [] ∧
     (firstShown pageSize (length rows) page + length (pageRows pageSize rows page)
      = lastShown pageSize (length rows) page + 1)%nat).
Proof.
  intros Hs pages.
  destruct (totalPages_spec pageSize (length rows) Hs) as (H1 & Hup & Hlow).
  fold pages in H1, Hup, Hlow. split.
  - transitivity (take (pages * pageSize) rows); [|by apply take_ge].
    rewrite <- pages_concat. f_equal. apply map_ext_in.
    intros p Hp%in_seq. unfold pageRows, currentPage. fold pages.
    by replace (Nat.min p (pages - 1)) with p by lia.
  - intros page. unfold pageRows, firstShown, lastShown, currentPage, slice.
    fold pages. set (cur := Nat.min page (pages - 1)).
    replace (cur * pageSize + pageSize - cur * pageSize)%nat with pageSize by lia.
    assert (cur ≤ pages - 1)%nat as Hcur by lia.
    split_and!.
    + lia.
    + rewrite length_take. lia.
    + intros Hne. assert (length rows ≠ 0%nat) as Hlen by (by destruct rows).
      specialize (Hlow Hlen).
      assert (cur * pageSize < length rows)%nat as Hin by nia.
      split.
      * intros Hnil. apply (f_equal length) in Hnil.
        rewrite length_take, length_drop in Hnil. simpl in Hnil. lia.
      * rewrite length_take, length_drop.
        destruct (Nat.eqb_spec (length rows) 0); [done|]. lia.
Qed.

Lemma pages_cover_witness :
  concat (map (pageRows 2 ["a"; "b"; "c"; "d"; "e"]) (seq 0 (totalPages 2 5)))
  = ["a"; "b"; "c"; "d"; "e"].
Proof. apply (pages_cover 2 ["a"; "b"; "c"; "d"; "e"]). lia. Defined.

(** The Previous and Next buttons keep the page number among the pages
    of the table, and Previous undoes Next on every page but the last. *)
Theorem page_buttons (pageSize n page : nat) :
  (0 < pageSize)%nat → (page < totalPages pageSize n)%nat →
  (previous page < totalPages pageSize n)%nat ∧
  (next pageSize n page < totalPages pageSize n)%nat ∧
  ((page + 1 < totalPages pageSize n)%nat → previous (next pageSize n page) = page) ∧
  ((page + 1 = totalPages pageSize n)%nat → next pageSize n page = page).
Proof.
  intros Hs Hp. unfold previous, next. split_and!; lia.
Qed.

Lemma page_buttons_witness :
  previous (next 20 45 1) = 1%nat.
Proof.
  apply (page_buttons 20 45 1); [lia | vm_compute; lia | vm_compute; lia].
Defined.

End Pages.

(** ** The grade table of the administration *)

Section GradeTable.

Import AdminClasses AdminClassesView GradeSums.










(** A finite score carries the label of exactly one filter by grade, and
    that filter is the only one, next to 'all', that shows its card. *)
Theorem band_of_label (q : Q) (gradeFilter : GradeFilter) :
  gradeFilter ≠ all →
  matchesGrade gradeFilter (Js.Finite q) = true
  ↔ gradeFilter = bandOf (getTheme (Js.Finite q)).
Proof.
  intros Hall. unfold matchesGrade, getTheme, Num.ge, Num.lt.
  destruct (Qle_bool 90 q) eqn:E90, (Qle_bool 80 q) eqn:E80, (Qle_bool 70 q) eqn:E70;
    try (destruct gradeFilter; simpl; split; congruence);
    exfalso;
    repeat match goal with
    | H : Qle_bool _ _ = true |- _ => apply Qle_bool_iff in H
    | H : Qle_bool _ _ = false |- _ =>
        apply not_true_iff_false in H; rewrite Qle_bool_iff in H
    end; lra.
Qed.

Lemma band_of_label_witness :
  matchesGrade from80 (Js.Finite 85) = true.
Proof. apply (band_of_label 85 from80); [discriminate | reflexivity]. Defined.

End GradeTable.

(** ** What the departments gather *)

Section DepartmentContents.

Import DepartmentGroups.

Lemma SetAdd_fold_SetOf (l : list string) : fold_left Js.SetAdd l [] = Js.SetOf l.
Proof. done. Qed.




Lemma courseCount_set d k department :
  (courseCount (Js.set d k department)
   + match Js.get d k with
     | Some old => AdminDashboard.dep_courses old
     | None => 0
     end
   = courseCount d + AdminDashboard.dep_courses department)%nat.
Proof.
  unfold courseCount, Js.values.
  induction d as [|[k' v'] d IH]; simpl; [lia|].
  destruct (String.eqb k' k); simpl; lia.
Qed.

Lemma courseCount_addCourse d course :
  courseCount (AdminDashboard.addCourse d course) = (courseCount d + 1)%nat.
Proof.
  unfold AdminDashboard.addCourse, Js.has. cbv zeta.
  set (key := AdminDashboard.dept course).
  destruct (Js.get d key) as [data|] eqn:E.
  - rewrite E. pose proof (courseCount_set d key
      (AdminDashboard.mkDepartment
         (fold_left Js.SetAdd
            (match course_studentIds course with Some ids => ids | None => [] end)
            (AdminDashboard.dep_students data))
         (Js.SetAdd (AdminDashboard.dep_teachers data) (course_teacherId course))
         (AdminDashboard.dep_courses data + 1))) as H.
    rewrite E in H. simpl in H. lia.
  - rewrite get_set_eq.
    pose proof (courseCount_set d key (AdminDashboard.mkDepartment [] [] 0)) as H1.
    rewrite E in H1.
    match goal with |- courseCount (Js.set ?d1 key ?v) = _ =>
      pose proof (courseCount_set d1 key v) as H2 end.
    rewrite get_set_eq in H2.
    cbn [AdminDashboard.dep_courses AdminDashboard.dep_students
         AdminDashboard.dep_teachers] in H1, H2 |- *. lia.
Qed.

(** The course counts of the departments add up to the number of
    courses. *)
Theorem departments_count courses :
  courseCount (AdminDashboard.departments courses) = length courses.
Proof.
  unfold AdminDashboard.departments.
  assert (∀ d, courseCount (fold_left AdminDashboard.addCourse courses d)
               = (courseCount d + length courses)%nat) as H.
  { induction courses as [|c courses IH]; intros d; simpl; [lia|].
    rewrite IH, courseCount_addCourse. lia. }
  by rewrite H.
Qed.

Lemma reports_addCourse_get attendance d course k :
  Js.get (AdminReports.addCourse attendance d course) k
  = if decide (AdminReports.dept course = k)
    then
      let entry := default (AdminReports.mkEntry [] []) (Js.get d k) in
      Some (AdminReports.mkEntry
              (fold_left Js.SetAdd (course_studentIds course)
                 (AdminReports.entry_studentIds entry))
              (AdminReports.entry_attendanceRecords entry ++ recordsOf attendance course))
    else Js.get d k.
Proof.
  unfold AdminReports.addCourse, Js.has, recordsOf. cbv zeta.
  set (key := AdminReports.dept course).
  destruct (Js.get d key) as [entry|] eqn:E.
  - rewrite E, get_set. case_decide as Hk; [|done]. subst k. by rewrite E.
  - rewrite get_set_eq, !get_set.
    case_decide as Hk; [|done]. subst k. by rewrite E.
Qed.

Lemma reports_fold attendance courses : ∀ d k,
  Js.get (fold_left (AdminReports.addCourse attendance) courses d) k
  = match reportsGroup courses k with
    | [] => Js.get d k
    | group =>
        let entry := default (AdminReports.mkEntry [] []) (Js.get d k) in
        Some (AdminReports.mkEntry
                (fold_left Js.SetAdd (concat (map course_studentIds group))
                   (AdminReports.entry_studentIds entry))
                (AdminReports.entry_attendanceRecords entry
                 ++ concat (map (recordsOf attendance) group)))
    end.
Proof.
  induction courses as [|c courses IH]; intros d k; [done|].
  cbn [fold_left]. rewrite IH, reports_addCourse_get.
  unfold reportsGroup. rewrite filter_cons.
  case_decide as Hk.
  - destruct (filter _ courses) as [|c' group]; cbn -[Js.SetAdd].
    + by rewrite !app_nil_r.
    + rewrite !fold_left_app, <- !app_assoc. done.
  - done.
Qed.

(** A department of the reports page holds the distinct student ids of
    the courses filed under its key and, course after course, the
    attendance records that bear the name of the course: a record is
    taken once for every course of the department that has its course
    name. *)
Theorem deptMap_contents courses attendance k :
  Js.get (AdminReports.deptMap courses attendance) k
  = match reportsGroup courses k with
    | [] => None
    | group =>
        Some (AdminReports.mkEntry
                (Js.SetOf (concat (map course_studentIds group)))
                (concat (map (recordsOf attendance) group)))
    end.
Proof.
  unfold AdminReports.deptMap. rewrite reports_fold.
  by destruct (reportsGroup courses k).
Qed.

End DepartmentContents.

(** ** The ids that normalizeStudentIds returns *)

Section NormalizedIds.

Import RosterUtils.

Lemma trimEnd_idem s : Js.trimEnd (Js.trimEnd s) = Js.trimEnd s.
Proof.
  induction s as [|c s IH]; [done|]. cbn [Js.trimEnd].
  destruct (Js.trimEnd s) as [|c' t] eqn:E.
  - destruct (Js.isWhitespace c) eqn:Hc; [done|]. cbn [Js.trimEnd]. by rewrite Hc.
  - simpl in IH |- *. by rewrite IH.
Qed.

Lemma trimStart_startsClean s : Text.startsClean (Js.trimStart s) = true.
Proof.
  induction s as [|c s IH]; [done|]. cbn [Js.trimStart].
  destruct (Js.isWhitespace c) eqn:Hc; [done|]. simpl. by rewrite Hc.
Qed.

Lemma trimEnd_startsClean s :
  Text.startsClean s = true → Text.startsClean (Js.trimEnd s) = true.
Proof.
  destruct s as [|c s]; [done|]. cbn [Js.trimEnd Text.startsClean].
  intros Hc. destruct (Js.trimEnd s); [|done].
  destruct (Js.isWhitespace c) eqn:Hw; [done|]. cbn [Text.startsClean]. by rewrite Hw.
Qed.

Lemma startsClean_trimStart s : Text.startsClean s = true → Js.trimStart s = s.
Proof.
  destruct s as [|c s]; [done|]. cbn [Js.trimStart Text.startsClean].
  by destruct (Js.isWhitespace c).
Qed.

Lemma trim_idem s : Js.trim (Js.trim s) = Js.trim s.
Proof.
  unfold Js.trim.
  rewrite (startsClean_trimStart (Js.trimEnd (Js.trimStart s))).
  - apply trimEnd_idem.
  - apply trimEnd_startsClean, trimStart_startsClean.
Qed.

Lemma clean_elem_of values id :
  id ∈ clean values → id ≠ "" ∧ Js.trim id = id.
Proof.
  unfold clean. intros [Ht (v & -> & _)%elem_of_map]%list_elem_of_filter.
  split; [by apply truthy_nonempty | apply trim_idem].
Qed.

Lemma splitIds_elem_of t id :
  id ∈ splitIds t → id ≠ "" ∧ Js.trim id = id.
Proof.
  unfold splitIds. intros [Ht (v & -> & _)%elem_of_map]%list_elem_of_filter.
  split; [by apply truthy_nonempty | apply trim_idem].
Qed.

Lemma clean_fixed ids :
  (∀ id, id ∈ ids → id ≠ "" ∧ Js.trim id = id) → clean ids = ids.
Proof.
  unfold clean. induction ids as [|id ids IH]; intros H; [done|].
  destruct (H id ltac:(left)) as [Hne Ht]. cbn [map]. rewrite filter_cons, Ht.
  apply truthy_nonempty in Hne. rewrite decide_True by done.
  f_equal. apply IH. intros x Hx. apply H. by right.
Qed.

(** Whatever the argument holds and whatever the parser answers, every id
    that is returned is a non-empty string without white space at either
    end, and normalizing the returned array again returns it unchanged. *)
Theorem normalizeStudentIds_trimmed (e : Json.Engine) input ids :
  normalizeStudentIds e input = Js.Normal ids →
  (∀ id, id ∈ ids → id ≠ "" ∧ Js.trim id = id) ∧
  normalizeStudentIds e (ArrayOf (map Json.Str ids)) = Js.Normal ids.
Proof.
  intros Hrun.
  assert (∀ id, id ∈ ids → id ≠ "" ∧ Js.trim id = id) as Hids.
  { unfold normalizeStudentIds in Hrun. destruct input as [values|s|].
    - destruct (Js.mapM _ values) as [strings|]; cbn [Js.bind] in Hrun; [|done].
      injection Hrun as <-. apply clean_elem_of.
    - cbv zeta in Hrun. destruct (negb _).
      + injection Hrun as <-. by intros id ?%elem_of_nil.
      + unfold tryParse in Hrun.
        destruct (Json.parse e (Js.trim s)) as [parsed|]; cbn [Js.bind] in Hrun;
          [|injection Hrun as <-; apply splitIds_elem_of].
        destruct parsed;
          try (injection Hrun as <-; apply splitIds_elem_of).
        destruct (Js.mapM _ _) as [strings|]; cbn [Js.bind] in Hrun;
          injection Hrun as <-; [apply clean_elem_of | apply splitIds_elem_of].
    - injection Hrun as <-. by intros id ?%elem_of_nil. }
  split; [done|]. rewrite normalizeStudentIds_strings. by rewrite clean_fixed.
Qed.

Lemma normalizeStudentIds_trimmed_witness :
  normalizeStudentIds Examples.rejectingEngine
    (ArrayOf [Json.Str "s1"; Json.Str "s2"; Json.Str "s3"])
  = Js.Normal ["s1"; "s2"; "s3"].
Proof.
  apply (normalizeStudentIds_trimmed Examples.rejectingEngine
           (TextOf "[s1, {s2}],,s3 ") ["s1"; "s2"; "s3"]).
  reflexivity.
Defined.

Lemma any_trimStart P s : Text.any P (Js.trimStart s) = true → Text.any P s = true.
Proof.
  induction s as [|c s IH]; [done|]. cbn [Js.trimStart].
  destruct (Js.isWhitespace c); [|done]. intros H%IH. simpl. by rewrite H, orb_true_r.
Qed.

Lemma any_trimEnd P s : Text.any P (Js.trimEnd s) = true → Text.any P s = true.
Proof.
  induction s as [|c s IH]; [done|]. cbn [Js.trimEnd].
  destruct (Js.trimEnd s) as [|c' t].
  - destruct (Js.isWhitespace c); [done|]. simpl.
    rewrite orb_false_r. intros ->. done.
  - cbn [Text.any] in *. intros [->|H]%orb_true_iff; [done|].
    rewrite IH by done. by rewrite orb_true_r.
Qed.

Lemma any_removeAll P Q s :
  Text.any P (Js.removeAll Q s) = true →
  Text.any P s = true ∧ Text.any (λ c, P c && negb (Q c)) s = true.
Proof.
  induction s as [|c s IH]; [done|]. cbn [Js.removeAll Text.any].
  destruct (Q c) eqn:Hq.
  - intros [H1 H2]%IH. rewrite H1, H2, !orb_true_r. done.
  - cbn [Text.any]. intros [Hc|[H1 H2]%IH]%orb_true_iff.
    + by rewrite Hc.
    + rewrite H1, H2, !orb_true_r. done.
Qed.

Lemma any_split P sep s piece :
  piece ∈ Js.split sep s → Text.any P piece = true →
  Text.any (λ c, P c && negb (Ascii.eqb c sep)) s = true.
Proof.
  revert piece. induction s as [|c s IH]; intros piece; cbn [Js.split].
  - intros ->%list_elem_of_singleton. done.
  - destruct (Ascii.eqb c sep) eqn:Hc.
    + intros [->|Hin]%elem_of_cons; [done|]. intros H. cbn [Text.any].
      rewrite (IH _ Hin H). apply orb_true_r.
    + destruct (Js.split sep s) as [|p ps] eqn:E.
      * intros ->%list_elem_of_singleton. cbn [Text.any]. rewrite Hc, !orb_false_r.
        intros ->. done.
      * intros [->|Hin]%elem_of_cons; cbn [Text.any].
        -- intros [->|H]%orb_true_iff; [by rewrite Hc|].
           rewrite (IH p ltac:(left) H). apply orb_true_r.
        -- intros H. rewrite (IH piece ltac:(by right) H). apply orb_true_r.
Qed.

Lemma any_false P s : (∀ c, P c = false) → Text.any P s = false.
Proof. intros H. induction s as [|c s IH]; simpl; [done|]. by rewrite H, IH. Qed.

Lemma splitIds_separator t id : id ∈ splitIds t → Text.any Text.separator id = false.
Proof.
  unfold splitIds. intros [_ (v & -> & Hv)%elem_of_map]%list_elem_of_filter.
  destruct (Text.any _ _) eqn:E; [exfalso|done].
  apply any_trimEnd, any_trimStart, any_removeAll in E as [_ E].
  apply (any_split _ _ _ _ Hv) in E.
  rewrite any_false in E; [done|]. intros c. unfold Text.separator.
  by destruct (Ascii.eqb c ","), (noise c).
Qed.

(** A text that the parser does not read as an array is cut at its
    commas: no id that comes out of it holds a comma, a bracket, a brace
    or a double quote. *)
Theorem delimiter_ids_clean (e : Json.Engine) s ids :
  (∀ items, Json.parse e (Js.trim s) ≠ Js.Normal (Json.Array items)) →
  normalizeStudentIds e (TextOf s) = Js.Normal ids →
  ∀ id, id ∈ ids → Text.any Text.separator id = false.
Proof.
  intros Hparse Hrun.
  assert (ids = [] ∨ ids = splitIds (Js.trim s)) as [->| ->].
  { cbn [normalizeStudentIds] in Hrun. cbv zeta in Hrun. destruct (negb _).
    - left. by injection Hrun.
    - right. unfold tryParse in Hrun.
      destruct (Json.parse e (Js.trim s)) as [parsed|]; cbn [Js.bind] in Hrun;
        [|by injection Hrun].
      destruct parsed; try (by injection Hrun). by destruct (Hparse items). }
  - by intros id ?%elem_of_nil.
  - apply splitIds_separator.
Qed.

Lemma delimiter_ids_clean_witness :
  Text.any Text.separator "s2" = false.
Proof.
  apply (delimiter_ids_clean Examples.rejectingEngine "[s1, {s2}],,s3 " ["s1"; "s2"; "s3"]).
  - done.
  - reflexivity.
  - right. left.
Defined.

End NormalizedIds.

(** ** The attendance page: state and form *)

Section AttendanceForm.

Import TeacherAttendance AttendancePage Reconciliation.

Lemma loadAttendanceData_uniform e t userId allCourses initialStudents :
  (∀ attendance,
     loadAttendanceData e t userId allCourses initialStudents attendance = cleared) ∨
  ∃ uid teacherCourses,
    userId = Some uid ∧ teacherCourses ≠ [] ∧
    (∀ course, course ∈ teacherCourses → course_teacherId course = uid) ∧
    ∀ attendance,
      loadAttendanceData e t userId allCourses initialStudents attendance
      = stateOf t initialStudents teacherCourses attendance.
Proof.
  unfold loadAttendanceData. destruct userId as [uid|]; [|by left].
  destruct (Js.truthy uid); simpl; [|by left].
  unfold load.
  destruct (normalizeCourses_normal e allCourses) as (normalized & Hn & _).
  rewrite Hn. simpl.
  destruct (filter _ normalized) as [|c tc] eqn:Etc; [by left|].
  right. exists uid, (c :: tc). split_and!; [done | done | | done].
  intros course Hin. rewrite <- Etc in Hin.
  by apply list_elem_of_filter in Hin as [? _].
Qed.

Lemma resolve_NoDup lookup ids :
  (∀ id s, Js.get lookup id = Some s → student_id s = id) →
  NoDup ids → NoDup (map student_id (Roster.resolve lookup ids)).
Proof.
  intros Hkey. unfold Roster.resolve.
  induction 1 as [|id ids Hnot Hnd IH]; simpl; [apply NoDup_nil_2|].
  destruct (Js.get lookup id) as [s|] eqn:E; simpl; [|done].
  apply NoDup_cons. split; [|done].
  intros (s' & Hid & Hs')%elem_of_map.
  apply list_elem_of_omap in Hs' as (id' & Hid' & Hget).
  apply Hkey in Hget. apply Hkey in E. congruence.
Qed.

Lemma relevant_shown tc record : relevant tc record = true → shown tc record = true.
Proof.
  unfold relevant, shown, hasCourseId.
  destruct (att_courseId record) as [id|].
  - destruct (Js.truthy id).
    + intros H. apply existsb_exists in H as (course & Hin & Heq).
      apply existsb_exists. exists course. split; [done|]. by rewrite Heq.
    + intros (course & Heq & Hin)%includes_elem_of%SetOf_elem_of%elem_of_map.
      apply existsb_exists. exists course.
      split; [by apply list_elem_of_In|]. rewrite Heq, String.eqb_refl. apply orb_true_r.
  - intros (course & Heq & Hin)%includes_elem_of%SetOf_elem_of%elem_of_map.
    apply existsb_exists. exists course.
    split; [by apply list_elem_of_In|]. by rewrite Heq, String.eqb_refl.
Qed.

Lemma stateOf_entries tc attendance :
  let rel := filter (λ r, relevant tc r = true) attendance in
  let entries := rosterEntries tc rel in
  NoDup (Js.keys entries) ∧ covers tc entries.
Proof.
  intros rel entries.
  destruct (entries_fold tc rel (seed tc)) as [Hkeys _].
  - apply seed_covers.
  - apply Forall_forall. intros r Hr.
    subst rel. by apply list_elem_of_filter in Hr as [? _].
  - fold (rosterEntries tc rel) in Hkeys. fold entries in Hkeys. split.
    + rewrite Hkeys. apply seed_NoDup.
    + eapply covers_keys; [exact Hkeys | apply seed_covers].
Qed.

Lemma stateOf_rosters t initialStudents tc attendance :
  let state := stateOf t initialStudents tc attendance in
  (∀ k, Js.has (courseRosters state) k = true ↔ k ∈ map course_id tc) ∧
  (∀ k roster, Js.get (courseRosters state) k = Some roster →
     NoDup (map student_id roster) ∧
     ∀ s, s ∈ roster → Js.truthy (student_id s) = true) ∧
  NoDup (map student_id (students state)) ∧
  (∀ s, s ∈ students state ↔
        ∃ k roster, Js.get (courseRosters state) k = Some roster ∧ s ∈ roster).
Proof.
  intros state. subst state. unfold stateOf. cbv zeta. cbn [courseRosters students].
  set (rel := filter (λ r, relevant tc r = true) attendance).
  set (entries := rosterEntries tc rel).
  set (lookup := lookupOf t initialStudents entries).
  destruct (stateOf_entries tc attendance) as [Hnd Hcov].
  fold rel in Hnd, Hcov. fold entries in Hnd, Hcov.
  assert (NoDup (Js.keys (Js.mapEntries (rosterOf lookup) entries))) as Hnd'
    by (by rewrite mapEntries_keys).
  assert (∀ roster s, roster ∈ Js.values (Js.mapEntries (rosterOf lookup) entries) →
            s ∈ roster → Js.get lookup (student_id s) = Some s) as Hfun.
  { intros roster s (k & Hin)%values_elem_of Hs.
    rewrite mapEntries_map in Hin by done.
    apply elem_of_map in Hin as ([k' ids] & [= -> ->] & _).
    apply resolve_elem_of in Hs as (id & _ & Hget).
    pose proof (lookupOf_sound _ _ _ _ _ Hget) as [<- _]. done. }
  destruct (flatten_spec lookup _ Hfun) as [Hflat_nd Hflat].
  split_and!.
  - intros k. rewrite has_keys, mapEntries_keys, <- has_keys by done. apply Hcov.
  - intros k roster. rewrite mapEntries_get by done.
    destruct (Js.get entries k) as [ids|]; [|done]. intros [= <-]. split.
    + apply resolve_NoDup; [|apply SetOf_NoDup].
      intros id s Hget. by apply lookupOf_sound in Hget as [? _].
    + intros s (id & Hid & Hget)%resolve_elem_of.
      apply lookupOf_sound in Hget as [-> _].
      apply (proj1 (SetOf_elem_of _ _)) in Hid. unfold nonEmpty in Hid.
      by apply list_elem_of_filter in Hid as [? _].
  - done.
  - intros s. rewrite Hflat. split.
    + intros (roster & Hs & (k & Hin)%values_elem_of).
      exists k, roster. split; [by apply elem_of_get | done].
    + intros (k & roster & Hget & Hs). exists roster. split; [done|].
      apply values_elem_of. exists k. by apply get_elem_of.
Qed.

Lemma loaded_rosters e t userId allCourses initialStudents attendance :
  let state := loadAttendanceData e t userId allCourses initialStudents attendance in
  (∀ k, Js.has (courseRosters state) k = true ↔ k ∈ map course_id (courses state)) ∧
  (∀ k roster, Js.get (courseRosters state) k = Some roster →
     NoDup (map student_id roster) ∧
     ∀ s, s ∈ roster → Js.truthy (student_id s) = true) ∧
  NoDup (map student_id (students state)) ∧
  (∀ s, s ∈ students state ↔
        ∃ k roster, Js.get (courseRosters state) k = Some roster ∧ s ∈ roster).
Proof.
  intros state. subst state.
  destruct (loadAttendanceData_uniform e t userId allCourses initialStudents)
    as [->|(uid & tc & -> & _ & Huid & ->)].
  - split_and!; try done.
    + intros k. split; [done | by intros ?%elem_of_nil].
    + apply NoDup_nil_2.
    + intros s. split; [by intros ?%elem_of_nil | by intros (? & ? & ? & ?)].
  - apply stateOf_rosters.
Qed.

(** After every load of the attendance page: the courses are those of
    the user; the records kept are records of the input that are relevant
    to them, and the filter of the recent records lets each of them
    through; the roster object has exactly the ids of the courses as
    keys; no roster and no student list names a student id twice; and the
    student list is the union of the rosters. *)
Theorem attendance_state_consistent e t userId allCourses initialStudents attendance :
  let state := loadAttendanceData e t userId allCourses initialStudents attendance in
  (∀ course, course ∈ courses state → userId = Some (course_teacherId course)) ∧
  (∀ record, record ∈ records state →
     record ∈ attendance ∧ relevant (courses state) record = true ∧
     shown (courses state) record = true) ∧
  (∀ k, Js.has (courseRosters state) k = true ↔ k ∈ map course_id (courses state)) ∧
  (∀ k roster, Js.get (courseRosters state) k = Some roster →
     NoDup (map student_id roster)) ∧
  NoDup (map student_id (students state)) ∧
  (∀ s, s ∈ students state ↔
        ∃ k roster, Js.get (courseRosters state) k = Some roster ∧ s ∈ roster).
Proof.
  intros state.
  destruct (loaded_rosters e t userId allCourses initialStudents attendance)
    as (Hk & Hr & Hs & Hu). fold state in Hk, Hr, Hs, Hu.
  split_and!; [| | done | | done | done].
  - subst state.
    destruct (loadAttendanceData_uniform e t userId allCourses initialStudents)
      as [->|(uid & tc & -> & _ & Huid & ->)]; [by intros ? ?%elem_of_nil|].
    intros course Hin. by rewrite (Huid course Hin).
  - subst state.
    destruct (loadAttendanceData_uniform e t userId allCourses initialStudents)
      as [->|(uid & tc & -> & _ & Huid & ->)]; [by intros ? ?%elem_of_nil|].
    unfold stateOf. cbn [records courses].
    intros record [Hrel Hin]%list_elem_of_filter.
    split_and!; [done | done | by apply relevant_shown].
  - intros k roster Hget. by apply (Hr k roster).
Qed.

Lemma studentMap_MapOf students : studentMap students = Js.MapOf (Roster.byId students).
Proof.
  unfold studentMap, Js.MapOf, Roster.byId.
  generalize (@nil (string * Student)).
  induction students as [|s students IH]; intros acc; simpl; [done|]. apply IH.
Qed.

(** The students offered by the form, after any load: they are students
    of the page, none of them twice; the roster of the selected course is
    among them; and a selected student that the page knows is among
    them, whether or not the roster of the course lists them. *)
Theorem roster_offers_selected e t userId allCourses initialStudents attendance form :
  let state := loadAttendanceData e t userId allCourses initialStudents attendance in
  NoDup (map student_id (roster state form)) ∧
  (Js.truthy (form_courseId form) = true →
   ∀ list s, Js.get (courseRosters state) (form_courseId form) = Some list →
     s ∈ list → s ∈ roster state form) ∧
  (∀ s, s ∈ roster state form → s ∈ students state) ∧
  (Js.truthy (form_courseId form) = true →
   ∀ s, s ∈ students state → student_id s = form_studentId form →
     ∃ s', s' ∈ roster state form ∧ student_id s' = form_studentId form).
Proof.
  intros state.
  destruct (loaded_rosters e t userId allCourses initialStudents attendance)
    as (_ & Hr & Hs & Hu). fold state in Hr, Hs, Hu.
  unfold roster. cbv zeta. destruct (Js.truthy (form_courseId form)) eqn:Hc; cbn [negb].
  2:{ split_and!; [apply NoDup_nil_2 | done | by intros s ?%elem_of_nil | done]. }
  set (list := default [] (Js.get (courseRosters state) (form_courseId form))).
  assert (NoDup (map student_id list) ∧ ∀ s, s ∈ list → s ∈ students state) as [Hl Hin].
  { subst list. destruct (Js.get (courseRosters state) (form_courseId form)) as [l|] eqn:E;
      simpl.
    - split; [by apply (Hr _ _ E)|]. intros s Hs'. apply Hu. by exists (form_courseId form), l.
    - split; [apply NoDup_nil_2 | by intros s ?%elem_of_nil]. }
  rewrite studentMap_MapOf.
  destruct (existsb _ list) eqn:Hex.
  - replace (Js.truthy (form_studentId form) && negb true) with false
      by (by destruct (Js.truthy (form_studentId form))).
    split_and!; [done | | done |].
    + intros _ l s Hget. subst list. by rewrite Hget.
    + intros _ s _ Hid. apply existsb_exists in Hex as (s' & Hs' & Heq).
      exists s'. split; [by apply list_elem_of_In | by apply String.eqb_eq].
  - replace (Js.truthy (form_studentId form) && negb false)
      with (Js.truthy (form_studentId form))
      by (by destruct (Js.truthy (form_studentId form))).
    assert (∀ s, s ∈ list → student_id s ≠ form_studentId form) as Hnone.
    { intros s Hs' Hid. apply not_true_iff_false in Hex. apply Hex.
      apply existsb_exists. exists s. split; [by apply list_elem_of_In|].
      by apply String.eqb_eq. }
    destruct (Js.truthy (form_studentId form)) eqn:Hsid.
    + destruct (Js.get (Js.MapOf (Roster.byId (students state))) (form_studentId form))
        as [extra|] eqn:E.
      * apply byId_lookup in E as [Hid Hextra]. split_and!.
        -- cbn [map]. apply NoDup_cons. split; [|done].
           intros (s & Heq & Hs')%elem_of_map. apply (Hnone s Hs'). congruence.
        -- intros _ l s Hget Hs'. right. subst list. by rewrite Hget.
        -- intros s [->|Hs']%elem_of_cons; [done | by apply Hin].
        -- intros _ s _ _. exists extra. split; [left | done].
      * split_and!; [done | | done |].
        -- intros _ l s Hget. subst list. by rewrite Hget.
        -- intros _ s Hs' Hid. destruct (byId_known _ _ Hs') as [s' Hs''].
           rewrite Hid in Hs''. congruence.
    + split_and!; [done | | done |].
      * intros _ l s Hget. subst list. by rewrite Hget.
      * intros _ s Hs' Hid.
        exfalso. apply Hu in Hs' as (k & l & Hget & Hs').
        pose proof (proj2 (Hr k l Hget) s Hs') as Hne.
        rewrite Hid in Hne. congruence.
Qed.

Lemma courseMap_lookup tc id course :
  Js.get (courseMap tc) id = Some course → course ∈ tc ∧ course_id course = id.
Proof.
  unfold courseMap. intros (c & [= -> ->] & Hin)%MapOf_get_elem_of%elem_of_map. done.
Qed.

(** A record saved from the form takes effect at the next load: when it
    is among the attendance records then, it is kept as a record of the
    page, and the student of the form, if their profile is known or
    stored, is on the roster of the course of the form. *)
Theorem submitted_student_listed e t userId allCourses initialStudents
    attendance attendance' form id record s :
  let state := loadAttendanceData e t userId allCourses initialStudents attendance in
  handleSubmit state form id = Saved record →
  NoDup (map course_id (courses state)) →
  record ∈ attendance' →
  s ∈ initialStudents ∨ s ∈ Api.Students t →
  student_id s = form_studentId form →
  let state' := loadAttendanceData e t userId allCourses initialStudents attendance' in
  record ∈ records state' ∧
  ∃ roster s',
    Js.get (courseRosters state') (form_courseId form) = Some roster ∧
    s' ∈ roster ∧ student_id s' = form_studentId form.
Proof.
  intros state Hsaved Hnd Hrec Hs Hid state'. subst state state'.
  destruct (loadAttendanceData_uniform e t userId allCourses initialStudents)
    as [Hc|(uid & tc & -> & _ & _ & Hload)].
  { rewrite Hc in Hsaved. unfold handleSubmit in Hsaved.
    destruct (form_status form); [|done].
    by destruct (negb _ || negb _). }
  rewrite Hload in Hsaved, Hnd. rewrite Hload. clear Hload.
  unfold handleSubmit in Hsaved. cbn [courses stateOf] in Hsaved, Hnd.
  destruct (form_status form) as [status|]; [|done].
  destruct (Js.truthy (form_courseId form)) eqn:Hcid; [|done].
  destruct (Js.truthy (form_studentId form)) eqn:Hsid; [|done].
  cbn [negb orb] in Hsaved.
  destruct (Js.get (courseMap tc) (form_courseId form)) as [course|] eqn:Hcourse; [|done].
  apply courseMap_lookup in Hcourse as [Hin Hcourse].
  injection Hsaved as <-.
  set (record := mkAttendance id (form_studentId form) (Some (course_id course))
                   (course_name course) (form_date form) (Text (statusText status))) in *.
  assert (hasCourseId record = Some (course_id course)) as Hhas.
  { unfold hasCourseId, record. cbn [att_courseId]. by rewrite Hcourse, Hcid. }
  assert (assigned tc record = Some (course_id course)) as Hassigned.
  { unfold assigned. rewrite Hhas.
    replace (Js.includes (map course_id tc) (course_id course)) with true; [done|].
    symmetry. apply includes_elem_of, elem_of_map. by exists course. }
  pose proof (assigned_elem_of _ _ _ Hassigned) as (Hrel & _ & _).
  unfold stateOf. cbn [records courseRosters].
  set (rel := filter (λ r, relevant tc r = true) attendance').
  set (entries := rosterEntries tc rel).
  set (lookup := lookupOf t initialStudents entries).
  split; [by apply list_elem_of_filter|].
  destruct (rosterEntries_spec tc attendance' course Hnd Hin)
    as (Hkeys & extra & Hget & _ & Hmem).
  fold rel in Hkeys, Hget. fold entries in Hkeys, Hget.
  assert (form_studentId form ∈ course_studentIds course ++ extra) as Hlisted.
  { apply elem_of_app.
    destruct (decide (form_studentId form ∈ course_studentIds course)) as [|Hnot];
      [by left|].
    right. apply Hmem. split; [done|]. by exists record. }
  assert (form_studentId form
          ∈ Js.SetOf (nonEmpty (course_studentIds course ++ extra))) as Hset.
  { apply SetOf_elem_of. unfold nonEmpty. by apply list_elem_of_filter. }
  destruct (lookupOf_complete t initialStudents entries s Hs) as [s' Hs'].
  { rewrite Hid. apply SetOf_elem_of. unfold nonEmpty.
    apply list_elem_of_filter. split; [done|].
    apply elem_of_concat. exists (course_studentIds course ++ extra).
    split; [done|]. apply values_elem_of. exists (course_id course).
    by apply get_elem_of. }
  fold lookup in Hs'. rewrite Hid in Hs'.
  exists (rosterOf lookup (course_studentIds course ++ extra)), s'.
  split_and!.
  - rewrite mapEntries_get by done. rewrite <- Hcourse. by rewrite Hget.
  - apply resolve_elem_of. by exists (form_studentId form).
  - by apply lookupOf_sound in Hs' as [? _].
Qed.

Lemma submitted_student_listed_witness :
  ∃ roster s',
    Js.get (courseRosters
              (loadAttendanceData Examples.rejectingEngine Examples.noTables (Some "t1")
                 [Examples.courseC1] [Examples.pupil "s1" "Ada"; Examples.pupil "s2" "Emmy"]
                 [Samples.submitted]))
      "C1" = Some roster ∧
    s' ∈ roster ∧ student_id s' = "s2".
Proof.
  apply (submitted_student_listed Examples.rejectingEngine Examples.noTables (Some "t1")
           [Examples.courseC1] [Examples.pupil "s1" "Ada"; Examples.pupil "s2" "Emmy"]
           [] [Samples.submitted] Samples.filled "a9" Samples.submitted
           (Examples.pupil "s2" "Emmy")).
  - reflexivity.
  - vm_compute. apply NoDup_singleton.
  - left.
  - left. right. left.
  - reflexivity.
Defined.

End AttendanceForm.

(** ** The student list of the teacher pages: what is shown *)

Section StudentList.

Import TeacherStudents StudentsPage.













End StudentList.

(** ** The attendance list of a student and the figure of a child *)

Section AttendanceList.

Import AttendanceUtils Attendance AttendanceView.

Lemma tally_all P records :
  (∀ r, r ∈ records → P r = true) → tally P records = length records.
Proof.
  unfold tally. induction records as [|r records IH]; intros H; simpl; [done|].
  rewrite (H r) by left. simpl. f_equal. apply IH. intros x Hx. apply H. by right.
Qed.

Lemma normalizesTo_unique s s' r :
  normalizesTo s r = true → s ≠ s' → normalizesTo s' r = false.
Proof.
  unfold normalizesTo. destruct (normalizeAttendanceStatus (att_status r)) as [[]| |];
    destruct s, s'; done.
Qed.

Lemma Math_round_comp (x y : Q) : (x == y)%Q → Js.Math_round x = Js.Math_round y.
Proof. intros H. unfold Js.Math_round. apply Qfloor_comp. by rewrite H. Qed.

Lemma keeps_status timeOf courseFilter status startDate endDate r :
  keeps timeOf courseFilter (Some status) startDate endDate r = true →
  normalizesTo status r = true.
Proof.
  unfold keeps. destruct (negb _ && negb _); [done|].
  by destruct (normalizesTo status r).
Qed.

(** Under a filter by status, the summary counts every record of the
    list under that status and none under another, and its rate is the
    weight of the status, 100, 75 or 0, whatever the records; it is 0
    for an empty list. *)
Theorem status_filter_rate timeOf records courseFilter status startDate endDate :
  let shown := filteredRecords timeOf records courseFilter (Some status) startDate endDate in
  let summary := stats timeOf records courseFilter (Some status) startDate endDate in
  total summary = length shown ∧
  presentCount summary = (match status with present => length shown | _ => 0%nat end) ∧
  lateCount summary = (match status with late => length shown | _ => 0%nat end) ∧
  absentCount summary = (match status with absent => length shown | _ => 0%nat end) ∧
  rate summary = match shown with
                 | [] => Js.Finite 0
                 | _ => Js.Finite (weight status)
                 end.
Proof.
  intros shown summary. subst summary. unfold stats. fold shown.
  assert (∀ r, r ∈ shown → normalizesTo status r = true) as Hall.
  { intros r Hr. subst shown. unfold filteredRecords in Hr.
    apply list_elem_of_In, filter_In in Hr as [_ Hr]. by apply keeps_status in Hr. }
  assert (tally counted shown = length shown) as Hn.
  { apply tally_all. intros r Hr. eapply normalizesTo_counted. by apply Hall. }
  assert (tally (normalizesTo status) shown = length shown) as Hsame
    by (by apply tally_all).
  assert (∀ s, status ≠ s → tally (normalizesTo s) shown = 0%nat) as Hother.
  { intros s Hs. apply tally_zero. intros r Hr.
    eapply normalizesTo_unique; [by apply Hall | done]. }
  rewrite calculateAttendanceStats_closed. cbv zeta. rewrite Hn.
  assert (∀ n, ¬ (ofNat (S n) == 0)%Q) as Hpos.
  { intros n H. pose proof (Qzero_ofNat n) as Hz.
    unfold Js.Qzero in Hz. apply Qeq_bool_iff in H. congruence. }
  destruct status.
  - rewrite Hsame, (Hother late), (Hother absent) by done.
    destruct shown as [|r shown']; [done|].
    cbn [length total presentCount lateCount absentCount rate c_total c_present c_late
         c_absent]. split_and!; [done..|]. unfold weightedScore.
    cbn [c_present c_late c_absent weight].
    match goal with |- Js.Finite (inject_Z (Js.Math_round ?x)) = _ =>
      rewrite (Math_round_comp x 100) end; [reflexivity|].
    unfold ofNat at 2 3. change (inject_Z (Z.of_nat 0)) with 0%Q. field. apply Hpos.
  - rewrite Hsame, (Hother present), (Hother absent) by done.
    destruct shown as [|r shown']; [done|].
    cbn [length total presentCount lateCount absentCount rate c_total c_present c_late
         c_absent]. split_and!; [done..|]. unfold weightedScore.
    cbn [c_present c_late c_absent weight].
    match goal with |- Js.Finite (inject_Z (Js.Math_round ?x)) = _ =>
      rewrite (Math_round_comp x 75) end; [reflexivity|].
    unfold ofNat at 1 3. change (inject_Z (Z.of_nat 0)) with 0%Q. field. apply Hpos.
  - rewrite Hsame, (Hother present), (Hother late) by done.
    destruct shown as [|r shown']; [done|].
    cbn [length total presentCount lateCount absentCount rate c_total c_present c_late
         c_absent]. split_and!; [done..|]. unfold weightedScore.
    cbn [c_present c_late c_absent weight].
    match goal with |- Js.Finite (inject_Z (Js.Math_round ?x)) = _ =>
      rewrite (Math_round_comp x 0) end; [reflexivity|].
    unfold ofNat at 1 2. change (inject_Z (Z.of_nat 0)) with 0%Q. field. apply Hpos.
Qed.

(** A child none of whose records counts as present or late, so also a
    child without records, is shown the attendance figure stored in the
    profile in place of a rate of 0. *)
Theorem child_rate_fallback records child :
  (∀ r, r ∈ records → normalizesTo present r = false ∧ normalizesTo late r = false) →
  rate (calculateAttendanceStats records) = Js.Finite 0 ∧
  ChildrenPage.attendanceRate records child = Js.Finite (student_attendance child).
Proof.
  intros Hnone. unfold ChildrenPage.attendanceRate. cbv zeta.
  assert (rate (calculateAttendanceStats records) = Js.Finite 0) as ->; [|done].
  rewrite calculateAttendanceStats_closed. cbv zeta.
  rewrite (tally_zero (normalizesTo present)) by (intros r Hr; by apply Hnone).
  rewrite (tally_zero (normalizesTo late)) by (intros r Hr; by apply Hnone).
  destruct (tally counted records) as [|n] eqn:E; [done|].
  cbn [rate c_total]. unfold weightedScore. cbn [c_present c_late c_absent].
  assert (¬ (ofNat (S n) == 0)%Q) as Hpos.
  { intros H. pose proof (Qzero_ofNat n) as Hz.
    unfold Js.Qzero in Hz. apply Qeq_bool_iff in H. congruence. }
  match goal with |- Js.Finite (inject_Z (Js.Math_round ?x)) = _ =>
    rewrite (Math_round_comp x 0) end; [reflexivity|].
  unfold ofNat at 1 2. change (inject_Z (Z.of_nat 0)) with 0%Q. field. done.
Qed.

Lemma child_rate_fallback_witness :
  ChildrenPage.attendanceRate [marked "absent"; marked "excused"]
    (mkStudent "s1" "Ada" "" "" 0 92)
  = Js.Finite 92.
Proof.
  apply (child_rate_fallback [marked "absent"; marked "excused"]
           (mkStudent "s1" "Ada" "" "" 0 92)).
  intros r Hr. repeat (apply elem_of_cons in Hr as [->|Hr]; [by vm_compute|]).
  by apply elem_of_nil in Hr.
Defined.

End AttendanceList.

(** ** Letter grades of the results page *)

Section LetterGrades.

Import ResultsView.

Lemma add_NaN_fold (f : Grade → Js.JsNumber) grades :
  fold_left (λ sum grade, Js.add sum (f grade)) grades Js.NaN = Js.NaN.
Proof. induction grades as [|g grades IH]; simpl; [done | exact IH]. Qed.

Lemma add_NaN_r x : Js.add x Js.NaN = Js.NaN.
Proof. by destruct x. Qed.

Lemma sum_poisoned grades g : ∀ acc,
  g ∈ grades → percentage g = Js.NaN →
  fold_left (λ sum grade, Js.add sum (percentage grade)) grades acc = Js.NaN.
Proof.
  induction grades as [|x grades IH]; intros acc Hin Hg.
  - by apply elem_of_nil in Hin.
  - cbn [fold_left]. apply elem_of_cons in Hin as [<-|Hin].
    + rewrite Hg, add_NaN_r. apply add_NaN_fold.
    + by apply IH.
Qed.

(** One assessment with a score of 0 out of a maximum of 0 turns the
    average of the results page into NaN and the overall letter into F,
    whatever the other assessments are. *)
Theorem zero_maximum_fails_all grades g :
  g ∈ grades →
  Js.Qzero (grade_score g) = true → Js.Qzero (grade_maxScore g) = true →
  StudentResults.averageScore grades = Js.NaN ∧ overallLetter grades = F.
Proof.
  intros Hin Hs Hm.
  assert (StudentResults.averageScore grades = Js.NaN) as Havg.
  { unfold StudentResults.averageScore.
    destruct grades as [|x grades]; [by apply elem_of_nil in Hin|].
    fold (percentage x).
    change (fold_left _ (x :: grades) (Js.Finite 0))
      with (fold_left (λ sum grade, Js.add sum (percentage grade)) (x :: grades)
              (Js.Finite 0)).
    rewrite (sum_poisoned (x :: grades) g); [done | done |].
    unfold percentage, Js.div. by rewrite Hm, Hs. }
  split; [done|]. unfold overallLetter. by rewrite Havg.
Qed.

Lemma zero_maximum_fails_all_witness :
  overallLetter [Examples.graded 95 100; Examples.graded 0 0; Examples.graded 98 100] = F.
Proof.
  apply (zero_maximum_fails_all _ (Examples.graded 0 0)).
  - right. left.
  - reflexivity.
  - reflexivity.
Defined.

Lemma Qle_bool_false (x y : Q) : Qle_bool x y = false ↔ (y < x)%Q.
Proof.
  rewrite <- not_true_iff_false, Qle_bool_iff. split; [apply Qnot_le_lt | apply Qlt_not_le].
Qed.

Lemma sum_same_side (t : Q) (p : Grade → Q) grades : ∀ acc : Q,
  (∀ g, g ∈ grades → (t <= p g)%Q) →
  (acc + t * AttendanceUtils.ofNat (length grades)
   <= fold_left (λ sum g, sum + p g) grades acc)%Q.
Proof.
  induction grades as [|g grades IH]; intros acc H; cbn [fold_left length].
  - unfold AttendanceUtils.ofNat. change (inject_Z (Z.of_nat 0)) with 0%Q. lra.
  - pose proof (H g ltac:(left)) as Hg.
    pose proof (IH (acc + p g)%Q ltac:(intros x Hx; apply H; by right)) as Hrest.
    change (S (length grades)) with (1 + length grades)%nat.
    rewrite ofNat_plus. unfold AttendanceUtils.ofNat at 1.
    change (inject_Z (Z.of_nat 1)) with 1%Q. lra.
Qed.

Lemma sum_below (t : Q) (p : Grade → Q) grades : ∀ acc : Q,
  (∀ g, g ∈ grades → (p g < t)%Q) → grades ≠ [] →
  (fold_left (λ sum g, sum + p g) grades acc
   < acc + t * AttendanceUtils.ofNat (length grades))%Q.
Proof.
  induction grades as [|g grades IH]; intros acc H Hne; [done|].
  cbn [fold_left length].
  pose proof (H g ltac:(left)) as Hg.
  change (S (length grades)) with (1 + length grades)%nat.
  rewrite ofNat_plus. unfold AttendanceUtils.ofNat at 1.
  change (inject_Z (Z.of_nat 1)) with 1%Q.
  destruct grades as [|g' grades'].
  - cbn [fold_left length]. unfold AttendanceUtils.ofNat.
    change (inject_Z (Z.of_nat 0)) with 0%Q. lra.
  - pose proof (IH (acc + p g)%Q ltac:(intros x Hx; apply H; by right) ltac:(done))
      as Hrest. lra.
Qed.

Lemma finite_sum grades : ∀ acc : Q,
  (∀ g, g ∈ grades → Js.Qzero (grade_maxScore g) = false) →
  fold_left (λ sum grade,
    Js.add sum (Js.mulq (Js.div (grade_score grade) (grade_maxScore grade)) 100))
    grades (Js.Finite acc)
  = Js.Finite
      (fold_left (λ sum g, sum + grade_score g / grade_maxScore g * 100)%Q grades acc).
Proof.
  induction grades as [|g grades IH]; intros acc H; cbn [fold_left]; [done|].
  rewrite Qzero_false_div by (apply H; left). cbn [Js.mulq Js.add].
  apply IH. intros x Hx. apply H. by right.
Qed.

Lemma average_same_side (t : Q) (b : bool) grades :
  grades ≠ [] →
  (∀ g, g ∈ grades → Js.Qzero (grade_maxScore g) = false ∧
                      Num.ge (percentage g) t = b) →
  Num.ge (StudentResults.averageScore grades) t = b.
Proof.
  intros Hne H. unfold StudentResults.averageScore.
  destruct grades as [|x grades]; [done|].
  rewrite finite_sum by (intros g Hg; by apply H).
  assert (0 < AttendanceUtils.ofNat (length (x :: grades)))%Q as Hpos.
  { unfold AttendanceUtils.ofNat. change 0%Q with (inject_Z 0).
    rewrite <- Zlt_Qlt. simpl. lia. }
  unfold Js.divq. fold (AttendanceUtils.ofNat (length (x :: grades))).
  rewrite Qzero_false_div by apply Qzero_ofNat.
  cbn [Num.ge].
  set (p := λ g : Grade, (grade_score g / grade_maxScore g * 100)%Q).
  assert (∀ g, g ∈ x :: grades → Qle_bool t (p g) = b) as Hp.
  { intros g Hg. destruct (H g Hg) as [Hm <-]. unfold percentage.
    by rewrite Qzero_false_div. }
  change (fold_left _ (x :: grades) 0%Q)
    with (fold_left (λ sum g, sum + p g)%Q (x :: grades) 0%Q).
  destruct b.
  - apply Qle_bool_iff. apply Qle_shift_div_l; [done|].
    pose proof (sum_same_side t p (x :: grades) 0) as Hsum.
    assert (0 + t * AttendanceUtils.ofNat (length (x :: grades))
            <= fold_left (λ sum g, sum + p g) (x :: grades) 0)%Q as Hle.
    { apply Hsum. intros g Hg. apply Qle_bool_iff. by apply Hp. }
    lra.
  - apply Qle_bool_false. apply Qlt_shift_div_r; [done|].
    pose proof (sum_below t p (x :: grades) 0) as Hsum.
    assert (fold_left (λ sum g, sum + p g) (x :: grades) 0
            < 0 + t * AttendanceUtils.ofNat (length (x :: grades)))%Q as Hlt.
    { apply Hsum; [|done]. intros g Hg. apply Qle_bool_false. by apply Hp. }
    lra.
Qed.

Lemma letter_sides (x : Js.JsNumber) (letter : Letter) :
  Js.isFinite x = true → letterGrade x = letter →
  Num.ge x 90 = (match letter with A => true | _ => false end) ∧
  Num.ge x 80 = (match letter with A | B => true | _ => false end) ∧
  Num.ge x 70 = (match letter with A | B | C => true | _ => false end) ∧
  Num.ge x 60 = (match letter with F => false | _ => true end).
Proof.
  destruct x as [q| | |]; [|done..]. intros _. unfold letterGrade, Num.ge.
  destruct (Qle_bool 90 q) eqn:E90, (Qle_bool 80 q) eqn:E80, (Qle_bool 70 q) eqn:E70,
    (Qle_bool 60 q) eqn:E60;
    intros <-; try done; exfalso;
    repeat match goal with
    | H : Qle_bool _ _ = true |- _ => apply Qle_bool_iff in H
    | H : Qle_bool _ _ = false |- _ => apply Qle_bool_false in H
    end; lra.
Qed.

(** When every assessment has a maximum other than 0 and all rows of
    the table show the same letter, the overall grade shows that letter
    too. *)
Theorem uniform_letter grades letter :
  grades ≠ [] →
  (∀ g, g ∈ grades → Js.Qzero (grade_maxScore g) = false ∧ rowLetter g = letter) →
  overallLetter grades = letter.
Proof.
  intros Hne H.
  assert (∀ g, g ∈ grades → Js.isFinite (percentage g) = true) as Hfin.
  { intros g Hg. destruct (H g Hg) as [Hm _]. unfold percentage.
    by rewrite Qzero_false_div. }
  assert (∀ t b,
    (∀ x, Js.isFinite x = true → letterGrade x = letter → Num.ge x t = b) →
    Num.ge (StudentResults.averageScore grades) t = b) as Hside.
  { intros t b Hb. apply average_same_side; [done|]. intros g Hg.
    destruct (H g Hg) as [Hm Hl]. split; [done|]. apply Hb; [by apply Hfin | done]. }
  unfold overallLetter, letterGrade.
  rewrite (Hside 90%Q _ (λ x Hx Hl, proj1 (letter_sides x letter Hx Hl))).
  rewrite (Hside 80%Q _ (λ x Hx Hl, proj1 (proj2 (letter_sides x letter Hx Hl)))).
  rewrite (Hside 70%Q _ (λ x Hx Hl, proj1 (proj2 (proj2 (letter_sides x letter Hx Hl))))).
  rewrite (Hside 60%Q _ (λ x Hx Hl, proj2 (proj2 (proj2 (letter_sides x letter Hx Hl))))).
  by destruct letter.
Qed.

Lemma uniform_letter_witness :
  overallLetter [Examples.graded 17 20; Examples.graded 41 50; Examples.graded 8 10] = B.
Proof.
  apply uniform_letter; [done|].
  intros g Hg. repeat (apply elem_of_cons in Hg as [->|Hg]; [by vm_compute|]).
  by apply elem_of_nil in Hg.
Defined.

End LetterGrades.
